(** * GridTrading Pro: the trading control loop and the risk evaluator

    A shallow embedding of [src/core/grid_engine.py],
    [src/risk/risk_manager.py] and [src/utils/helpers.py].

    Numbers.  Python floats are modelled as exact rationals ([Q]); the
    statements below are about the arithmetic the code writes down, not
    about binary64 rounding error.  Comparison of prices is numeric
    ([Qeq]), as [==] on floats is.

    Effects.  The engine and the risk manager mutate their own fields,
    call an exchange, a notifier and a persistence layer, and read the
    clock.  Every method is a function on a state made of the component,
    the outside world and the trace of calls made so far; a raised
    exception is a result of its own and keeps the mutations made before
    it, as in Python. *)

From Stdlib Require Import QArith Qround Qpower ZArith List Sorted Ascii String Bool Lia Lqa.
Import ListNotations.
Local Open Scope Q_scope.

(** ** Numbers *)

Module Num.

Definition Qltb (a b : Q) : bool := negb (Qle_bool b a).

Definition Qgtb (a b : Q) : bool := Qltb b a.

(** [round(x)] of Python 3 on the exact value: to the nearest integer,
    a tie going to the even neighbour. *)
Definition round_half_even (x : Q) : Z :=
  let f := Qfloor x in
  let r := x - inject_Z f in
  if Qltb r (1 # 2) then f
  else if Qltb (1 # 2) r then (f + 1)%Z
  else if Z.even f then f else (f + 1)%Z.

(** [round(x, 4)]. *)
Definition round4 (x : Q) : Q :=
  inject_Z (round_half_even (x * 10000)) / 10000.

End Num.
Import Num.

(** ** Python dictionaries keyed by a float

    [grid_levels] and [active_orders] are dicts keyed by the rounded
    level price.  A dict keeps insertion order ([list(d.keys())[0]] is
    the oldest key) and an assignment to a key that is present replaces
    the value in place. *)

Module Dict.
Section Defs.
Context {V : Type}.

Definition t := list (Q * V).

Fixpoint get (d : t) (k : Q) : option V :=
  match d with
  | [] => None
  | (k', v) :: r => if Qeq_bool k' k then Some v else get r k
  end.

Definition mem (d : t) (k : Q) : bool :=
  match get d k with Some _ => true | None => false end.

(** [d[k] = v] *)
Fixpoint set (d : t) (k : Q) (v : V) : t :=
  match d with
  | [] => [(k, v)]
  | (k', v') :: r =>
      if Qeq_bool k' k then (k', v) :: r else (k', v') :: set r k v
  end.

(** [del d[k]], for a key that is present *)
Fixpoint del (d : t) (k : Q) : t :=
  match d with
  | [] => []
  | (k', v') :: r => if Qeq_bool k' k then r else (k', v') :: del r k
  end.

Definition keys (d : t) : list Q := map fst d.
Definition values (d : t) : list V := map snd d.

(** No key occurs twice, as in every dict. *)
Fixpoint wf (d : t) : Prop :=
  match d with
  | [] => True
  | (k, _) :: r => get r k = None /\ wf r
  end.
End Defs.
Arguments t : clear implicits.
End Dict.

(** ** Data model *)

Inductive Side := Buy | Sell.


(** The value stored under a level price in [grid_levels]. *)
Record GridLevel := {
  side : Side;
  level : Z;
  occupied : bool;
  last_attempt : Q
}.

Record GridState := {
  base_price : Q;
  current_price : Q;
  grid_size : Q;
  upper_band : Q;
  lower_band : Q;
  last_adjustment_time : Q;
  volatility : Q;
  price_history : list Q
}.

(** The order handle returned by the exchange; [order['id']]. *)
Record Order := { order_id : string }.

(** What [get_order_status] returns. *)
Record OrderStatus := {
  st_id : string;
  st_status : string;
  st_price : Q;
  st_filled : Q
}.

(** [balance['free']] and [balance['total']], per asset. *)
Record Balance := {
  bal_free : list (string * Q);
  bal_total : list (string * Q)
}.

(** [d.get(asset, 0)] *)
Fixpoint asset_get (d : list (string * Q)) (asset : string) : Q :=
  match d with
  | [] => 0
  | (a, v) :: r => if String.eqb a asset then v else asset_get r asset
  end.

Record Position := { notional : Q }.

Record TradingSettings := { symbol : string; min_trade_amount : Q }.
(** An entry [{'range': [lo, hi], 'grid_size': g}] of
    [volatility_thresholds]. *)
Record Threshold := { range_lo : Q; range_hi : Q; threshold_grid_size : Q }.
Record GridSettings := {
  initial_size : Q;
  max_size : Q;
  dynamic_adjustment : bool;
  volatility_thresholds : list Threshold
}.
Record RiskSettings := {
  max_drawdown : Q;
  daily_loss_limit : Q;
  max_position_ratio : Q;
  min_position_ratio : Q;
  risk_check_interval : Q
}.
Record DataSettings := { save_interval : Q }.
Record Settings := {
  trading : TradingSettings;
  grid : GridSettings;
  risk : RiskSettings;
  data : DataSettings;
  initial_base_price : Q
}.

(** [symbol.split('/')[0]] *)
Fixpoint split_base (s : string) : string :=
  match s with
  | EmptyString => EmptyString
  | String c r => if Ascii.eqb c "/"%char then EmptyString else String c (split_base r)
  end.

(** ** The outside world: exchange, notifier, clock *)

Inductive Notification :=
| NTradeExecution (s : Side) (price amount total : Q) (profit : option Q)
| NRiskAlert (alert_type : string) (current_value threshold : Q) (action : string)
| NSystemStatus (status : string)
| NStrategySignal (strategy signal : string) (price : Q)
| NError (error_type message : string).

(** Calls that leave the component, and the errors it logs. *)
Inductive Call :=
| CGetTicker
| CGetBalance
| CGetPosition
| CGetAccountValue
| CCreateLimitOrder (s : Side) (amount price : Q)
| CCancelOrder (id : string)
| CCancelAllOrders
| CGetOrderStatus (id : string)
| CNotify (n : Notification)
| CLogError (msg : string).

(** [BaseExchange], [BaseNotifier] and [time.time()] over a world [X].
    Every awaited call may raise ([None], [false]) and may change the
    world. *)
Class BaseExchange (X : Type) := {
  get_ticker : X -> option Q * X;
  get_balance : X -> option Balance * X;
  get_position : X -> option Position * X;
  get_account_value : X -> option Q * X;
  create_limit_order : Side -> Q -> Q -> X -> option (option Order) * X;
  cancel_order : string -> X -> bool * X;
  cancel_all_orders : X -> bool * X;
  get_order_status : string -> X -> option OrderStatus * X;
  symbol_info_base : X -> option string;
  adjust_amount_precision : X -> Q -> Q;
  is_futures_mode : X -> bool
}.

Class BaseNotifier (X : Type) := {
  notify : Notification -> X -> bool * X
}.

Class Clock (X : Type) := {
  time_time : X -> Q
}.

(** ** Methods as state transformers with exceptions *)

Module Py.

Inductive result (A : Type) : Type :=
| Ok (a : A)
| Raised.
Arguments Ok {A} a.
Arguments Raised {A}.

(** What a method runs on: its own object [comp], the world [ext] and
    the calls made so far, oldest first. *)
Record St (C X : Type) := mkSt {
  comp : C;
  ext : X;
  trace : list Call
}.
Arguments mkSt {C X}.
Arguments comp {C X}.
Arguments ext {C X}.
Arguments trace {C X}.

Definition M (C X A : Type) : Type := St C X -> result A * St C X.

Section Monad.
Context {C X : Type}.

Definition ret {A} (a : A) : M C X A := fun s => (Ok a, s).

Definition bind {A B} (m : M C X A) (k : A -> M C X B) : M C X B :=
  fun s => match m s with
           | (Ok a, s') => k a s'
           | (Raised, s') => (Raised, s')
           end.

Definition raise {A} : M C X A := fun s => (Raised, s).

(** [try: body / except Exception: handler] *)
Definition try_except {A} (body handler : M C X A) : M C X A :=
  fun s => match body s with
           | (Ok a, s') => (Ok a, s')
           | (Raised, s') => handler s'
           end.

Definition gets {A} (f : C -> A) : M C X A := fun s => (Ok (f (comp s)), s).

Definition modify (f : C -> C) : M C X unit :=
  fun s => (Ok tt, mkSt (f (comp s)) (ext s) (trace s)).

Definition record (c : Call) : M C X unit :=
  fun s => (Ok tt, mkSt (comp s) (ext s) (trace s ++ [c])).

Definition log_error (msg : string) : M C X unit := record (CLogError msg).

(** An awaited call: noted in the trace, answered by the world. *)
Definition call {A} (c : Call) (f : X -> option A * X) : M C X A :=
  fun s => let (r, x') := f (ext s) in
           let s' := mkSt (comp s) x' (trace s ++ [c]) in
           match r with
           | Some a => (Ok a, s')
           | None => (Raised, s')
           end.

Definition call_unit (c : Call) (f : X -> bool * X) : M C X unit :=
  call c (fun x => let (ok, x') := f x in
                   ((if ok then Some tt else None), x')).

(** A read of the world that changes nothing. *)
Definition ask {A} (f : X -> A) : M C X A := fun s => (Ok (f (ext s)), s).

(** [d[k]]: [KeyError] when the key is missing *)
Definition lookup {A} (o : option A) : M C X A :=
  match o with Some a => ret a | None => raise end.

(** [a / b] on floats: [ZeroDivisionError] when [b == 0] *)
Definition pydiv (a b : Q) : M C X Q :=
  if Qeq_bool b 0 then raise else ret (a / b).

(** [for b in l: body b]; an exception leaves the loop. *)
Fixpoint for_each {B} (l : list B) (body : B -> M C X unit) : M C X unit :=
  match l with
  | [] => ret tt
  | b :: r => bind (body b) (fun _ => for_each r body)
  end.
End Monad.

Declare Scope py_scope.
Delimit Scope py_scope with py.
Notation "x <- m ;; k" := (bind m (fun x => k))
  (at level 100, m at next level, right associativity) : py_scope.
Notation "m ;; k" := (bind m (fun _ => k))
  (at level 100, right associativity) : py_scope.

End Py.
Import Py.
Local Open Scope py_scope.

(** Python's [min(a, b)] and [abs(a)]. *)
Definition pymin (a b : Q) : Q := if Qltb b a then b else a.
Definition pyabs (a : Q) : Q := if Qltb a 0 then - a else a.

(** [l[-n:]] for [n > 0] *)
Definition last_n {A} (n : nat) (l : list A) : list A :=
  skipn (List.length l - n) l.

(** [range(lo, hi)] *)
Definition range (lo hi : Z) : list Z :=
  map (fun n => (lo + Z.of_nat n)%Z) (seq 0 (Z.to_nat (hi - lo))).

(** ** Persistence *)

(** The dict handed to [save_state] and read back from [load_state];
    a key may be missing when read ([state.get(key, default)]). *)
Record StateDict := {
  sd_base_price : option Q;
  sd_current_price : option Q;
  sd_grid_size : option Q;
  sd_last_adjustment_time : option Q;
  sd_volatility : option Q;
  sd_total_profit : option Q;
  sd_trade_count : option Z;
  sd_last_save_time : option Q
}.

(** The dict handed to [save_trade]. *)
Record TradeRecord := {
  tr_timestamp : Q;
  tr_side : Side;
  tr_price : Q;
  tr_amount : Q;
  tr_total : Q;
  tr_profit : Q;
  tr_order_id : string;
  tr_grid_level : Z
}.

(** Modelled from the spec: [DataManager] ([src/data/data_manager.py],
    imported by the engine) is missing from the sources.  Section 6 gives
    its contract: [saveState(snapshot)], [saveTrade(record)] and
    [loadState()], which gives back the snapshot persisted last, and
    nothing before the first save. *)
Record DataManager := {
  dm_state : option StateDict;
  dm_trades : list TradeRecord
}.

(** Modelled from the spec: [saveState(snapshot)] keeps the snapshot. *)
Definition save_state (d : StateDict) (dm : DataManager) : DataManager :=
  {| dm_state := Some d; dm_trades := dm_trades dm |}.

(** Modelled from the spec: [saveTrade(record)] appends the record. *)
Definition save_trade (t : TradeRecord) (dm : DataManager) : DataManager :=
  {| dm_state := dm_state dm; dm_trades := dm_trades dm ++ [t] |}.

(** Modelled from the spec: [loadState()] returns what was persisted. *)
Definition load_state (dm : DataManager) : option StateDict := dm_state dm.

(** Truth value of the loaded state in [if state:]: [None] and the
    empty dict are false. *)
Definition state_truthy (o : option StateDict) : bool :=
  match o with
  | None => false
  | Some d =>
      match sd_base_price d, sd_current_price d, sd_grid_size d,
            sd_last_adjustment_time d, sd_volatility d, sd_total_profit d,
            sd_trade_count d, sd_last_save_time d with
      | None, None, None, None, None, None, None, None => false
      | _, _, _, _, _, _, _, _ => true
      end
  end.

(** [d.get(key, default)] *)
Definition get_or {A} (o : option A) (default : A) : A :=
  match o with Some a => a | None => default end.

(** ** The grid engine ([src/core/grid_engine.py]) *)

Module GridEngine.

Record Engine := {
  settings : Settings;
  has_notifier : bool;              (* [self.notifier] is not [None] *)
  data_manager : DataManager;
  grid_state : GridState;
  is_running : bool;
  active_orders : Dict.t (option Order);
  grid_levels : Dict.t GridLevel;
  last_trade_time : Q;
  last_trade_price : Q;
  trade_count : Z;
  failed_order_cooldown : Q;
  total_profit : Q
}.

(** [GridEngine.__init__] *)
Definition init (s : Settings) (notifier : bool) (dm : DataManager) : Engine :=
  {| settings := s;
     has_notifier := notifier;
     data_manager := dm;
     grid_state := {| base_price := 0; current_price := 0; grid_size := 2;
                      upper_band := 0; lower_band := 0;
                      last_adjustment_time := 0; volatility := 0;
                      price_history := [] |};
     is_running := false;
     active_orders := [];
     grid_levels := [];
     last_trade_time := 0;
     last_trade_price := 0;
     trade_count := 0;
     failed_order_cooldown := 300;
     total_profit := 0 |}.

(** Field assignments. *)
Definition set_grid_levels (d : Dict.t GridLevel) (e : Engine) : Engine :=
  {| settings := settings e; has_notifier := has_notifier e;
     data_manager := data_manager e; grid_state := grid_state e;
     is_running := is_running e; active_orders := active_orders e;
     grid_levels := d;
     last_trade_time := last_trade_time e; last_trade_price := last_trade_price e;
     trade_count := trade_count e; failed_order_cooldown := failed_order_cooldown e;
     total_profit := total_profit e |}.

Definition set_active_orders (d : Dict.t (option Order)) (e : Engine) : Engine :=
  {| settings := settings e; has_notifier := has_notifier e;
     data_manager := data_manager e; grid_state := grid_state e;
     is_running := is_running e; active_orders := d;
     grid_levels := grid_levels e;
     last_trade_time := last_trade_time e; last_trade_price := last_trade_price e;
     trade_count := trade_count e; failed_order_cooldown := failed_order_cooldown e;
     total_profit := total_profit e |}.

Definition set_grid_state (g : GridState) (e : Engine) : Engine :=
  {| settings := settings e; has_notifier := has_notifier e;
     data_manager := data_manager e; grid_state := g;
     is_running := is_running e; active_orders := active_orders e;
     grid_levels := grid_levels e;
     last_trade_time := last_trade_time e; last_trade_price := last_trade_price e;
     trade_count := trade_count e; failed_order_cooldown := failed_order_cooldown e;
     total_profit := total_profit e |}.

Definition set_is_running (b : bool) (e : Engine) : Engine :=
  {| settings := settings e; has_notifier := has_notifier e;
     data_manager := data_manager e; grid_state := grid_state e;
     is_running := b; active_orders := active_orders e;
     grid_levels := grid_levels e;
     last_trade_time := last_trade_time e; last_trade_price := last_trade_price e;
     trade_count := trade_count e; failed_order_cooldown := failed_order_cooldown e;
     total_profit := total_profit e |}.

Definition set_data_manager (dm : DataManager) (e : Engine) : Engine :=
  {| settings := settings e; has_notifier := has_notifier e;
     data_manager := dm; grid_state := grid_state e;
     is_running := is_running e; active_orders := active_orders e;
     grid_levels := grid_levels e;
     last_trade_time := last_trade_time e; last_trade_price := last_trade_price e;
     trade_count := trade_count e; failed_order_cooldown := failed_order_cooldown e;
     total_profit := total_profit e |}.

Definition set_trade_count (n : Z) (e : Engine) : Engine :=
  {| settings := settings e; has_notifier := has_notifier e;
     data_manager := data_manager e; grid_state := grid_state e;
     is_running := is_running e; active_orders := active_orders e;
     grid_levels := grid_levels e;
     last_trade_time := last_trade_time e; last_trade_price := last_trade_price e;
     trade_count := n; failed_order_cooldown := failed_order_cooldown e;
     total_profit := total_profit e |}.

Definition set_last_trade (t p : Q) (e : Engine) : Engine :=
  {| settings := settings e; has_notifier := has_notifier e;
     data_manager := data_manager e; grid_state := grid_state e;
     is_running := is_running e; active_orders := active_orders e;
     grid_levels := grid_levels e;
     last_trade_time := t; last_trade_price := p;
     trade_count := trade_count e; failed_order_cooldown := failed_order_cooldown e;
     total_profit := total_profit e |}.

Definition set_total_profit (p : Q) (e : Engine) : Engine :=
  {| settings := settings e; has_notifier := has_notifier e;
     data_manager := data_manager e; grid_state := grid_state e;
     is_running := is_running e; active_orders := active_orders e;
     grid_levels := grid_levels e;
     last_trade_time := last_trade_time e; last_trade_price := last_trade_price e;
     trade_count := trade_count e; failed_order_cooldown := failed_order_cooldown e;
     total_profit := p |}.

Definition with_occupied (b : bool) (l : GridLevel) : GridLevel :=
  {| side := side l; level := level l; occupied := b;
     last_attempt := last_attempt l |}.

Definition with_last_attempt (t : Q) (l : GridLevel) : GridLevel :=
  {| side := side l; level := level l; occupied := occupied l;
     last_attempt := t |}.

Definition with_bands (up lo : Q) (g : GridState) : GridState :=
  {| base_price := base_price g; current_price := current_price g;
     grid_size := grid_size g; upper_band := up; lower_band := lo;
     last_adjustment_time := last_adjustment_time g; volatility := volatility g;
     price_history := price_history g |}.

Definition with_base_price (b : Q) (g : GridState) : GridState :=
  {| base_price := b; current_price := current_price g;
     grid_size := grid_size g; upper_band := upper_band g;
     lower_band := lower_band g;
     last_adjustment_time := last_adjustment_time g; volatility := volatility g;
     price_history := price_history g |}.

Definition with_grid_size (size adjusted : Q) (g : GridState) : GridState :=
  {| base_price := base_price g; current_price := current_price g;
     grid_size := size; upper_band := upper_band g;
     lower_band := lower_band g;
     last_adjustment_time := adjusted; volatility := volatility g;
     price_history := price_history g |}.

Definition with_market (price vol : Q) (history : list Q) (g : GridState)
  : GridState :=
  {| base_price := base_price g; current_price := price;
     grid_size := grid_size g; upper_band := upper_band g;
     lower_band := lower_band g;
     last_adjustment_time := last_adjustment_time g; volatility := vol;
     price_history := history |}.

(** *** The level table *)

(** [_calculate_grid_bands] (the debug log aside) *)
Definition _calculate_grid_bands (e : Engine) : Engine :=
  let g := grid_state e in
  let grid_decimal := grid_size g / 100 in
  set_grid_state
    (with_bands (base_price g * (1 + grid_decimal))
                (base_price g * (1 - grid_decimal)) g) e.

(** [round(base_price * (1 + (i * grid_decimal)), 4)] *)
Definition level_price (base grid_decimal : Q) (i : Z) : Q :=
  round4 (base * (1 + (inject_Z i * grid_decimal))).

Definition new_level (i : Z) : GridLevel :=
  {| side := if (i <? 0)%Z then Buy else Sell;
     level := i;
     occupied := false;
     last_attempt := 0 |}.

(** The body of the loop of [_initialize_grid_levels]. *)
Definition add_level (base grid_decimal : Q) (d : Dict.t GridLevel) (i : Z)
  : Dict.t GridLevel :=
  if (i =? 0)%Z then d
  else Dict.set d (level_price base grid_decimal i) (new_level i).

(** The loop [for i in range(-5, 6)] on a table [d]. *)
Definition build_levels (base grid_size : Q) (d : Dict.t GridLevel)
  : Dict.t GridLevel :=
  fold_left (add_level base (grid_size / 100)) (range (-5) 6) d.

(** [_initialize_grid_levels] and [_update_existing_grid_levels] call
    each other; [fuel] bounds the depth of the calls. *)
Fixpoint _initialize_grid_levels_rec (fuel : nat) (e : Engine) : option Engine :=
  match fuel with
  | O => None
  | S fuel' =>
      let base := base_price (grid_state e) in
      let grid_decimal := grid_size (grid_state e) / 100 in
      match grid_levels e with
      | [] =>
          Some (set_grid_levels
                  (build_levels base (grid_size (grid_state e)) (grid_levels e)) e)
      | (first_level, _) :: _ =>
          (* _update_existing_grid_levels *)
          let expected_price := level_price base grid_decimal (-5) in
          if Qltb 1 (pyabs (first_level - expected_price)) then
            _initialize_grid_levels_rec fuel' (set_grid_levels [] e)
          else Some e
      end
  end.

(** Two calls deep is all the recursion ever goes: after [clear()] the
    table is empty and the first branch is taken. *)
Definition _initialize_grid_levels (e : Engine) : Engine :=
  match _initialize_grid_levels_rec 2 e with
  | Some e' => e'
  | None => e
  end.

(** [_release_grid_level] *)
Definition _release_grid_level (price_level : Q) (e : Engine) : Engine :=
  let e1 :=
    match Dict.get (grid_levels e) price_level with
    | Some l => set_grid_levels
                  (Dict.set (grid_levels e) price_level (with_occupied false l)) e
    | None => e
    end in
  if Dict.mem (active_orders e1) price_level
  then set_active_orders (Dict.del (active_orders e1) price_level) e1
  else e1.

(** *** Orders *)

Section Methods.
Context {X : Type} `{BaseExchange X} `{BaseNotifier X} `{Clock X}.

(** [calculate_volatility(prices, window)] of [helpers.py] is a standard
    deviation scaled by a square root: it leaves the rationals, and the
    methods that call it take it as it comes. *)
Variable calculate_volatility : list Q -> nat -> Q.

(** [if self.notifier: await self.notifier.notify_...(...)] *)
Definition notify_if_configured (n : Notification) : Py.M Engine X unit :=
  has <- gets has_notifier ;;
  if has then call_unit (CNotify n) (notify n) else ret tt.

(** [self.grid_levels[price_level][field] = value] *)
Definition update_level (price_level : Q) (f : GridLevel -> GridLevel) : Py.M Engine X unit :=
  d <- gets grid_levels ;;
  l <- lookup (Dict.get d price_level) ;;
  modify (set_grid_levels (Dict.set d price_level (f l))).

(** [_calculate_order_amount] *)
Definition _calculate_order_amount (s : Side) (price : option Q) : Py.M Engine X Q :=
  try_except
    (balance <- call CGetBalance get_balance ;;
     current <- gets (fun e => current_price (grid_state e)) ;;
     let order_price := match price with Some p => p | None => current end in
     min_trade <- gets (fun e => min_trade_amount (trading (settings e))) ;;
     amount <-
       match s with
       | Buy =>
           let available := asset_get (bal_free balance) "USDT" in
           let max_amount := available * (1 # 10) in
           let amount_usdt := pymin max_amount min_trade in
           pydiv amount_usdt order_price
       | Sell =>
           sym <- gets (fun e => symbol (trading (settings e))) ;;
           info_base <- ask symbol_info_base ;;
           let base_asset := get_or info_base (split_base sym) in
           let available := asset_get (bal_free balance) base_asset in
           ret (available * (1 # 10))
       end ;;
     adjust <- ask adjust_amount_precision ;;
     let amount := adjust amount in
     if Qltb (amount * order_price) min_trade then ret 0 else ret amount)
    (log_error "Failed to calculate order amount" ;; ret 0).

(** [_execute_grid_order] *)
Definition _execute_grid_order (price_level : Q) (s : Side) : Py.M Engine X unit :=
  try_except
    (amount <- _calculate_order_amount s (Some price_level) ;;
     if Qle_bool amount 0 then ret tt
     else
       order <- call (CCreateLimitOrder s amount price_level)
                     (create_limit_order s amount price_level) ;;
       update_level price_level (with_occupied true) ;;
       modify (fun e => set_active_orders
                          (Dict.set (active_orders e) price_level order) e) ;;
       notify_if_configured
         (NTradeExecution s price_level amount (amount * price_level) None))
    (log_error "Failed to execute grid order" ;;
     now <- ask time_time ;;
     update_level price_level (with_last_attempt now)).

(** [_handle_order_filled] *)
Definition _handle_order_filled (price_level : Q) (order : OrderStatus) : Py.M Engine X unit :=
  try_except
    (let price := st_price order in
     let amount := st_filled order in
     let total := price * amount in
     d <- gets grid_levels ;;
     l <- lookup (Dict.get d price_level) ;;
     modify (fun e => set_trade_count (trade_count e + 1) e) ;;
     now <- ask time_time ;;
     modify (set_last_trade now price) ;;
     profit <-
       match side l with
       | Sell =>
           base <- gets (fun e => base_price (grid_state e)) ;;
           let profit := (price - base) * amount in
           modify (fun e => set_total_profit (total_profit e + profit) e) ;;
           ret profit
       | Buy => ret 0
       end ;;
     ts <- ask time_time ;;
     modify (fun e => set_data_manager
               (save_trade {| tr_timestamp := ts; tr_side := side l;
                              tr_price := price; tr_amount := amount;
                              tr_total := total; tr_profit := profit;
                              tr_order_id := st_id order;
                              tr_grid_level := level l |}
                           (data_manager e)) e) ;;
     notify_if_configured
       (NTradeExecution (side l) price amount total (Some profit)) ;;
     modify (_release_grid_level price_level))
    (log_error "Failed to handle filled order").

(** The body of the loop of [_check_order_status]. *)
Definition check_one_order (entry : Q * option Order) : Py.M Engine X unit :=
  let (price_level, order) := entry in
  match order with
  | None => ret tt
  | Some o =>
      status <- call (CGetOrderStatus (order_id o))
                     (get_order_status (order_id o)) ;;
      if String.eqb (st_status status) "closed"
      then _handle_order_filled price_level status
      else if String.eqb (st_status status) "canceled"
      then modify (_release_grid_level price_level)
      else ret tt
  end.

(** [_check_order_status]; the loop runs over a copy of the dict. *)
Definition _check_order_status : Py.M Engine X unit :=
  try_except
    (orders <- gets active_orders ;;
     for_each orders check_one_order)
    (log_error "Failed to check order status").

(** The body of the loop of [_check_grid_signals]: [level_info] is the
    entry the table holds for [price_level] when the loop gets there. *)
Definition check_one_level (current_price current_time : Q) (price_level : Q)
  : Py.M Engine X unit :=
  d <- gets grid_levels ;;
  level_info <- lookup (Dict.get d price_level) ;;
  cooldown <- gets failed_order_cooldown ;;
  if occupied level_info then ret tt
  else if Qltb (current_time - last_attempt level_info) cooldown then ret tt
  else
    match side level_info with
    | Buy =>
        if Qltb price_level (current_price * (999 # 1000))
        then _execute_grid_order price_level Buy
        else ret tt
    | Sell =>
        if Qgtb price_level (current_price * (1001 # 1000))
        then _execute_grid_order price_level Sell
        else ret tt
    end.

(** [_check_grid_signals] *)
Definition _check_grid_signals : Py.M Engine X unit :=
  try_except
    (current_price <- gets (fun e => current_price (grid_state e)) ;;
     current_time <- ask time_time ;;
     d <- gets grid_levels ;;
     for_each (Dict.keys d) (check_one_level current_price current_time) ;;
     _check_order_status)
    (log_error "Failed to check grid signals").

(** The body of the loop of [_cancel_all_orders]. *)
Definition cancel_one_order (entry : Q * option Order) : Py.M Engine X unit :=
  let (price_level, order) := entry in
  match order with
  | Some o =>
      call_unit (CCancelOrder (order_id o)) (cancel_order (order_id o)) ;;
      modify (_release_grid_level price_level)
  | None => ret tt
  end.

(** [_cancel_all_orders]: one [try] around the whole loop. *)
Definition _cancel_all_orders : Py.M Engine X unit :=
  try_except
    (orders <- gets active_orders ;;
     for_each orders cancel_one_order)
    (log_error "Failed to cancel orders").

(** [_update_market_data] *)
Definition _update_market_data : Py.M Engine X unit :=
  try_except
    (current_price <- call CGetTicker get_ticker ;;
     modify (fun e =>
       let g := grid_state e in
       let history := price_history g ++ [current_price] in
       let max_history := (24 * 12)%nat in
       let history :=
         if (max_history <? List.length history)%nat
         then last_n max_history history else history in
       let vol :=
         if (2 <=? List.length history)%nat
         then calculate_volatility history (Nat.min (List.length history) 24)
         else volatility g in
       set_grid_state (with_market current_price vol history g) e))
    (log_error "Failed to update market data" ;; raise).

(** [_get_grid_size_for_volatility] *)
Fixpoint grid_size_for (thresholds : list Threshold) (vol default : Q) : Q :=
  match thresholds with
  | [] => default
  | t :: rest =>
      if Qle_bool (range_lo t) vol && Qltb vol (range_hi t)
      then threshold_grid_size t
      else grid_size_for rest vol default
  end.

Definition _get_grid_size_for_volatility (e : Engine) (vol : Q) : Q :=
  grid_size_for (volatility_thresholds (grid (settings e))) vol
                (max_size (grid (settings e))).

(** [_get_adjustment_interval] *)
Definition _get_adjustment_interval (e : Engine) : Q :=
  let base_interval := 3600 in
  let vol := volatility (grid_state e) in
  if Qgtb vol (8 # 10) then base_interval * (25 # 100)
  else if Qgtb vol (4 # 10) then base_interval * (5 # 10)
  else if Qgtb vol (2 # 10) then base_interval * (75 # 100)
  else base_interval.

(** [_adjust_grid_size] *)
Definition _adjust_grid_size : Py.M Engine X unit :=
  try_except
    (current_time <- ask time_time ;;
     e <- gets (fun e => e) ;;
     let g := grid_state e in
     if Qltb (current_time - last_adjustment_time g) (_get_adjustment_interval e)
     then ret tt
     else
       let new_grid_size := _get_grid_size_for_volatility e (volatility g) in
       if Qgtb (pyabs (new_grid_size - grid_size g)) (1 # 10) then
         modify (set_grid_state (with_grid_size new_grid_size current_time g)) ;;
         notify_if_configured (NStrategySignal "GRID" "ADJUSTMENT" (current_price g))
       else ret tt)
    (log_error "Failed to adjust grid size").

(** [_update_grid_state] *)
Definition _update_grid_state : Py.M Engine X unit :=
  try_except
    (modify (fun e =>
       let g := grid_state e in
       if Qeq_bool (base_price g) 0
       then set_grid_state (with_base_price (current_price g) g) e else e) ;;
     dynamic <- gets (fun e => dynamic_adjustment (grid (settings e))) ;;
     (if dynamic then _adjust_grid_size else ret tt) ;;
     modify _calculate_grid_bands ;;
     modify _initialize_grid_levels)
    (log_error "Failed to update grid state" ;; raise).

(** [_initialize_grid] *)
Definition _initialize_grid : Py.M Engine X unit :=
  try_except
    (modify (fun e =>
       let g := grid_state e in
       set_grid_state
         (with_grid_size (initial_size (grid (settings e)))
                         (last_adjustment_time g) g) e) ;;
     configured <- gets (fun e => initial_base_price (settings e)) ;;
     if Qgtb configured 0 then
       modify (fun e => set_grid_state (with_base_price configured (grid_state e)) e)
     else
       last <- call CGetTicker get_ticker ;;
       modify (fun e => set_grid_state (with_base_price last (grid_state e)) e))
    (log_error "Failed to initialize grid" ;; raise).

(** [_save_state] *)
Definition _save_state : Py.M Engine X unit :=
  try_except
    (now <- ask time_time ;;
     modify (fun e =>
       let g := grid_state e in
       set_data_manager
         (save_state {| sd_base_price := Some (base_price g);
                        sd_current_price := Some (current_price g);
                        sd_grid_size := Some (grid_size g);
                        sd_last_adjustment_time := Some (last_adjustment_time g);
                        sd_volatility := Some (volatility g);
                        sd_total_profit := Some (total_profit e);
                        sd_trade_count := Some (trade_count e);
                        sd_last_save_time := Some now |}
                     (data_manager e)) e))
    (log_error "Failed to save state").

(** [_load_state] *)
Definition _load_state : Py.M Engine X unit :=
  try_except
    (state <- gets (fun e => load_state (data_manager e)) ;;
     if state_truthy state then
       match state with
       | None => ret tt
       | Some d =>
           let saved_base_price := get_or (sd_base_price d) 0 in
           modify (fun e =>
             let configured := initial_base_price (settings e) in
             let g := grid_state e in
             let base :=
               if Qgtb configured 0 then
                 if Qgtb (pyabs (configured - saved_base_price)) 1
                 then configured else saved_base_price
               else saved_base_price in
             let g' :=
               {| base_price := base;
                  current_price := current_price g;
                  grid_size := get_or (sd_grid_size d)
                                 (initial_size (grid (settings e)));
                  upper_band := upper_band g;
                  lower_band := lower_band g;
                  last_adjustment_time := get_or (sd_last_adjustment_time d) 0;
                  volatility := volatility g;
                  price_history := price_history g |} in
             set_trade_count (get_or (sd_trade_count d) 0%Z)
               (set_total_profit (get_or (sd_total_profit d) 0)
                  (set_grid_state g' e)))
       end
     else ret tt)
    (log_error "Failed to load state").

(** [stop]: the flag, the cancellation of the orders, the last save
    and the status notification.  The [close()] calls of the strategy,
    position and data managers in between touch none of the fields
    kept here. *)
Definition stop : Py.M Engine X unit :=
  modify (set_is_running false) ;;
  _cancel_all_orders ;;
  _save_state ;;
  notify_if_configured (NSystemStatus "STOPPED").

End Methods.

End GridEngine.

(** ** Helpers ([src/utils/helpers.py]) *)

(** [safe_divide(numerator, denominator, default=0.0)] *)
Definition safe_divide (numerator denominator : Q) : Q :=
  if Qeq_bool denominator 0 then 0 else numerator / denominator.

(** ** The risk manager ([src/risk/risk_manager.py]) *)

Module RiskManager.

Inductive Severity := Low | Medium | High | Critical.

(** [RiskAlert]; the formatted [message] is left out. *)
Record RiskAlert := {
  alert_type : string;
  severity : Severity;
  current_value : Q;
  threshold : Q;
  timestamp : Q;
  action_required : bool
}.

Record Manager := {
  settings : Settings;
  has_notifier : bool;
  active_alerts : list RiskAlert;
  risk_history : list RiskAlert;
  emergency_stop_triggered : bool;
  peak_portfolio_value : Q;
  current_drawdown : Q;
  daily_start_value : Q;
  daily_pnl : Q;
  last_daily_reset : Q;
  last_risk_check : Q;
  risk_check_interval' : Q;         (* [self.risk_check_interval] *)
  current_position_ratio : Q
}.

(** [RiskManager.__init__] *)
Definition init (s : Settings) (notifier : bool) : Manager :=
  {| settings := s; has_notifier := notifier;
     active_alerts := []; risk_history := [];
     emergency_stop_triggered := false;
     peak_portfolio_value := 0; current_drawdown := 0;
     daily_start_value := 0; daily_pnl := 0; last_daily_reset := 0;
     last_risk_check := 0;
     risk_check_interval' := risk_check_interval (risk s);
     current_position_ratio := 0 |}.

(** Field assignments. *)
Definition set_alerts (active history : list RiskAlert) (m : Manager) : Manager :=
  {| settings := settings m; has_notifier := has_notifier m;
     active_alerts := active; risk_history := history;
     emergency_stop_triggered := emergency_stop_triggered m;
     peak_portfolio_value := peak_portfolio_value m;
     current_drawdown := current_drawdown m;
     daily_start_value := daily_start_value m; daily_pnl := daily_pnl m;
     last_daily_reset := last_daily_reset m;
     last_risk_check := last_risk_check m;
     risk_check_interval' := risk_check_interval' m;
     current_position_ratio := current_position_ratio m |}.

Definition set_emergency_stop_triggered (b : bool) (m : Manager) : Manager :=
  {| settings := settings m; has_notifier := has_notifier m;
     active_alerts := active_alerts m; risk_history := risk_history m;
     emergency_stop_triggered := b;
     peak_portfolio_value := peak_portfolio_value m;
     current_drawdown := current_drawdown m;
     daily_start_value := daily_start_value m; daily_pnl := daily_pnl m;
     last_daily_reset := last_daily_reset m;
     last_risk_check := last_risk_check m;
     risk_check_interval' := risk_check_interval' m;
     current_position_ratio := current_position_ratio m |}.

Definition set_peak_portfolio_value (v : Q) (m : Manager) : Manager :=
  {| settings := settings m; has_notifier := has_notifier m;
     active_alerts := active_alerts m; risk_history := risk_history m;
     emergency_stop_triggered := emergency_stop_triggered m;
     peak_portfolio_value := v;
     current_drawdown := current_drawdown m;
     daily_start_value := daily_start_value m; daily_pnl := daily_pnl m;
     last_daily_reset := last_daily_reset m;
     last_risk_check := last_risk_check m;
     risk_check_interval' := risk_check_interval' m;
     current_position_ratio := current_position_ratio m |}.

Definition set_current_drawdown (v : Q) (m : Manager) : Manager :=
  {| settings := settings m; has_notifier := has_notifier m;
     active_alerts := active_alerts m; risk_history := risk_history m;
     emergency_stop_triggered := emergency_stop_triggered m;
     peak_portfolio_value := peak_portfolio_value m;
     current_drawdown := v;
     daily_start_value := daily_start_value m; daily_pnl := daily_pnl m;
     last_daily_reset := last_daily_reset m;
     last_risk_check := last_risk_check m;
     risk_check_interval' := risk_check_interval' m;
     current_position_ratio := current_position_ratio m |}.

Definition set_daily (start pnl reset : Q) (m : Manager) : Manager :=
  {| settings := settings m; has_notifier := has_notifier m;
     active_alerts := active_alerts m; risk_history := risk_history m;
     emergency_stop_triggered := emergency_stop_triggered m;
     peak_portfolio_value := peak_portfolio_value m;
     current_drawdown := current_drawdown m;
     daily_start_value := start; daily_pnl := pnl;
     last_daily_reset := reset;
     last_risk_check := last_risk_check m;
     risk_check_interval' := risk_check_interval' m;
     current_position_ratio := current_position_ratio m |}.

Definition set_last_risk_check (t : Q) (m : Manager) : Manager :=
  {| settings := settings m; has_notifier := has_notifier m;
     active_alerts := active_alerts m; risk_history := risk_history m;
     emergency_stop_triggered := emergency_stop_triggered m;
     peak_portfolio_value := peak_portfolio_value m;
     current_drawdown := current_drawdown m;
     daily_start_value := daily_start_value m; daily_pnl := daily_pnl m;
     last_daily_reset := last_daily_reset m;
     last_risk_check := t;
     risk_check_interval' := risk_check_interval' m;
     current_position_ratio := current_position_ratio m |}.

Definition set_current_position_ratio (r : Q) (m : Manager) : Manager :=
  {| settings := settings m; has_notifier := has_notifier m;
     active_alerts := active_alerts m; risk_history := risk_history m;
     emergency_stop_triggered := emergency_stop_triggered m;
     peak_portfolio_value := peak_portfolio_value m;
     current_drawdown := current_drawdown m;
     daily_start_value := daily_start_value m; daily_pnl := daily_pnl m;
     last_daily_reset := last_daily_reset m;
     last_risk_check := last_risk_check m;
     risk_check_interval' := risk_check_interval' m;
     current_position_ratio := r |}.


(** [reset_emergency_stop] *)
Definition reset_emergency_stop (m : Manager) : Manager :=
  set_emergency_stop_triggered false m.

(** The logger has [debug], [info], [warning], [error], [critical] and
    [exception]; [getattr(self.logger, severity)] finds a method for a
    critical alert only (it is looked up as [error]). *)
Definition logger_has_method (s : Severity) : bool :=
  match s with Critical => true | _ => false end.

Section Methods.
Context {X : Type} `{BaseExchange X} `{BaseNotifier X} `{Clock X}.

(** [initialize] *)
Definition initialize : Py.M Manager X bool :=
  try_except
    (account_value <- call CGetAccountValue get_account_value ;;
     modify (set_peak_portfolio_value account_value) ;;
     now <- ask time_time ;;
     modify (fun m => set_daily account_value (daily_pnl m) now m) ;;
     ret true)
    (log_error "Failed to initialize risk manager" ;; ret false).

(** [_update_portfolio_metrics]; the exception is logged and raised
    again. *)
Definition _update_portfolio_metrics : Py.M Manager X unit :=
  try_except
    (current_value <- call CGetAccountValue get_account_value ;;
     modify (fun m =>
       if Qgtb current_value (peak_portfolio_value m)
       then set_peak_portfolio_value current_value m else m) ;;
     modify (fun m =>
       if Qgtb (peak_portfolio_value m) 0
       then set_current_drawdown
              ((current_value - peak_portfolio_value m) / peak_portfolio_value m) m
       else m) ;;
     modify (fun m =>
       if Qgtb (daily_start_value m) 0
       then set_daily (daily_start_value m)
              ((current_value - daily_start_value m) / daily_start_value m)
              (last_daily_reset m) m
       else m) ;;
     now <- ask time_time ;;
     reset <- gets last_daily_reset ;;
     if Qgtb (now - reset) 86400 then
       now' <- ask time_time ;;
       modify (set_daily current_value 0 now')
     else ret tt)
    (log_error "Failed to update portfolio metrics" ;; raise).

(** The two threshold tests at the end of [_check_position_limits]. *)
Definition position_alerts (ratio : Q) (r : RiskSettings) (now : Q)
  : list RiskAlert :=
  (if Qgtb ratio (max_position_ratio r)
   then [{| alert_type := "POSITION_LIMIT_EXCEEDED"; severity := High;
            current_value := ratio; threshold := max_position_ratio r;
            timestamp := now; action_required := true |}]
   else []) ++
  (if Qltb ratio (min_position_ratio r)
   then [{| alert_type := "POSITION_BELOW_MINIMUM"; severity := Medium;
            current_value := ratio; threshold := min_position_ratio r;
            timestamp := now; action_required := false |}]
   else []).

(** The balance and position reads of [_check_position_limits]:
    [(position_value, total_balance)]. *)
Definition read_position : Py.M Manager X (Q * Q) :=
  balance <- call CGetBalance get_balance ;;
  sym <- gets (fun m => symbol (trading (settings m))) ;;
  futures <- ask is_futures_mode ;;
  if futures then
    position <- call CGetPosition get_position ;;
    let position_value := pyabs (notional position) in
    let total_balance := asset_get (bal_total balance) "USDT" in
    ret (position_value, total_balance)
  else
    let base_asset := split_base sym in
    let base_balance := asset_get (bal_total balance) base_asset in
    let usdt_balance := asset_get (bal_total balance) "USDT" in
    current_price <- call CGetTicker get_ticker ;;
    let position_value := base_balance * current_price in
    let total_balance := position_value + usdt_balance in
    ret (position_value, total_balance).

(** [_check_position_limits] *)
Definition _check_position_limits : Py.M Manager X (list RiskAlert) :=
  try_except
    (pt <- read_position ;;
     let ratio := safe_divide (fst pt) (snd pt) in
     modify (set_current_position_ratio ratio) ;;
     r <- gets (fun m => risk (settings m)) ;;
     now <- ask time_time ;;
     ret (position_alerts ratio r now))
    (log_error "Failed to check position limits" ;; ret []).

(** The test of [_check_drawdown_limits] and of [_check_daily_limits]:
    an alert when [value < limit], critical when [value < limit * 1.5]. *)
Definition limit_alerts (name : string) (value limit now : Q) : list RiskAlert :=
  if Qltb value limit then
    [{| alert_type := name;
        severity := if Qltb value (limit * (3 # 2)) then Critical else High;
        current_value := value; threshold := limit;
        timestamp := now; action_required := true |}]
  else [].

(** [_check_drawdown_limits] *)
Definition _check_drawdown_limits : Py.M Manager X (list RiskAlert) :=
  try_except
    (value <- gets current_drawdown ;;
     limit <- gets (fun m => max_drawdown (risk (settings m))) ;;
     now <- ask time_time ;;
     ret (limit_alerts "MAX_DRAWDOWN_EXCEEDED" value limit now))
    (log_error "Failed to check drawdown limits" ;; ret []).

(** [_check_daily_limits] *)
Definition _check_daily_limits : Py.M Manager X (list RiskAlert) :=
  try_except
    (value <- gets daily_pnl ;;
     limit <- gets (fun m => daily_loss_limit (risk (settings m))) ;;
     now <- ask time_time ;;
     ret (limit_alerts "DAILY_LOSS_LIMIT_EXCEEDED" value limit now))
    (log_error "Failed to check daily limits" ;; ret []).

(** [_trigger_emergency_stop] *)
Definition _trigger_emergency_stop (reason : string) : Py.M Manager X unit :=
  try_except
    (modify (set_emergency_stop_triggered true) ;;
     call_unit CCancelAllOrders cancel_all_orders ;;
     has <- gets has_notifier ;;
     if has
     then call_unit (CNotify (NError "EMERGENCY_STOP" reason))
                    (notify (NError "EMERGENCY_STOP" reason))
     else ret tt)
    (log_error "Failed to trigger emergency stop").

(** [emergency_conditions], evaluated before the loop. *)
Definition emergency_conditions (m : Manager) : list (bool * string) :=
  [ (Qltb (current_drawdown m) (max_drawdown (risk (settings m)) * 2),
     "EXTREME_DRAWDOWN"%string);
    (Qltb (daily_pnl m) (daily_loss_limit (risk (settings m)) * 2),
     "EXTREME_DAILY_LOSS"%string);
    (Qgtb (current_position_ratio m) (95 # 100),
     "EXTREME_POSITION_RATIO"%string) ].

(** The loop of [_check_emergency_conditions]. *)
Fixpoint emergency_loop (conds : list (bool * string)) (alerts : list RiskAlert)
  : Py.M Manager X (list RiskAlert) :=
  match conds with
  | [] => ret alerts
  | (condition, name) :: rest =>
      if condition then
        now <- ask time_time ;;
        let alert := {| alert_type := name; severity := Critical;
                        current_value := 0; threshold := 0;
                        timestamp := now; action_required := true |} in
        stopped <- gets emergency_stop_triggered ;;
        (if stopped then ret tt else _trigger_emergency_stop name) ;;
        emergency_loop rest (alerts ++ [alert])
      else emergency_loop rest alerts
  end.

(** [_check_emergency_conditions] *)
Definition _check_emergency_conditions : Py.M Manager X (list RiskAlert) :=
  try_except
    (conds <- gets emergency_conditions ;;
     emergency_loop conds [])
    (log_error "Failed to check emergency conditions" ;; ret []).

(** The body of the loop of [_process_alerts]. *)
Definition process_one_alert (alert : RiskAlert) : Py.M Manager X unit :=
  modify (fun m => set_alerts (active_alerts m ++ [alert])
                              (risk_history m ++ [alert]) m) ;;
  (if logger_has_method (severity alert) then ret tt else raise) ;;
  has <- gets has_notifier ;;
  if has then
    let n := NRiskAlert (alert_type alert) (current_value alert) (threshold alert)
               (if action_required alert then "EMERGENCY_STOP" else "MONITOR") in
    call_unit (CNotify n) (notify n)
  else ret tt.

(** [_process_alerts] *)
Definition _process_alerts (alerts : list RiskAlert) : Py.M Manager X unit :=
  for_each alerts process_one_alert ;;
  modify (fun m =>
    if (100 <? List.length (risk_history m))%nat
    then set_alerts (active_alerts m) (last_n 100 (risk_history m)) m
    else m).

(** The statements inside the [try] of [check_all_risks], each taking
    the local list [alerts] to its next value. *)
Definition risk_steps (current_time : Q)
  : list (list RiskAlert -> Py.M Manager X (list RiskAlert)) :=
  [ (fun alerts => _update_portfolio_metrics ;; ret alerts);
    (fun alerts => a <- _check_position_limits ;; ret (alerts ++ a));
    (fun alerts => a <- _check_drawdown_limits ;; ret (alerts ++ a));
    (fun alerts => a <- _check_daily_limits ;; ret (alerts ++ a));
    (fun alerts => a <- _check_emergency_conditions ;; ret (alerts ++ a));
    (fun alerts => _process_alerts alerts ;; ret alerts);
    (fun alerts => modify (set_last_risk_check current_time) ;; ret alerts) ].

(** Runs the statements in order; at the first exception the handler
    gets the list as it was when the statement started. *)
Fixpoint run_steps (steps : list (list RiskAlert -> Py.M Manager X (list RiskAlert)))
  (handler : list RiskAlert -> Py.M Manager X (list RiskAlert))
  (alerts : list RiskAlert) : Py.M Manager X (list RiskAlert) :=
  match steps with
  | [] => ret alerts
  | step :: rest =>
      fun s => match step alerts s with
               | (Ok alerts', s') => run_steps rest handler alerts' s'
               | (Raised, s') => handler alerts s'
               end
  end.

(** [check_all_risks] *)
Definition check_all_risks : Py.M Manager X (list RiskAlert) :=
  current_time <- ask time_time ;;
  last <- gets last_risk_check ;;
  interval <- gets risk_check_interval' ;;
  if Qltb (current_time - last) interval then ret []
  else
    run_steps (risk_steps current_time)
      (fun alerts =>
         log_error "Risk check failed" ;;
         ret (alerts ++ [{| alert_type := "SYSTEM_ERROR"; severity := High;
                            current_value := 0; threshold := 0;
                            timestamp := current_time;
                            action_required := true |}]))
      [].

End Methods.

End RiskManager.

(** ** The two components side by side

    [main.py] builds the exchange, the notifier and the grid engine; a
    [RiskManager] over the same exchange is what the risk module offers
    next to them.  [App] is that pair, the world being shared. *)

Module App.

Record App := {
  grid_engine : GridEngine.Engine;
  risk_manager : RiskManager.Manager
}.

Section Methods.
Context {X : Type}.

(** A method of the engine, run inside the pair. *)
Definition on_engine {A} (m : Py.M GridEngine.Engine X A) : Py.M App X A :=
  fun s =>
    let (r, s') := m (mkSt (grid_engine (comp s)) (ext s) (trace s)) in
    (r, mkSt {| grid_engine := comp s';
                risk_manager := risk_manager (comp s) |}
             (ext s') (trace s')).

(** A method of the risk manager, run inside the pair. *)
Definition on_risk {A} (m : Py.M RiskManager.Manager X A) : Py.M App X A :=
  fun s =>
    let (r, s') := m (mkSt (risk_manager (comp s)) (ext s) (trace s)) in
    (r, mkSt {| grid_engine := grid_engine (comp s);
                risk_manager := comp s' |}
             (ext s') (trace s')).

End Methods.

End App.

(** ** What is read off a trace *)


Definition is_cancel_all_orders (c : Call) : bool :=
  match c with CCancelAllOrders => true | _ => false end.

Definition is_emergency_notification (c : Call) : bool :=
  match c with
  | CNotify (NError t _) => String.eqb t "EMERGENCY_STOP"
  | _ => false
  end.

Definition is_cancel_order (id : string) (c : Call) : bool :=
  match c with CCancelOrder id' => String.eqb id' id | _ => false end.

Definition count (p : Call -> bool) (l : list Call) : nat :=
  List.length (filter p l).

(** The levels that are occupied. *)
Definition occupied_levels (d : Dict.t GridLevel) : list Q :=
  Dict.keys (filter (fun kv => occupied (snd kv)) d).


(** [self.grid_levels[price]['occupied']], if the level exists. *)
Definition occupied_at (e : GridEngine.Engine) (price : Q) : option bool :=
  option_map occupied (Dict.get (GridEngine.grid_levels e) price).

(** ** A scripted world, for running the methods on concrete inputs *)

Module Mock.

Record World := {
  now : Q;
  ticker : option Q;
  balance : option Balance;
  position : option Position;
  account_values : list (option Q);   (* the answers of [get_account_value], in order *)
  futures : bool;
  failing_cancels : list string;      (* the orders whose [cancel_order] raises *)
  cancel_all_ok : bool;
  notify_ok : bool;
  create_ok : bool;
  statuses : list OrderStatus;        (* what [get_order_status] finds, by id *)
  next_order : nat
}.

Definition with_account_values (l : list (option Q)) (w : World) : World :=
  {| now := now w; ticker := ticker w; balance := balance w;
     position := position w; account_values := l; futures := futures w;
     failing_cancels := failing_cancels w; cancel_all_ok := cancel_all_ok w;
     notify_ok := notify_ok w; create_ok := create_ok w;
     statuses := statuses w; next_order := next_order w |}.

Definition with_failing_cancels (l : list string) (w : World) : World :=
  {| now := now w; ticker := ticker w; balance := balance w;
     position := position w; account_values := account_values w;
     futures := futures w;
     failing_cancels := l; cancel_all_ok := cancel_all_ok w;
     notify_ok := notify_ok w; create_ok := create_ok w;
     statuses := statuses w; next_order := next_order w |}.

Definition with_cancel_all_ok (b : bool) (w : World) : World :=
  {| now := now w; ticker := ticker w; balance := balance w;
     position := position w; account_values := account_values w;
     futures := futures w;
     failing_cancels := failing_cancels w; cancel_all_ok := b;
     notify_ok := notify_ok w; create_ok := create_ok w;
     statuses := statuses w; next_order := next_order w |}.

Definition with_balance (b : option Balance) (w : World) : World :=
  {| now := now w; ticker := ticker w; balance := b;
     position := position w; account_values := account_values w;
     futures := futures w;
     failing_cancels := failing_cancels w; cancel_all_ok := cancel_all_ok w;
     notify_ok := notify_ok w; create_ok := create_ok w;
     statuses := statuses w; next_order := next_order w |}.

Definition with_statuses (l : list OrderStatus) (w : World) : World :=
  {| now := now w; ticker := ticker w; balance := balance w;
     position := position w; account_values := account_values w;
     futures := futures w;
     failing_cancels := failing_cancels w; cancel_all_ok := cancel_all_ok w;
     notify_ok := notify_ok w; create_ok := create_ok w;
     statuses := l; next_order := next_order w |}.

Definition with_now (t : Q) (w : World) : World :=
  {| now := t; ticker := ticker w; balance := balance w;
     position := position w; account_values := account_values w;
     futures := futures w;
     failing_cancels := failing_cancels w; cancel_all_ok := cancel_all_ok w;
     notify_ok := notify_ok w; create_ok := create_ok w;
     statuses := statuses w; next_order := next_order w |}.

Definition with_next_order (n : nat) (w : World) : World :=
  {| now := now w; ticker := ticker w; balance := balance w;
     position := position w; account_values := account_values w;
     futures := futures w;
     failing_cancels := failing_cancels w; cancel_all_ok := cancel_all_ok w;
     notify_ok := notify_ok w; create_ok := create_ok w;
     statuses := statuses w; next_order := n |}.

Definition order_name (n : nat) : string :=
  String (ascii_of_nat (65 + n)) EmptyString.

Fixpoint find_status (l : list OrderStatus) (id : string) : option OrderStatus :=
  match l with
  | [] => None
  | st :: r => if String.eqb (st_id st) id then Some st else find_status r id
  end.

Definition mem_string (id : string) (l : list string) : bool :=
  existsb (String.eqb id) l.

#[global] Instance exchange : BaseExchange World := {|
  get_ticker := fun w => (ticker w, w);
  get_balance := fun w => (balance w, w);
  get_position := fun w => (position w, w);
  get_account_value := fun w =>
    match account_values w with
    | [] => (None, w)
    | v :: r => (v, with_account_values r w)
    end;
  create_limit_order := fun _ _ _ w =>
    if create_ok w
    then (Some (Some {| order_id := order_name (next_order w) |}),
          with_next_order (S (next_order w)) w)
    else (None, w);
  cancel_order := fun id w => (negb (mem_string id (failing_cancels w)), w);
  cancel_all_orders := fun w => (cancel_all_ok w, w);
  get_order_status := fun id w => (find_status (statuses w) id, w);
  symbol_info_base := fun _ => None;
  adjust_amount_precision := fun _ a => a;
  is_futures_mode := futures
|}.

#[global] Instance notifier : BaseNotifier World := {|
  notify := fun _ w => (notify_ok w, w)
|}.

#[global] Instance clock : Clock World := {|
  time_time := now
|}.

(** A spot account holding 1000 USDT and 10 BNB, BNB at 100. *)
Definition calm : World :=
  {| now := 1000; ticker := Some 100;
     balance := Some {| bal_free := [("USDT"%string, 1000); ("BNB"%string, 10)];
                        bal_total := [("USDT"%string, 1000); ("BNB"%string, 10)] |};
     position := None; account_values := []; futures := false;
     failing_cancels := []; cancel_all_ok := true; notify_ok := true;
     create_ok := true; statuses := []; next_order := 0 |}.

Definition default_settings : Settings :=
  {| trading := {| symbol := "BNB/USDT"; min_trade_amount := 20 |};
     grid := {| initial_size := 2; max_size := 4; dynamic_adjustment := false;
                volatility_thresholds := [] |};
     risk := {| max_drawdown := - (15 # 100); daily_loss_limit := - (5 # 100);
                max_position_ratio := 9 # 10; min_position_ratio := 1 # 10;
                risk_check_interval := 300 |};
     data := {| save_interval := 60 |};
     initial_base_price := 0 |}.

Definition no_data : DataManager := {| dm_state := None; dm_trades := [] |}.

End Mock.

(** ** Runs on the scripted world *)

Module Runs.

(** [calculate_volatility] is not called in the runs below (one price
    sample); any function does. *)
Definition no_volatility : list Q -> nat -> Q := fun _ _ => 0.

(** A fresh engine with base price [b] and grid size [g]. *)
Definition engine_at (b g : Q) : GridEngine.Engine :=
  let e := GridEngine.init Mock.default_settings false Mock.no_data in
  GridEngine.set_grid_state
    (GridEngine.with_grid_size g 0
       (GridEngine.with_base_price b (GridEngine.grid_state e))) e.

(** The engine after [initialize]'s grid set-up and the first pass of
    the main loop up to the grid update: base and current price 100,
    grid size 2 %, levels at 90, 92, ..., 98 and 102, ..., 110. *)
Definition started : St GridEngine.Engine Mock.World :=
  Eval vm_compute in
  snd ((GridEngine._initialize_grid ;;
        GridEngine._update_market_data no_volatility ;;
        GridEngine._update_grid_state)
       (mkSt (GridEngine.init Mock.default_settings true Mock.no_data)
             Mock.calm [])).

(** The same after the first signal evaluation: ten orders, named "A"
    (the buy at 90) to "J" (the sell at 110). *)
Definition trading : St GridEngine.Engine Mock.World :=
  Eval vm_compute in snd (GridEngine._check_grid_signals started).

End Runs.

(** ** More of the helpers ([src/utils/helpers.py]) *)

(** Python's [max(a, b)]: the second only when it is greater. *)
Definition pymax (a b : Q) : Q := if Qltb a b then b else a.

(** [int(x)] on a float: towards zero. *)
Definition pyint (x : Q) : Z := if Qltb x 0 then Qceiling x else Qfloor x.


(** A bound of a slice: a negative one counts from the end, and both
    kinds are cut to the list. *)
Definition slice_index (n i : Z) : Z :=
  if (i <? 0)%Z then Z.max (n + i) 0 else Z.min i n.

(** [l[start:stop]], a bound left out being [None]. *)
Definition pyslice {A} (l : list A) (start stop : option Z) : list A :=
  let n := Z.of_nat (List.length l) in
  let a := match start with Some i => slice_index n i | None => 0%Z end in
  let b := match stop with Some j => slice_index n j | None => n end in
  firstn (Z.to_nat (b - a)) (skipn (Z.to_nat a) l).

(** [range(lo, hi, step)]; a zero step is a [ValueError]. *)
Definition range_step (lo hi step : Z) : result (list Z) :=
  if (step =? 0)%Z then Raised
  else
    let n :=
      if (0 <? step)%Z
      then (if (lo <? hi)%Z then 1 + (hi - 1 - lo) / step else 0)%Z
      else (if (hi <? lo)%Z then 1 + (lo - 1 - hi) / (- step) else 0)%Z in
    Ok (map (fun k => (lo + Z.of_nat k * step)%Z) (seq 0 (Z.to_nat n))).

Module Helpers.



(** What [calculate_grid_levels] returns. *)
Record GridLevels := {
  buy_levels : list Q;
  sell_levels : list Q
}.

(** [calculate_grid_levels(base_price, grid_size, num_levels=10)] *)
Definition calculate_grid_levels (base_price grid_size : Q) (num_levels : Z)
  : GridLevels :=
  let grid_decimal := grid_size / 100 in
  fold_left
    (fun acc i =>
       let buy_price := base_price * (1 - grid_decimal * inject_Z i) in
       let sell_price := base_price * (1 + grid_decimal * inject_Z i) in
       {| buy_levels := buy_levels acc ++ [buy_price];
          sell_levels := sell_levels acc ++ [sell_price] |})
    (range 1 (num_levels + 1))
    {| buy_levels := []; sell_levels := [] |}.

(** [clamp] *)
Definition clamp (value min_value max_value : Q) : Q :=
  pymax min_value (pymin value max_value).




(** [get_next_grid_adjustment_time(last_adjustment, volatility,
    base_interval=3600)] *)
Definition get_next_grid_adjustment_time
  (last_adjustment volatility base_interval : Q) : Q :=
  let interval :=
    if Qgtb volatility (8 # 10) then base_interval * (25 # 100)
    else if Qgtb volatility (4 # 10) then base_interval * (5 # 10)
    else if Qgtb volatility (2 # 10) then base_interval * (75 # 100)
    else base_interval in
  last_adjustment + interval.

(** [symbol.split("/")] *)
Fixpoint split_slash (s : string) : list string :=
  match s with
  | EmptyString => [EmptyString]
  | String c r =>
      if Ascii.eqb c "/"%char then EmptyString :: split_slash r
      else
        match split_slash r with
        | [] => [String c EmptyString]
        | part :: parts => String c part :: parts
        end
  end.

(** ["/" in symbol] *)
Fixpoint has_slash (s : string) : bool :=
  match s with
  | EmptyString => false
  | String c r => Ascii.eqb c "/"%char || has_slash r
  end.

(** [validate_trading_pair] *)
Definition validate_trading_pair (symbol : string) : bool :=
  if (String.length symbol =? 0)%nat || negb (has_slash symbol) then false
  else
    match split_slash symbol with
    | [base; quote] =>
        (0 <? String.length base)%nat && (0 <? String.length quote)%nat
    | _ => false
    end.

(** [chunk_list]: [range(0, len(lst), chunk_size)] raises on a chunk
    size of zero. *)
Definition chunk_list {A} (lst : list A) (chunk_size : Z) : result (list (list A)) :=
  match range_step 0 (Z.of_nat (List.length lst)) chunk_size with
  | Raised => Raised
  | Ok starts =>
      Ok (map (fun i => pyslice lst (Some i) (Some (i + chunk_size)%Z)) starts)
  end.

End Helpers.

(** ** The concrete methods of the exchange base class
    ([src/exchanges/base_exchange.py]) *)

Module Exchange.

(** An entry of [self.symbol_info]: the two precisions the methods
    read, and whether the dict holds any other key. *)
Record SymbolInfo := {
  other_keys : bool;
  precision_amount : option Z;      (* [info['precision']['amount']] *)
  precision_price : option Z        (* [info['precision']['price']] *)
}.

(** Truth value of the dict in [if not symbol_info]: an empty dict is
    false. *)
Definition info_truthy (i : SymbolInfo) : bool :=
  other_keys i
  || match precision_amount i, precision_price i with
     | None, None => false
     | _, _ => true
     end.

(** The fields of the exchange object read below. *)
Record Exchange := {
  symbol_info : list (string * SymbolInfo)
}.

(** [get_symbol_info]: [self.symbol_info.get(symbol, {})]; [None] is
    the empty dict of the default. *)
Fixpoint get_symbol_info_in (d : list (string * SymbolInfo)) (symbol : string)
  : option SymbolInfo :=
  match d with
  | [] => None
  | (s, i) :: r => if String.eqb s symbol then Some i else get_symbol_info_in r symbol
  end.

Definition get_symbol_info (e : Exchange) (symbol : string) : option SymbolInfo :=
  get_symbol_info_in (symbol_info e) symbol.

(** [int(value * factor) / factor] with [factor = 10 ** precision]. *)
Definition truncate_to (precision : Z) (value : Q) : Q :=
  let factor := Qpower 10 precision in
  inject_Z (pyint (value * factor)) / factor.

(** [adjust_amount_precision] *)
Definition adjust_amount_precision (e : Exchange) (symbol : string) (amount : Q) : Q :=
  match get_symbol_info e symbol with
  | None => amount
  | Some info =>
      if negb (info_truthy info) then amount
      else truncate_to (get_or (precision_amount info) 8%Z) amount
  end.


(** An open order, as [cancel_all_orders] reads it. *)
Record OpenOrder := {
  open_id : string;
  open_symbol : string
}.

(** What [get_ticker] returns: [ticker.get('last', 0)]. *)
Record Ticker := { last : option Q }.

(** The abstract methods, as an exchange implements them over a world
    [X]; each may raise ([None]) and may change the world. *)
Class Api (X : Type) := {
  api_get_open_orders : option string -> X -> option (list OpenOrder) * X;
  api_cancel_order : string -> string -> X -> option Order * X;
  api_get_balance : X -> option Balance * X;
  api_get_ticker : string -> X -> option Ticker * X
}.

Section Methods.
Context {X : Type} `{Api X}.

(** An awaited call that the trace does not note. *)
Definition await {A} (f : X -> option A * X) : Py.M Exchange X A :=
  fun s => let (r, x') := f (ext s) in
           (match r with Some a => Ok a | None => Raised end,
            mkSt (comp s) x' (trace s)).

(** The body of the loop of [cancel_all_orders]: the [try] is inside
    the loop. *)
Definition cancel_one (cancelled_orders : list Order) (order : OpenOrder)
  : Py.M Exchange X (list Order) :=
  try_except
    (cancelled <- call (CCancelOrder (open_id order))
                       (api_cancel_order (open_id order) (open_symbol order)) ;;
     ret (cancelled_orders ++ [cancelled]))
    (log_error "Failed to cancel order" ;; ret cancelled_orders).

Fixpoint cancel_loop (open_orders : list OpenOrder) (cancelled_orders : list Order)
  : Py.M Exchange X (list Order) :=
  match open_orders with
  | [] => ret cancelled_orders
  | order :: rest =>
      cancelled_orders' <- cancel_one cancelled_orders order ;;
      cancel_loop rest cancelled_orders'
  end.

(** [cancel_all_orders] *)
Definition cancel_all_orders (symbol : option string) : Py.M Exchange X (list Order) :=
  open_orders <- await (api_get_open_orders symbol) ;;
  cancel_loop open_orders [].

(** [get_current_price] *)
Definition get_current_price (symbol : string) : Py.M Exchange X Q :=
  ticker <- call CGetTicker (api_get_ticker symbol) ;;
  ret (get_or (last ticker) 0).

(** The loop of [get_account_value] over [balance['total'].items()]. *)
Fixpoint value_loop (assets : list (string * Q)) (total_value : Q)
  : Py.M Exchange X Q :=
  match assets with
  | [] => ret total_value
  | (asset, amounts) :: rest =>
      if String.eqb asset "USDT" then value_loop rest (total_value + amounts)
      else
        total_value' <-
          try_except
            (price <- get_current_price (asset ++ "/USDT") ;;
             ret (total_value + amounts * price))
            (ret total_value) ;;
        value_loop rest total_value'
  end.

(** [get_account_value] *)
Definition get_account_value : Py.M Exchange X Q :=
  balance <- call CGetBalance api_get_balance ;;
  value_loop (bal_total balance) 0.

End Methods.

End Exchange.

(** ** The performance tracking of the position manager
    ([src/core/position_manager.py]) *)

Module PositionManager.

(** The fields of the position manager that the methods below read or
    write; of [self.portfolio_metrics], the two they read. *)
Record Manager := {
  settings : Settings;
  has_notifier : bool;
  total_balance : Q;                (* [self.portfolio_metrics.total_balance] *)
  position_ratio : Q;               (* [self.portfolio_metrics.position_ratio] *)
  peak_portfolio_value : Q;
  max_drawdown' : Q;                (* [self.max_drawdown] *)
  daily_pnl : Q;
  daily_start_value : Q;
  last_daily_reset : Q
}.

(** [PositionManager.__init__] *)
Definition init (s : Settings) (notifier : bool) : Manager :=
  {| settings := s; has_notifier := notifier;
     total_balance := 0; position_ratio := 0;
     peak_portfolio_value := 0; max_drawdown' := 0;
     daily_pnl := 0; daily_start_value := 0; last_daily_reset := 0 |}.

Definition set_peak_portfolio_value (v : Q) (m : Manager) : Manager :=
  {| settings := settings m; has_notifier := has_notifier m;
     total_balance := total_balance m; position_ratio := position_ratio m;
     peak_portfolio_value := v;
     max_drawdown' := max_drawdown' m;
     daily_pnl := daily_pnl m; daily_start_value := daily_start_value m;
     last_daily_reset := last_daily_reset m |}.

Definition set_max_drawdown (v : Q) (m : Manager) : Manager :=
  {| settings := settings m; has_notifier := has_notifier m;
     total_balance := total_balance m; position_ratio := position_ratio m;
     peak_portfolio_value := peak_portfolio_value m;
     max_drawdown' := v;
     daily_pnl := daily_pnl m; daily_start_value := daily_start_value m;
     last_daily_reset := last_daily_reset m |}.

Definition set_daily_pnl (v : Q) (m : Manager) : Manager :=
  {| settings := settings m; has_notifier := has_notifier m;
     total_balance := total_balance m; position_ratio := position_ratio m;
     peak_portfolio_value := peak_portfolio_value m;
     max_drawdown' := max_drawdown' m;
     daily_pnl := v; daily_start_value := daily_start_value m;
     last_daily_reset := last_daily_reset m |}.

Definition set_daily_start_value (v : Q) (m : Manager) : Manager :=
  {| settings := settings m; has_notifier := has_notifier m;
     total_balance := total_balance m; position_ratio := position_ratio m;
     peak_portfolio_value := peak_portfolio_value m;
     max_drawdown' := max_drawdown' m;
     daily_pnl := daily_pnl m; daily_start_value := v;
     last_daily_reset := last_daily_reset m |}.

Definition set_last_daily_reset (v : Q) (m : Manager) : Manager :=
  {| settings := settings m; has_notifier := has_notifier m;
     total_balance := total_balance m; position_ratio := position_ratio m;
     peak_portfolio_value := peak_portfolio_value m;
     max_drawdown' := max_drawdown' m;
     daily_pnl := daily_pnl m; daily_start_value := daily_start_value m;
     last_daily_reset := v |}.

(** The assignment to [self.portfolio_metrics], as far as these fields
    go. *)
Definition set_portfolio_metrics (total ratio : Q) (m : Manager) : Manager :=
  {| settings := settings m; has_notifier := has_notifier m;
     total_balance := total; position_ratio := ratio;
     peak_portfolio_value := peak_portfolio_value m;
     max_drawdown' := max_drawdown' m;
     daily_pnl := daily_pnl m; daily_start_value := daily_start_value m;
     last_daily_reset := last_daily_reset m |}.

(** The warnings of [check_risk_limits], each with the value its text
    shows. *)
Inductive Warning :=
| PositionRatioExceeded (ratio : Q)
| PositionRatioBelowMinimum (ratio : Q)
| MaxDrawdownExceeded (drawdown : Q)
| DailyLossLimitExceeded (pnl : Q).

(** The comparisons of [check_risk_limits], which fill [warnings] in
    this order. *)
Definition risk_warnings (m : Manager) : list Warning :=
  let warnings := [] in
  let warnings :=
    if Qgtb (position_ratio m) (max_position_ratio (risk (settings m)))
    then warnings ++ [PositionRatioExceeded (position_ratio m)] else warnings in
  let warnings :=
    if Qltb (position_ratio m) (min_position_ratio (risk (settings m)))
    then warnings ++ [PositionRatioBelowMinimum (position_ratio m)] else warnings in
  let warnings :=
    if Qltb (max_drawdown' m) (max_drawdown (risk (settings m)))
    then warnings ++ [MaxDrawdownExceeded (max_drawdown' m)] else warnings in
  let warnings :=
    if Qltb (daily_pnl m) (daily_loss_limit (risk (settings m)))
    then warnings ++ [DailyLossLimitExceeded (daily_pnl m)] else warnings in
  warnings.

Section Methods.
Context {X : Type} `{BaseNotifier X} `{Clock X}.

(** [_update_performance_metrics] *)
Definition _update_performance_metrics : Py.M Manager X unit :=
  try_except
    (current_value <- gets total_balance ;;
     modify (fun m =>
       if Qgtb current_value (peak_portfolio_value m)
       then set_peak_portfolio_value current_value m else m) ;;
     modify (fun m =>
       if Qgtb (peak_portfolio_value m) 0
       then
         let current_drawdown :=
           (current_value - peak_portfolio_value m) / peak_portfolio_value m in
         set_max_drawdown (pymin (max_drawdown' m) current_drawdown) m
       else m) ;;
     modify (fun m =>
       if Qgtb (daily_start_value m) 0
       then set_daily_pnl
              ((current_value - daily_start_value m) / daily_start_value m) m
       else m))
    (log_error "Failed to update performance metrics").

(** [_check_daily_reset] *)
Definition _check_daily_reset : Py.M Manager X unit :=
  current_time <- ask time_time ;;
  last_reset <- gets last_daily_reset ;;
  if Qgtb (current_time - last_reset) 86400
  then
    modify (fun m => set_daily_start_value (total_balance m) m) ;;
    modify (set_daily_pnl 0) ;;
    modify (set_last_daily_reset current_time)
  else ret tt.

(** [check_risk_limits].  The list [warnings] is made before the [try]
    and filled inside it; what is appended stays in the list when a
    notification raises, so the result is the list as the comparisons
    fill it. *)
Definition check_risk_limits : Py.M Manager X (list Warning) :=
  m <- gets (fun m => m) ;;
  let warnings := risk_warnings m in
  try_except
    (if match warnings with [] => false | _ => true end && has_notifier m
     then
       for_each warnings (fun _ =>
         let n := NRiskAlert "POSITION_RISK" (position_ratio m)
                    (max_position_ratio (risk (settings m))) "MONITOR" in
         call_unit (CNotify n) (notify n))
     else ret tt)
    (log_error "Failed to check risk limits") ;;
  ret warnings.

End Methods.

End PositionManager.

(** ** The rate limit of the notifier base class
    ([src/notifications/base_notifier.py]) *)

Module Notifier.

(** The fields of the notifier that [_check_rate_limit] reads or
    writes. *)
Record Notifier := {
  rate_limit : Z;
  notification_history : list Q;
  rate_limit_window : Q
}.

(** [BaseNotifier.__init__] *)
Definition init (limit : Z) : Notifier :=
  {| rate_limit := limit; notification_history := []; rate_limit_window := 60 |}.

Definition set_notification_history (h : list Q) (n : Notifier) : Notifier :=
  {| rate_limit := rate_limit n; notification_history := h;
     rate_limit_window := rate_limit_window n |}.

Section Methods.
Context {X : Type} `{Clock X}.

(** [_check_rate_limit] *)
Definition _check_rate_limit : Py.M Notifier X bool :=
  current_time <- ask time_time ;;
  modify (fun n =>
    set_notification_history
      (filter (fun timestamp =>
                 Qltb (current_time - timestamp) (rate_limit_window n))
              (notification_history n)) n) ;;
  n <- gets (fun n => n) ;;
  if (rate_limit n <=? Z.of_nat (List.length (notification_history n)))%Z
  then ret false
  else
    modify (fun n =>
      set_notification_history (notification_history n ++ [current_time]) n) ;;
    ret true.

End Methods.

End Notifier.

(** ** The grid strategy ([src/strategies/grid_strategy.py]) *)

Module GridStrategy.

(** The fields of the strategy that the methods below read or write. *)
Record Strategy := {
  settings : Settings;
  grid_size : Q;
  min_grid_size : Q;
  max_grid_size : Q;
  buy_levels : list Q;
  sell_levels : list Q
}.

Definition set_buy_levels (l : list Q) (s : Strategy) : Strategy :=
  {| settings := settings s; grid_size := grid_size s;
     min_grid_size := min_grid_size s; max_grid_size := max_grid_size s;
     buy_levels := l; sell_levels := sell_levels s |}.

Definition set_sell_levels (l : list Q) (s : Strategy) : Strategy :=
  {| settings := settings s; grid_size := grid_size s;
     min_grid_size := min_grid_size s; max_grid_size := max_grid_size s;
     buy_levels := buy_levels s; sell_levels := l |}.

(** What [_check_trading_signals] returns: the action, with the price
    and the number of the level for a buy or a sell. *)
Inductive Signal :=
| SignalBuy (price : Q) (level : nat)
| SignalSell (price : Q) (level : nat)
| SignalNone
| SignalError.

(** [_get_optimal_grid_size] *)
Fixpoint optimal_grid_size_for (thresholds : list Threshold) (s : Strategy) (vol : Q) : Q :=
  match thresholds with
  | [] => max_grid_size s
  | t :: rest =>
      if Qle_bool (range_lo t) vol && Qltb vol (range_hi t)
      then pymin (pymax (threshold_grid_size t) (min_grid_size s)) (max_grid_size s)
      else optimal_grid_size_for rest s vol
  end.

Definition _get_optimal_grid_size (s : Strategy) (vol : Q) : Q :=
  optimal_grid_size_for (volatility_thresholds (grid (settings s))) s vol.

Section Methods.
Context {X : Type}.

(** [_calculate_grid_levels] *)
Definition _calculate_grid_levels (base_price : Q) : Py.M Strategy X unit :=
  try_except
    (size <- gets grid_size ;;
     let grid_levels := Helpers.calculate_grid_levels base_price size 10 in
     modify (set_buy_levels (Helpers.buy_levels grid_levels)) ;;
     modify (set_sell_levels (Helpers.sell_levels grid_levels)))
    (log_error "Failed to calculate grid levels").

(** One of the two loops of [_check_trading_signals]: the first level
    within 0.1 % of the price, with its number; [i] levels have been
    passed. *)
Fixpoint near_level (current_price : Q) (levels : list Q) (i : nat)
  : Py.M Strategy X (option (Q * nat)) :=
  match levels with
  | [] => ret None
  | level :: rest =>
      distance <- pydiv (pyabs (current_price - level)) level ;;
      if Qltb distance (1 # 1000) then ret (Some (level, S i))
      else near_level current_price rest (S i)
  end.

(** [_check_trading_signals], on [grid_state.current_price] *)
Definition _check_trading_signals (current_price : Q) : Py.M Strategy X Signal :=
  try_except
    (buys <- gets buy_levels ;;
     found <- near_level current_price buys 0 ;;
     match found with
     | Some (buy_level, level) => ret (SignalBuy buy_level level)
     | None =>
         sells <- gets sell_levels ;;
         found <- near_level current_price sells 0 ;;
         match found with
         | Some (sell_level, level) => ret (SignalSell sell_level level)
         | None => ret SignalNone
         end
     end)
    (log_error "Failed to check trading signals" ;; ret SignalError).

End Methods.

End GridStrategy.

(** * Properties *)

(** ** Numbers and dictionaries *)

Module NumFacts.

Lemma Qltb_lt (a b : Q) : Qltb a b = true <-> a < b.
Proof.
  unfold Qltb. rewrite negb_true_iff.
  split; intro H.
  - apply Qnot_le_lt. intro Hle. apply Qle_bool_iff in Hle. congruence.
  - destruct (Qle_bool b a) eqn:E; [| reflexivity].
    apply Qle_bool_iff in E. exfalso. apply (Qlt_not_le _ _ H E).
Qed.

Lemma Qltb_ge (a b : Q) : Qltb a b = false <-> b <= a.
Proof.
  unfold Qltb. rewrite negb_false_iff. apply Qle_bool_iff.
Qed.

Lemma Qgtb_gt (a b : Q) : Qgtb a b = true <-> b < a.
Proof. apply Qltb_lt. Qed.

Lemma Qgtb_le (a b : Q) : Qgtb a b = false <-> a <= b.
Proof. apply Qltb_ge. Qed.

Lemma Qeq_bool_refl (a : Q) : Qeq_bool a a = true.
Proof. apply Qeq_bool_iff. reflexivity. Qed.






End NumFacts.
Import NumFacts.

Module DictFacts.
Section Facts.
Context {V : Type}.


Lemma get_set_same (d : Dict.t V) (k : Q) (v : V) :
  Dict.get (Dict.set d k v) k = Some v.
Proof.
  induction d as [| [k' v'] r IH]; simpl.
  - rewrite Qeq_bool_refl. reflexivity.
  - destruct (Qeq_bool k' k) eqn:E; simpl; rewrite E; [reflexivity | exact IH].
Qed.

Lemma get_set_other (d : Dict.t V) (k k0 : Q) (v : V) :
  Qeq_bool k k0 = false -> Dict.get (Dict.set d k v) k0 = Dict.get d k0.
Proof.
  intro Hne. induction d as [| [k' v'] r IH]; simpl.
  - rewrite Hne. reflexivity.
  - destruct (Qeq_bool k' k) eqn:E; simpl.
    + destruct (Qeq_bool k' k0) eqn:E0; [| reflexivity].
      apply Qeq_bool_iff in E. apply Qeq_bool_iff in E0.
      assert (Hk : Qeq_bool k k0 = true)
        by (apply Qeq_bool_iff; rewrite <- E; exact E0).
      congruence.
    + destruct (Qeq_bool k' k0); [reflexivity | exact IH].
Qed.

Lemma keys_set_mem (d : Dict.t V) (k : Q) (v v0 : V) :
  Dict.get d k = Some v0 -> Dict.keys (Dict.set d k v) = Dict.keys d.
Proof.
  induction d as [| [k' v'] r IH]; simpl; [discriminate |].
  destruct (Qeq_bool k' k); simpl; [reflexivity |].
  intro H. unfold Dict.keys in *. simpl. f_equal. exact (IH H).
Qed.

Lemma get_in (d : Dict.t V) (k : Q) (v : V) :
  Dict.get d k = Some v -> exists k', In (k', v) d /\ k' == k.
Proof.
  induction d as [| [k' v'] r IH]; simpl; [discriminate |].
  destruct (Qeq_bool k' k) eqn:E.
  - intro H. inversion H; subst. exists k'. split; [left; reflexivity |].
    apply Qeq_bool_iff. exact E.
  - intro H. destruct (IH H) as [k1 [Hin Heq]]. exists k1. split; [right |]; assumption.
Qed.

End Facts.
End DictFacts.

(** ** The level table (C2) *)

Module LevelTable.
Import GridEngine.




Section Spaced.
Variables base grid_decimal : Q.
Hypothesis spaced : (1 # 10000) < base * grid_decimal.





End Spaced.

Definition entry (base grid_decimal : Q) (i : Z) : Q * GridLevel :=
  (level_price base grid_decimal i, new_level i).



End LevelTable.

Module C2.
Import GridEngine LevelTable Runs.







End C2.

(** ** The emergency stop and the signal step (C1) *)

Module C1.
Import App.

(** The account was worth 1000 at start and is worth 600 now. *)
Definition world : Mock.World :=
  Mock.with_account_values [Some 1000; Some 600] Mock.calm.

Definition fresh : St App Mock.World :=
  mkSt {| grid_engine := GridEngine.init Mock.default_settings true Mock.no_data;
          risk_manager := RiskManager.init Mock.default_settings true |}
       world [].

(** Both components initialized, one market update, one grid update,
    then one risk evaluation: the drawdown of 40 % is beyond twice the
    15 % limit and the stop is triggered. *)
Definition stopped : St App Mock.World :=
  snd ((on_engine GridEngine._initialize_grid ;;
        on_risk RiskManager.initialize ;;
        on_engine (GridEngine._update_market_data Runs.no_volatility) ;;
        on_engine GridEngine._update_grid_state ;;
        on_risk RiskManager.check_all_risks) fresh).



Section Frame.
Context {X : Type} `{BaseExchange X} `{BaseNotifier X} `{Clock X}.



End Frame.

End C1.

(** ** More on dictionaries and on loops *)

Module DictMore.
Section Facts.
Context {V : Type}.

Lemma Qeq_bool_trans_r (k p q : Q) :
  Qeq_bool p q = true -> Qeq_bool k p = Qeq_bool k q.
Proof.
  intro H. apply Qeq_bool_iff in H.
  destruct (Qeq_bool k p) eqn:E1; destruct (Qeq_bool k q) eqn:E2; try reflexivity.
  - apply Qeq_bool_iff in E1.
    assert (E : Qeq_bool k q = true)
      by (apply Qeq_bool_iff; rewrite E1; exact H).
    congruence.
  - apply Qeq_bool_iff in E2.
    assert (E : Qeq_bool k p = true)
      by (apply Qeq_bool_iff; rewrite E2; symmetry; exact H).
    congruence.
Qed.

Lemma Qeq_bool_sym (p q : Q) : Qeq_bool p q = Qeq_bool q p.
Proof.
  destruct (Qeq_bool p q) eqn:E1; destruct (Qeq_bool q p) eqn:E2; try reflexivity.
  - apply Qeq_bool_iff in E1.
    assert (E : Qeq_bool q p = true)
      by (apply Qeq_bool_iff; symmetry; exact E1).
    congruence.
  - apply Qeq_bool_iff in E2.
    assert (E : Qeq_bool p q = true)
      by (apply Qeq_bool_iff; symmetry; exact E2).
    congruence.
Qed.

(** Lookup does not tell numerically equal keys apart. *)
Lemma get_equal_keys (d : Dict.t V) (p q : Q) :
  Qeq_bool p q = true -> Dict.get d p = Dict.get d q.
Proof.
  intro H. induction d as [| [k v] r IH]; simpl; [reflexivity |].
  rewrite (Qeq_bool_trans_r k p q H). rewrite IH. reflexivity.
Qed.

Lemma get_del_none (d : Dict.t V) (q p : Q) :
  Dict.get d p = None -> Dict.get (Dict.del d q) p = None.
Proof.
  induction d as [| [k v] r IH]; simpl; [reflexivity |].
  destruct (Qeq_bool k p) eqn:Ep; [discriminate |].
  intro H. destruct (Qeq_bool k q); simpl; [exact H |].
  rewrite Ep. apply IH. exact H.
Qed.

Lemma get_del_other (d : Dict.t V) (q p : Q) :
  Qeq_bool q p = false -> Dict.get (Dict.del d q) p = Dict.get d p.
Proof.
  intro Hne. induction d as [| [k v] r IH]; simpl; [reflexivity |].
  destruct (Qeq_bool k q) eqn:Eq; simpl.
  - destruct (Qeq_bool k p) eqn:Ep; [| reflexivity].
    apply Qeq_bool_iff in Eq. apply Qeq_bool_iff in Ep.
    assert (E : Qeq_bool q p = true)
      by (apply Qeq_bool_iff; rewrite <- Eq; exact Ep).
    congruence.
  - destruct (Qeq_bool k p); [reflexivity | exact IH].
Qed.

Lemma get_del_same (d : Dict.t V) (p : Q) :
  Dict.wf d -> Dict.get (Dict.del d p) p = None.
Proof.
  induction d as [| [k v] r IH]; simpl; [reflexivity |].
  intros [Hk Hwf]. destruct (Qeq_bool k p) eqn:E.
  - rewrite <- (get_equal_keys r k p E). exact Hk.
  - simpl. rewrite E. apply IH. exact Hwf.
Qed.

Lemma wf_del (d : Dict.t V) (q : Q) : Dict.wf d -> Dict.wf (Dict.del d q).
Proof.
  induction d as [| [k v] r IH]; simpl; [trivial |].
  intros [Hk Hwf]. destruct (Qeq_bool k q); [exact Hwf |].
  simpl. split; [apply get_del_none; exact Hk | apply IH; exact Hwf].
Qed.

(** In a dict, the entry after [pre] is the one its key finds, and no
    key of [pre] equals it. *)
Lemma wf_middle (pre post : Dict.t V) (p : Q) (v : V) :
  Dict.wf (pre ++ (p, v) :: post) ->
  Dict.get (pre ++ (p, v) :: post) p = Some v /\
  Forall (fun q => Qeq_bool q p = false) (Dict.keys pre).
Proof.
  induction pre as [| [k w] r IH]; simpl.
  - intros _. rewrite Qeq_bool_refl. split; [reflexivity | constructor].
  - intros [Hk Hwf]. destruct (IH Hwf) as [Hget Hall].
    assert (Hne : Qeq_bool k p = false).
    { destruct (Qeq_bool k p) eqn:E; [| reflexivity].
      rewrite (get_equal_keys _ k p E) in Hk. congruence. }
    rewrite Hne. split; [exact Hget | constructor; assumption].
Qed.

End Facts.
End DictMore.

Module PyFacts.

(** Case analysis on a test that has no test inside. *)
Ltac destruct_inner_if :=
  match goal with
  | |- context [if ?b then _ else _] =>
      lazymatch b with
      | context [if _ then _ else _] => fail
      | _ => destruct b
      end
  end.

Section Facts.
Context {C X : Type}.

Lemma for_each_app {B} (l1 l2 : list B) (body : B -> Py.M C X unit) (s : St C X) :
  for_each (l1 ++ l2) body s =
  match for_each l1 body s with
  | (Ok _, s1) => for_each l2 body s1
  | (Raised, s1) => (Raised, s1)
  end.
Proof.
  revert s. induction l1 as [| b r IH]; intro s; simpl; [reflexivity |].
  unfold bind. destruct (body b s) as [[[] |] s1]; [apply IH | reflexivity].
Qed.

(** What holds before a loop and is kept by every run of its body,
    raising or not, holds after the loop. *)
Lemma for_each_invariant {B} (P : St C X -> Prop) (body : B -> Py.M C X unit)
  (l : list B) :
  (forall b s, In b l -> P s -> P (snd (body b s))) ->
  forall s, P s -> P (snd (for_each l body s)).
Proof.
  induction l as [| b r IH]; intros Hbody s Hs; simpl; [exact Hs |].
  unfold bind. pose proof (Hbody b s (or_introl eq_refl) Hs) as H1.
  destruct (body b s) as [[[] |] s1]; simpl in *; [| exact H1].
  apply IH; [| exact H1].
  intros b' s' Hin. apply Hbody. right. exact Hin.
Qed.

End Facts.
End PyFacts.

(** ** Releasing a level *)

Module Release.
Import GridEngine DictMore.

Lemma grid_levels_release (q : Q) (e : Engine) :
  grid_levels (_release_grid_level q e) =
  match Dict.get (grid_levels e) q with
  | Some l => Dict.set (grid_levels e) q (with_occupied false l)
  | None => grid_levels e
  end.
Proof.
  unfold _release_grid_level.
  destruct (Dict.get (grid_levels e) q); simpl;
    match goal with |- context [if ?b then _ else _] => destruct b end;
    reflexivity.
Qed.

Lemma active_orders_release (q : Q) (e : Engine) :
  active_orders (_release_grid_level q e) =
  if Dict.mem (active_orders e) q
  then Dict.del (active_orders e) q else active_orders e.
Proof.
  unfold _release_grid_level.
  destruct (Dict.get (grid_levels e) q); simpl;
    destruct (Dict.mem (active_orders e) q); reflexivity.
Qed.

Lemma occupied_release_same (q p : Q) (e : Engine) :
  Qeq_bool q p = true -> occupied_at (_release_grid_level q e) p <> Some true.
Proof.
  intro Hqp. unfold occupied_at. rewrite grid_levels_release.
  rewrite <- (get_equal_keys _ q p Hqp).
  destruct (Dict.get (grid_levels e) q) eqn:E.
  - rewrite DictFacts.get_set_same. simpl. discriminate.
  - rewrite E. simpl. discriminate.
Qed.

Lemma occupied_release_other (q p : Q) (e : Engine) :
  Qeq_bool q p = false ->
  occupied_at (_release_grid_level q e) p = occupied_at e p.
Proof.
  intro Hqp. unfold occupied_at. rewrite grid_levels_release.
  destruct (Dict.get (grid_levels e) q); [| reflexivity].
  rewrite (DictFacts.get_set_other _ _ _ _ Hqp). reflexivity.
Qed.

Lemma active_release_none (q p : Q) (e : Engine) :
  Dict.get (active_orders e) p = None ->
  Dict.get (active_orders (_release_grid_level q e)) p = None.
Proof.
  intro H. rewrite active_orders_release.
  destruct (Dict.mem (active_orders e) q); [apply get_del_none |]; exact H.
Qed.

Lemma active_release_same (p : Q) (e : Engine) :
  Dict.wf (active_orders e) ->
  Dict.get (active_orders (_release_grid_level p e)) p = None.
Proof.
  intro Hwf. rewrite active_orders_release. unfold Dict.mem.
  destruct (Dict.get (active_orders e) p) eqn:E; [| exact E].
  apply get_del_same. exact Hwf.
Qed.

Lemma active_release_other (q p : Q) (e : Engine) :
  Qeq_bool q p = false ->
  Dict.get (active_orders (_release_grid_level q e)) p =
  Dict.get (active_orders e) p.
Proof.
  intro H. rewrite active_orders_release.
  destruct (Dict.mem (active_orders e) q); [apply get_del_other; exact H |].
  reflexivity.
Qed.

Lemma wf_release (q : Q) (e : Engine) :
  Dict.wf (active_orders e) -> Dict.wf (active_orders (_release_grid_level q e)).
Proof.
  intro H. rewrite active_orders_release.
  destruct (Dict.mem (active_orders e) q); [apply wf_del |]; exact H.
Qed.

(** A level is released: not occupied, and no active order under it. *)
Definition released (p : Q) (e : Engine) : Prop :=
  occupied_at e p <> Some true /\ Dict.get (active_orders e) p = None.

Lemma released_release (q p : Q) (e : Engine) :
  released p e -> released p (_release_grid_level q e).
Proof.
  intros [Hocc Hact]. split.
  - destruct (Qeq_bool q p) eqn:E.
    + apply occupied_release_same. exact E.
    + rewrite (occupied_release_other _ _ _ E). exact Hocc.
  - apply active_release_none. exact Hact.
Qed.

Lemma release_same_released (p : Q) (e : Engine) :
  Dict.wf (active_orders e) -> released p (_release_grid_level p e).
Proof.
  intro Hwf. split.
  - apply occupied_release_same. apply Qeq_bool_refl.
  - apply active_release_same. exact Hwf.
Qed.

(** Everything but the two tables is left alone. *)
Lemma release_rest (q : Q) (e : Engine) :
  grid_state (_release_grid_level q e) = grid_state e /\
  total_profit (_release_grid_level q e) = total_profit e /\
  trade_count (_release_grid_level q e) = trade_count e /\
  data_manager (_release_grid_level q e) = data_manager e /\
  is_running (_release_grid_level q e) = is_running e /\
  settings (_release_grid_level q e) = settings e.
Proof.
  unfold _release_grid_level.
  destruct (Dict.get (grid_levels e) q); simpl;
    match goal with |- context [if ?b then _ else _] => destruct b end;
    simpl; repeat split; reflexivity.
Qed.

End Release.

(** ** Saving and notifying *)

Module EngineFacts.
Import GridEngine.
Section Facts.
Context {X : Type} `{BaseExchange X} `{BaseNotifier X} `{Clock X}.

(** A notification changes nothing in the engine. *)
Lemma notify_engine (n : Notification) (s : St Engine X) :
  comp (snd (notify_if_configured n s)) = comp s.
Proof.
  unfold notify_if_configured, bind, gets, call_unit, call. simpl.
  destruct (has_notifier (comp s)); [| reflexivity].
  destruct (notify n (ext s)) as [[] x']; reflexivity.
Qed.

Lemma save_state_engine (s : St Engine X) :
  _save_state s =
  (Ok tt,
   mkSt (set_data_manager
           (save_state
              {| sd_base_price := Some (base_price (grid_state (comp s)));
                 sd_current_price := Some (current_price (grid_state (comp s)));
                 sd_grid_size := Some (grid_size (grid_state (comp s)));
                 sd_last_adjustment_time :=
                   Some (last_adjustment_time (grid_state (comp s)));
                 sd_volatility := Some (volatility (grid_state (comp s)));
                 sd_total_profit := Some (total_profit (comp s));
                 sd_trade_count := Some (trade_count (comp s));
                 sd_last_save_time := Some (time_time (ext s)) |}
              (data_manager (comp s))) (comp s))
        (ext s) (trace s)).
Proof. reflexivity. Qed.

End Facts.
End EngineFacts.

(** ** Shutdown (C3) *)

Module C3.
Import GridEngine DictMore Release EngineFacts.

(** The engine with its ten orders, in a world where cancelling the
    third order, "C" at 94, fails. *)
Definition before : St Engine Mock.World :=
  Eval vm_compute in
  mkSt (comp Runs.trading)
       (Mock.with_failing_cancels ["C"%string] (ext Runs.trading)) [].

Definition after : St Engine Mock.World := snd (stop before).

(** C3, as the claim states it, fails: the failed cancellation of "C" is
    the last one attempted, "D" at 96 is never tried, and the levels at
    94 and 96 stay occupied with their entries in [active_orders]. *)
Lemma C3_counterexample :
  Dict.get (active_orders (comp before)) 96 = Some (Some {| order_id := "D" |}) /\
  count (is_cancel_order "C") (trace after) = 1%nat /\
  count (is_cancel_order "D") (trace after) = 0%nat /\
  occupied_at (comp after) 94 = Some true /\
  Dict.get (active_orders (comp after)) 94 = Some (Some {| order_id := "C" |}) /\
  occupied_at (comp after) 96 = Some true /\
  Dict.get (active_orders (comp after)) 96 = Some (Some {| order_id := "D" |}).
Proof. vm_compute. repeat split; reflexivity. Qed.

Section Cancel.
Context {X : Type} `{BaseExchange X} `{BaseNotifier X} `{Clock X}.

Lemma cancel_one_ok (p : Q) (o : Order) (s : St Engine X) :
  fst (cancel_order (order_id o) (ext s)) = true ->
  cancel_one_order (p, Some o) s =
  (Ok tt, mkSt (_release_grid_level p (comp s))
               (snd (cancel_order (order_id o) (ext s)))
               (trace s ++ [CCancelOrder (order_id o)])).
Proof.
  intro Hok. unfold cancel_one_order, bind, call_unit, call, modify.
  destruct (cancel_order (order_id o) (ext s)) as [ok x'].
  simpl in Hok. subst ok. reflexivity.
Qed.

Lemma cancel_one_failed (p : Q) (o : Order) (s : St Engine X) :
  fst (cancel_order (order_id o) (ext s)) = false ->
  cancel_one_order (p, Some o) s =
  (Raised, mkSt (comp s) (snd (cancel_order (order_id o) (ext s)))
                (trace s ++ [CCancelOrder (order_id o)])).
Proof.
  intro Hok. unfold cancel_one_order, bind, call_unit, call, modify.
  destruct (cancel_order (order_id o) (ext s)) as [ok x'].
  simpl in Hok. subst ok. reflexivity.
Qed.

(** One pass of the loop body leaves the engine as it was or releases
    the level of its entry. *)
Lemma cancel_one_engine (entry : Q * option Order) (s : St Engine X) :
  comp (snd (cancel_one_order entry s)) = comp s \/
  comp (snd (cancel_one_order entry s)) = _release_grid_level (fst entry) (comp s).
Proof.
  destruct entry as [p [o |]]; [| left; reflexivity].
  destruct (fst (cancel_order (order_id o) (ext s))) eqn:E.
  - right. rewrite (cancel_one_ok p o s E). reflexivity.
  - left. rewrite (cancel_one_failed p o s E). reflexivity.
Qed.

(** The loop keeps what every release keeps. *)
Lemma cancel_loop_keeps (P : Engine -> Prop) (l : list (Q * option Order)) :
  (forall q e, In q (Dict.keys l) -> P e -> P (_release_grid_level q e)) ->
  forall s, P (comp s) -> P (comp (snd (for_each l cancel_one_order s))).
Proof.
  intros Hrel s Hs.
  apply (PyFacts.for_each_invariant (fun s => P (comp s))); [| exact Hs].
  intros entry s' Hin Hs'.
  destruct (cancel_one_engine entry s') as [E | E]; rewrite E; [exact Hs' |].
  apply Hrel; [| exact Hs'].
  unfold Dict.keys. apply in_map. exact Hin.
Qed.

Lemma cancel_all_unfold (s : St Engine X) :
  _cancel_all_orders s =
  match for_each (active_orders (comp s)) cancel_one_order s with
  | (Ok a, s') => (Ok a, s')
  | (Raised, s') =>
      (Ok tt, mkSt (comp s') (ext s')
                   (trace s' ++ [CLogError "Failed to cancel orders"]))
  end.
Proof. reflexivity. Qed.

(** A failed cancellation never leaves [_cancel_all_orders]. *)
Lemma cancel_all_returns (s : St Engine X) : fst (_cancel_all_orders s) = Ok tt.
Proof.
  rewrite cancel_all_unfold.
  destruct (for_each (active_orders (comp s)) cancel_one_order s)
    as [[[] |] s']; reflexivity.
Qed.

(** ... and the engine it leaves is the one the loop left. *)
Lemma cancel_all_engine (s : St Engine X) :
  comp (snd (_cancel_all_orders s)) =
  comp (snd (for_each (active_orders (comp s)) cancel_one_order s)).
Proof.
  rewrite cancel_all_unfold.
  destruct (for_each (active_orders (comp s)) cancel_one_order s)
    as [[[] |] s']; reflexivity.
Qed.

(** C3, amended: on shutdown the active orders are cancelled in
    insertion order.  Take an order [o] at level [p] and suppose the
    orders before it were cancelled ([for_each pre] ran through).  If the
    cancel call for [o] succeeds, level [p] is released for good:
    not occupied, and gone from [active_orders].  If the call fails, the
    failure is logged and does not leave [_cancel_all_orders], and level
    [p] is as it was: its occupancy unchanged and its entry still in
    [active_orders].  (Nothing is said of the orders after a failed
    one.) *)
Theorem C3_cancel_all_orders
  (e : Engine) (x : X) (t : list Call)
  (pre post : Dict.t (option Order)) (p : Q) (o : Order) (s1 : St Engine X) :
  active_orders e = pre ++ (p, Some o) :: post ->
  Dict.wf (active_orders e) ->
  for_each pre cancel_one_order (mkSt e x t) = (Ok tt, s1) ->
  fst (_cancel_all_orders (mkSt e x t)) = Ok tt /\
  (fst (cancel_order (order_id o) (ext s1)) = true ->
   occupied_at (comp (snd (_cancel_all_orders (mkSt e x t)))) p <> Some true /\
   Dict.get (active_orders (comp (snd (_cancel_all_orders (mkSt e x t))))) p
     = None) /\
  (fst (cancel_order (order_id o) (ext s1)) = false ->
   occupied_at (comp (snd (_cancel_all_orders (mkSt e x t)))) p
     = occupied_at e p /\
   Dict.get (active_orders (comp (snd (_cancel_all_orders (mkSt e x t))))) p
     = Some (Some o) /\
   In (CLogError "Failed to cancel orders")
      (trace (snd (_cancel_all_orders (mkSt e x t))))).
Proof.
  intros Hsplit Hwf Hpre.
  split; [apply cancel_all_returns |].
  rewrite Hsplit in Hwf.
  destruct (wf_middle pre post p (Some o) Hwf) as [Hget Hkeys].
  rewrite <- Hsplit in Hwf, Hget.
  (* the state after [pre]: level [p] untouched *)
  assert (Hs1 : occupied_at (comp s1) p = occupied_at e p /\
                Dict.get (active_orders (comp s1)) p = Some (Some o) /\
                Dict.wf (active_orders (comp s1))).
  { pose proof (cancel_loop_keeps
      (fun e' => occupied_at e' p = occupied_at e p /\
                 Dict.get (active_orders e') p = Some (Some o) /\
                 Dict.wf (active_orders e')) pre) as Hk.
    specialize (Hk ltac:(
      intros q e' Hq [Ha [Hb Hc]];
      rewrite Forall_forall in Hkeys; pose proof (Hkeys q Hq) as Hne;
      repeat split;
      [ rewrite (occupied_release_other _ _ _ Hne); exact Ha
      | rewrite (active_release_other _ _ _ Hne); exact Hb
      | apply wf_release; exact Hc ]) (mkSt e x t)).
    simpl in Hk. specialize (Hk (conj eq_refl (conj Hget Hwf))).
    rewrite Hpre in Hk. exact Hk. }
  destruct Hs1 as [Hocc1 [Hact1 Hwf1]].
  split; intro Hcall.
  - (* the call succeeds *)
    rewrite cancel_all_engine. simpl comp. rewrite Hsplit.
    rewrite PyFacts.for_each_app, Hpre.
    change (for_each ((p, Some o) :: post) cancel_one_order s1)
      with (bind (cancel_one_order (p, Some o))
                 (fun _ => for_each post cancel_one_order) s1).
    unfold bind. rewrite (cancel_one_ok p o s1 Hcall).
    apply (cancel_loop_keeps (released p) post).
    + intros q e' _ Hr. apply released_release. exact Hr.
    + simpl. apply release_same_released. exact Hwf1.
  - (* the call fails *)
    rewrite cancel_all_unfold. simpl comp. rewrite Hsplit.
    rewrite PyFacts.for_each_app, Hpre.
    change (for_each ((p, Some o) :: post) cancel_one_order s1)
      with (bind (cancel_one_order (p, Some o))
                 (fun _ => for_each post cancel_one_order) s1).
    unfold bind. rewrite (cancel_one_failed p o s1 Hcall).
    simpl. repeat split; [exact Hocc1 | exact Hact1 |].
    apply in_or_app. right. left. reflexivity.
Qed.

(** [stop] clears [is_running] and persists the state whatever became
    of the cancellations. *)
Lemma stop_persists (s : St Engine X) :
  is_running (comp (snd (stop s))) = false /\
  dm_state (data_manager (comp (snd (stop s)))) <> None.
Proof.
  assert (Hst : exists e2 d, is_running e2 = false /\
            comp (snd (stop s)) =
            set_data_manager (save_state d (data_manager e2)) e2).
  { unfold stop, bind at 1. unfold modify at 1.
    set (s0 := mkSt (set_is_running false (comp s)) (ext s) (trace s)).
    unfold bind at 1.
    pose proof (cancel_all_returns s0) as Hret.
    pose proof (cancel_loop_keeps (fun e' => is_running e' = false)
                  (active_orders (comp s0))) as Hrun.
    specialize (Hrun ltac:(intros q e' _ He';
      destruct (release_rest q e') as [_ [_ [_ [_ [Hr _]]]]]; congruence)
      s0 eq_refl).
    rewrite <- cancel_all_engine in Hrun.
    destruct (_cancel_all_orders s0) as [r s2]. simpl in Hret, Hrun. subst r.
    unfold bind at 1. rewrite save_state_engine.
    rewrite notify_engine. simpl.
    eexists. eexists. split; [exact Hrun | reflexivity]. }
  destruct Hst as [e2 [d [Hrun Heq]]]. rewrite Heq. simpl.
  split; [exact Hrun | discriminate].
Qed.

End Cancel.

(** The amended statement on the run above, for "C" at the level of
    index -3 (price 94): the two orders before it are cancelled, its own
    cancellation fails, the failure is logged and the level stays
    occupied. *)
Lemma C3_cancel_all_orders_witness :
  fst (_cancel_all_orders before) = Ok tt /\
  occupied_at (comp (snd (_cancel_all_orders before)))
              (level_price 100 (2 / 100) (-3)) = Some true /\
  In (CLogError "Failed to cancel orders")
     (trace (snd (_cancel_all_orders before))).
Proof.
  pose (pre := firstn 2 (active_orders (comp before))).
  pose (post := skipn 3 (active_orders (comp before))).
  pose (s1 := snd (for_each pre cancel_one_order before)).
  assert (Hsplit : active_orders (comp before) =
                   pre ++ (level_price 100 (2 / 100) (-3),
                           Some {| order_id := "C" |}) :: post)
    by (vm_compute; reflexivity).
  assert (Hwf : Dict.wf (active_orders (comp before)))
    by (vm_compute; repeat split; reflexivity).
  assert (Hpre : for_each pre cancel_one_order
                   (mkSt (comp before) (ext before) []) = (Ok tt, s1))
    by (vm_compute; reflexivity).
  destruct (C3_cancel_all_orders (comp before) (ext before) [] pre post
              (level_price 100 (2 / 100) (-3)) {| order_id := "C" |} s1
              Hsplit Hwf Hpre)
    as [Hret [_ Hfail]].
  assert (Hcall : fst (cancel_order (order_id {| order_id := "C" |}) (ext s1))
                  = false)
    by (vm_compute; reflexivity).
  destruct (Hfail Hcall) as [Hocc [_ Hlog]].
  split; [exact Hret |]. split; [| exact Hlog].
  change before with (mkSt (comp before) (ext before) []).
  rewrite Hocc. vm_compute. reflexivity.
Defined.

End C3.

(** ** Peak and drawdown (C4) *)

Module C4.
Import RiskManager PyFacts.

(** The account is worth 100, then 80, then 90. *)
Definition world : Mock.World :=
  Mock.with_account_values [Some 100; Some 80; Some 90] Mock.calm.

Definition update (s : St Manager Mock.World) : St Manager Mock.World :=
  snd (_update_portfolio_metrics s).

Definition at_100 : St Manager Mock.World :=
  Eval vm_compute in
  update (mkSt (RiskManager.init Mock.default_settings true) world []).
Definition at_80 : St Manager Mock.World := Eval vm_compute in update at_100.
Definition at_90 : St Manager Mock.World := Eval vm_compute in update at_80.

(** C4, as the claim states it, fails in its last part: from 80 to 90
    the peak stays at 100, no new peak is reached, and the drawdown goes
    from -20 % to -10 %, toward zero. *)
Lemma C4_counterexample :
  peak_portfolio_value (comp at_80) == 100 /\
  peak_portfolio_value (comp at_90) == 100 /\
  current_drawdown (comp at_80) == - (20 # 100) /\
  current_drawdown (comp at_90) == - (10 # 100) /\
  current_drawdown (comp at_80) < current_drawdown (comp at_90).
Proof. vm_compute. repeat split; reflexivity. Qed.

Section Updates.
Context {X : Type} `{BaseExchange X} `{BaseNotifier X} `{Clock X}.

(** One portfolio-metric update, in any world. *)
Definition update_step (m m' : Manager) : Prop :=
  exists (x : X) (t : list Call),
    m' = comp (snd (_update_portfolio_metrics (mkSt m x t))).

(** Any number of updates. *)
Inductive updates : Manager -> Manager -> Prop :=
| updates_none (m : Manager) : updates m m
| updates_more (m m' m'' : Manager) :
    updates m m' -> update_step m' m'' -> updates m m''.

(** What an update makes of the peak and of the drawdown. *)
Definition new_peak (m : Manager) (v : Q) : Q :=
  if Qgtb v (peak_portfolio_value m) then v else peak_portfolio_value m.

Definition new_drawdown (m : Manager) (v : Q) : Q :=
  if Qgtb (new_peak m v) 0
  then (v - new_peak m v) / new_peak m v
  else current_drawdown m.

Lemma update_effect (m : Manager) (x : X) (t : list Call) :
  match fst (get_account_value x) with
  | Some v =>
      peak_portfolio_value
        (comp (snd (_update_portfolio_metrics (mkSt m x t)))) = new_peak m v /\
      current_drawdown
        (comp (snd (_update_portfolio_metrics (mkSt m x t)))) = new_drawdown m v
  | None => comp (snd (_update_portfolio_metrics (mkSt m x t))) = m
  end.
Proof.
  unfold _update_portfolio_metrics, new_drawdown, new_peak.
  cbv [bind try_except call modify gets ask ret raise log_error record
       comp ext trace fst snd].
  destruct (get_account_value x) as [[v |] x']; [| reflexivity].
  cbv [comp ext trace fst snd].
  repeat (cbn [peak_portfolio_value current_drawdown daily_start_value
               last_daily_reset set_peak_portfolio_value set_current_drawdown
               set_daily comp snd];
          destruct_inner_if);
    cbn [peak_portfolio_value current_drawdown set_peak_portfolio_value
         set_current_drawdown set_daily comp snd];
    split; reflexivity.
Qed.

Lemma new_peak_ge (m : Manager) (v : Q) :
  peak_portfolio_value m <= new_peak m v /\ v <= new_peak m v.
Proof.
  unfold new_peak. destruct (Qgtb v (peak_portfolio_value m)) eqn:E.
  - apply Qgtb_gt in E. split; [apply Qlt_le_weak; exact E | apply Qle_refl].
  - apply Qgtb_le in E. split; [apply Qle_refl | exact E].
Qed.

Lemma new_drawdown_le (m : Manager) (v : Q) :
  current_drawdown m <= 0 -> new_drawdown m v <= 0.
Proof.
  intro Hm. unfold new_drawdown.
  destruct (new_peak_ge m v) as [_ Hv].
  destruct (Qgtb (new_peak m v) 0) eqn:E; [| exact Hm].
  apply Qgtb_gt in E. apply Qle_shift_div_r; [exact E | lra].
Qed.

Lemma update_step_facts (m m' : Manager) :
  update_step m m' ->
  peak_portfolio_value m <= peak_portfolio_value m' /\
  (current_drawdown m <= 0 -> current_drawdown m' <= 0).
Proof.
  intros [x [t Hm']]. subst m'.
  pose proof (update_effect m x t) as Heff.
  destruct (fst (get_account_value x)) as [v |].
  - destruct Heff as [Hp Hd]. rewrite Hp, Hd. split.
    + apply new_peak_ge.
    + apply new_drawdown_le.
  - rewrite Heff. split; [apply Qle_refl | trivial].
Qed.

Lemma updates_facts (m m' : Manager) :
  updates m m' ->
  peak_portfolio_value m <= peak_portfolio_value m' /\
  (current_drawdown m <= 0 -> current_drawdown m' <= 0).
Proof.
  induction 1 as [m | m m' m'' _ [IHp IHd] Hstep].
  - split; [apply Qle_refl | trivial].
  - destruct (update_step_facts m' m'' Hstep) as [Hp Hd]. split.
    + apply (Qle_trans _ _ _ IHp Hp).
    + intro Hm. apply Hd, IHd, Hm.
Qed.

(** C4, amended: across every sequence of portfolio-metric updates the
    peak never decreases and the drawdown, 0 at start, is never positive;
    after an update that read the value [v] and left a positive peak the
    drawdown is [(v - peak) / peak]; it is 0 when [v] is a new peak, and
    with the peak unchanged it follows the value, lower when the value
    is lower and closer to zero when the value recovers. *)
Theorem C4_peak_and_drawdown (m m' : Manager) (x : X) (t : list Call) (v : Q) :
  current_drawdown m <= 0 ->
  updates m m' ->
  fst (get_account_value x) = Some v ->
  peak_portfolio_value m <= peak_portfolio_value m' /\
  current_drawdown m' <= 0 /\
  peak_portfolio_value m' <=
    peak_portfolio_value (comp (snd (_update_portfolio_metrics (mkSt m' x t)))) /\
  current_drawdown (comp (snd (_update_portfolio_metrics (mkSt m' x t)))) <= 0 /\
  (0 < peak_portfolio_value (comp (snd (_update_portfolio_metrics (mkSt m' x t)))) ->
   current_drawdown (comp (snd (_update_portfolio_metrics (mkSt m' x t)))) ==
   (v - peak_portfolio_value (comp (snd (_update_portfolio_metrics (mkSt m' x t)))))
   / peak_portfolio_value (comp (snd (_update_portfolio_metrics (mkSt m' x t))))) /\
  (peak_portfolio_value m' < v -> 0 < v ->
   peak_portfolio_value (comp (snd (_update_portfolio_metrics (mkSt m' x t)))) = v /\
   current_drawdown (comp (snd (_update_portfolio_metrics (mkSt m' x t)))) == 0) /\
  (v <= peak_portfolio_value m' -> 0 < peak_portfolio_value m' ->
   peak_portfolio_value (comp (snd (_update_portfolio_metrics (mkSt m' x t))))
     = peak_portfolio_value m' /\
   current_drawdown (comp (snd (_update_portfolio_metrics (mkSt m' x t)))) ==
   (v - peak_portfolio_value m') / peak_portfolio_value m').
Proof.
  intros Hm Hrun Hv.
  destruct (updates_facts m m' Hrun) as [Hp Hd]. specialize (Hd Hm).
  pose proof (update_effect m' x t) as Heff. rewrite Hv in Heff.
  destruct Heff as [Ep Ed]. rewrite Ep, Ed.
  split; [exact Hp |]. split; [exact Hd |].
  split; [apply new_peak_ge |]. split; [apply new_drawdown_le; exact Hd |].
  split; [| split].
  - intro Hpos. unfold new_drawdown.
    apply Qgtb_gt in Hpos. rewrite Hpos. reflexivity.
  - intros Hnew Hvpos. unfold new_drawdown, new_peak.
    apply Qgtb_gt in Hnew. rewrite Hnew.
    apply Qgtb_gt in Hvpos. rewrite Hvpos.
    split; [reflexivity |]. unfold Qminus. rewrite Qplus_opp_r.
    unfold Qdiv. apply Qmult_0_l.
  - intros Hle Hpos. unfold new_drawdown, new_peak.
    apply Qgtb_le in Hle. rewrite Hle.
    apply Qgtb_gt in Hpos. rewrite Hpos.
    split; reflexivity.
Qed.

End Updates.

(** The amended statement on the run above: after the updates at 100
    and 80, the update at 90 leaves the peak at 100 and the drawdown at
    [(90 - 100) / 100]. *)
Lemma C4_peak_and_drawdown_witness :
  peak_portfolio_value (comp at_90) = peak_portfolio_value (comp at_80) /\
  current_drawdown (comp at_90) ==
    (90 - peak_portfolio_value (comp at_80)) / peak_portfolio_value (comp at_80) /\
  current_drawdown (comp at_90) <= 0.
Proof.
  assert (Hrun : updates (X := Mock.World)
                   (RiskManager.init Mock.default_settings true) (comp at_80)).
  { apply updates_more with (m' := comp at_100).
    - apply updates_more with (m' := RiskManager.init Mock.default_settings true).
      + apply updates_none.
      + exists world, []. vm_compute. reflexivity.
    - exists (ext at_100), (trace at_100). vm_compute. reflexivity. }
  destruct (C4_peak_and_drawdown
              (RiskManager.init Mock.default_settings true) (comp at_80)
              (ext at_80) (trace at_80) 90
              ltac:(vm_compute; discriminate) Hrun ltac:(vm_compute; reflexivity))
    as [_ [_ [_ [Hle [_ [_ Hsame]]]]]].
  destruct (Hsame ltac:(vm_compute; discriminate) ltac:(vm_compute; reflexivity))
    as [Hp Hd].
  change (comp at_90)
    with (comp (snd (_update_portfolio_metrics
                       (mkSt (comp at_80) (ext at_80) (trace at_80))))).
  split; [exact Hp |]. split; [exact Hd | exact Hle].
Defined.

End C4.

(** ** Methods that keep a relation between the states before and after *)

Module Sat.
Section Preorder.
Context {C X : Type}.
Variable R : St C X -> St C X -> Prop.
Hypothesis R_refl : forall s, R s s.
Hypothesis R_trans : forall s1 s2 s3, R s1 s2 -> R s2 s3 -> R s1 s3.

(** Whatever it returns, [m] takes a state to one related to it. *)
Definition sat {A} (m : Py.M C X A) : Prop := forall s, R s (snd (m s)).

Lemma sat_ret {A} (a : A) : sat (ret a).
Proof using R_refl. intro s. apply R_refl. Qed.

Lemma sat_raise {A} : sat (@raise C X A).
Proof using R_refl. intro s. apply R_refl. Qed.

Lemma sat_gets {A} (f : C -> A) : sat (gets f).
Proof using R_refl. intro s. apply R_refl. Qed.

Lemma sat_ask {A} (f : X -> A) : sat (ask (C := C) f).
Proof using R_refl. intro s. apply R_refl. Qed.

Lemma sat_lookup {A} (o : option A) : sat (lookup (C := C) (X := X) o).
Proof using R_refl. destruct o; [apply sat_ret | apply sat_raise]. Qed.

Lemma sat_bind {A B} (m : Py.M C X A) (k : A -> Py.M C X B) :
  sat m -> (forall a, sat (k a)) -> sat (bind m k).
Proof using R_trans.
  intros Hm Hk s. unfold bind. specialize (Hm s).
  destruct (m s) as [[a |] s1]; simpl in *; [| exact Hm].
  apply (R_trans _ _ _ Hm). apply Hk.
Qed.

Lemma sat_try_except {A} (body handler : Py.M C X A) :
  sat body -> sat handler -> sat (try_except body handler).
Proof using R_trans.
  intros Hb Hh s. unfold try_except. specialize (Hb s).
  destruct (body s) as [[a |] s1]; simpl in *; [exact Hb |].
  apply (R_trans _ _ _ Hb). apply Hh.
Qed.

Lemma sat_for_each {B} (l : list B) (body : B -> Py.M C X unit) :
  (forall b, sat (body b)) -> sat (for_each l body).
Proof using R_refl R_trans.
  intro Hb. induction l as [| b r IH]; simpl.
  - apply sat_ret.
  - apply sat_bind; [apply Hb | intros _; exact IH].
Qed.

(** A call, a log line, an assignment: kept when each single change of
    the state is. *)
Lemma sat_call {A} (c : Call) (f : X -> option A * X) :
  (forall s x', R s (mkSt (comp s) x' (trace s ++ [c]))) -> sat (call c f).
Proof.
  intros Hc s. unfold call. destruct (f (ext s)) as [[a |] x']; apply Hc.
Qed.

Lemma sat_call_unit (c : Call) (f : X -> bool * X) :
  (forall s x', R s (mkSt (comp s) x' (trace s ++ [c]))) -> sat (call_unit c f).
Proof. intro Hc. unfold call_unit. apply sat_call. exact Hc. Qed.

Lemma sat_log_error (msg : string) :
  (forall s x', R s (mkSt (comp s) x' (trace s ++ [CLogError msg]))) ->
  sat (log_error msg).
Proof. intros Hc s. apply Hc. Qed.

Lemma sat_modify (f : C -> C) :
  (forall s, R s (mkSt (f (comp s)) (ext s) (trace s))) -> sat (modify f).
Proof. intros Hf s. apply Hf. Qed.

End Preorder.
End Sat.

(** ** The emergency stop (C5) *)

Module C5.
Import RiskManager PyFacts.

Definition cancel_alls {C X} (s : St C X) : nat :=
  count is_cancel_all_orders (trace s).

Definition emergency_notifications {C X} (s : St C X) : nat :=
  count is_emergency_notification (trace s).

(** The account was worth 1000 and is worth 600; [cancel_all_orders]
    fails. *)
Definition world : Mock.World :=
  Mock.with_cancel_all_ok false
    (Mock.with_account_values [Some 1000; Some 600; Some 600] Mock.calm).

Definition initialized : St Manager Mock.World :=
  Eval vm_compute in
  snd (initialize (mkSt (RiskManager.init Mock.default_settings true) world [])).

(** The cycle that triggers the stop, and the next one, 1000 s later. *)
Definition first_cycle : St Manager Mock.World :=
  Eval vm_compute in snd (check_all_risks initialized).

Definition second_cycle : St Manager Mock.World :=
  Eval vm_compute in
  snd (check_all_risks
         (mkSt (comp first_cycle) (Mock.with_now 2000 (ext first_cycle))
               (trace first_cycle))).

(** C5, as the claim states it, fails in its last part: with a notifier
    configured and [cancel_all_orders] failing, the stop is triggered,
    cancel-all is called once, and the critical notification is not sent,
    neither in the triggering cycle nor in the next. *)
Lemma C5_counterexample :
  has_notifier (comp initialized) = true /\
  emergency_stop_triggered (comp initialized) = false /\
  emergency_stop_triggered (comp first_cycle) = true /\
  cancel_alls first_cycle = 1%nat /\
  emergency_notifications first_cycle = 0%nat /\
  emergency_stop_triggered (comp second_cycle) = true /\
  cancel_alls second_cycle = 1%nat /\
  emergency_notifications second_cycle = 0%nat.
Proof. vm_compute. repeat split; reflexivity. Qed.

Section Episode.
Context {X : Type} `{BaseExchange X} `{BaseNotifier X} `{Clock X}.

(** How a stretch of execution may change the flag and the counts of
    cancel-all calls and of critical notifications: a flag that is set
    stays set, with no further trigger action; a flag that gets set does
    so with one cancel-all and at most one notification. *)
Definition episode (s s' : St Manager X) : Prop :=
  match emergency_stop_triggered (comp s),
        emergency_stop_triggered (comp s') with
  | true, false => False
  | false, true =>
      cancel_alls s' = S (cancel_alls s) /\
      (emergency_notifications s' = emergency_notifications s \/
       emergency_notifications s' = S (emergency_notifications s))
  | _, _ =>
      cancel_alls s' = cancel_alls s /\
      emergency_notifications s' = emergency_notifications s
  end.

Lemma episode_refl (s : St Manager X) : episode s s.
Proof.
  unfold episode. destruct (emergency_stop_triggered (comp s)); split; reflexivity.
Qed.

Lemma episode_trans (s1 s2 s3 : St Manager X) :
  episode s1 s2 -> episode s2 s3 -> episode s1 s3.
Proof.
  unfold episode.
  destruct (emergency_stop_triggered (comp s1)),
           (emergency_stop_triggered (comp s2)),
           (emergency_stop_triggered (comp s3));
    intros H12 H23; try contradiction;
    destruct H12 as [Ha Hb]; destruct H23 as [Hc Hd]; split;
    try destruct Hb as [Hb | Hb]; try destruct Hd as [Hd | Hd];
    try (left; congruence); try (right; congruence); congruence.
Qed.

Lemma count_snoc (p : Call -> bool) (t : list Call) (c : Call) :
  count p (t ++ [c]) = if p c then S (count p t) else count p t.
Proof.
  unfold count. rewrite filter_app, length_app. simpl.
  destruct (p c); simpl; lia.
Qed.

(** A call that is neither cancel-all nor the critical notification. *)
Definition quiet (c : Call) : Prop :=
  is_cancel_all_orders c = false /\ is_emergency_notification c = false.

Lemma episode_quiet_call (c : Call) (s : St Manager X) (x' : X) :
  quiet c -> episode s (mkSt (comp s) x' (trace s ++ [c])).
Proof.
  intros [Hca Hen]. unfold episode, cancel_alls, emergency_notifications. simpl.
  rewrite !count_snoc, Hca, Hen.
  destruct (emergency_stop_triggered (comp s)); split; reflexivity.
Qed.

Lemma episode_assign (f : Manager -> Manager) (s : St Manager X) :
  (forall m, emergency_stop_triggered (f m) = emergency_stop_triggered m) ->
  episode s (mkSt (f (comp s)) (ext s) (trace s)).
Proof.
  intro Hf. unfold episode, cancel_alls, emergency_notifications. simpl.
  rewrite Hf.
  destruct (emergency_stop_triggered (comp s)); split; reflexivity.
Qed.

Lemma modify_episode (f : Manager -> Manager) :
  (forall m, emergency_stop_triggered (f m) = emergency_stop_triggered m) ->
  Sat.sat episode (modify f).
Proof.
  intros Hf. apply Sat.sat_modify. intro s. apply episode_assign. exact Hf.
Qed.

End Episode.

(** Goes through a method statement by statement. *)
Ltac episode_step :=
  first
    [ apply (Sat.sat_ret episode episode_refl)
    | apply (Sat.sat_raise episode episode_refl)
    | apply (Sat.sat_gets episode episode_refl)
    | apply (Sat.sat_ask episode episode_refl)
    | apply (Sat.sat_lookup episode episode_refl)
    | apply (Sat.sat_try_except episode episode_trans)
    | apply (Sat.sat_bind episode episode_trans); [| intro]
    | apply (Sat.sat_call episode); intros; apply episode_quiet_call;
      split; reflexivity
    | apply (Sat.sat_call_unit episode); intros; apply episode_quiet_call;
      split; reflexivity
    | apply (Sat.sat_log_error episode); intros; apply episode_quiet_call;
      split; reflexivity
    | apply modify_episode;
      intro; cbv beta; repeat destruct_inner_if; reflexivity
    | match goal with
      | |- Sat.sat _ (if ?b then _ else _) => destruct b
      | |- Sat.sat _ (match ?o with _ => _ end) => destruct o
      end ].

Section Cycle.
Context {X : Type} `{BaseExchange X} `{BaseNotifier X} `{Clock X}.

Lemma update_portfolio_metrics_episode : Sat.sat episode _update_portfolio_metrics.
Proof. unfold _update_portfolio_metrics. repeat episode_step. Qed.

Lemma check_position_limits_episode : Sat.sat episode _check_position_limits.
Proof. unfold _check_position_limits, read_position. repeat episode_step. Qed.

Lemma check_drawdown_limits_episode : Sat.sat episode _check_drawdown_limits.
Proof. unfold _check_drawdown_limits. repeat episode_step. Qed.

Lemma check_daily_limits_episode : Sat.sat episode _check_daily_limits.
Proof. unfold _check_daily_limits. repeat episode_step. Qed.

Lemma process_alerts_episode (alerts : list RiskAlert) :
  Sat.sat episode (_process_alerts alerts).
Proof.
  unfold _process_alerts.
  apply (Sat.sat_bind episode episode_trans); [| intro; repeat episode_step].
  apply (Sat.sat_for_each episode episode_refl episode_trans).
  intro alert. unfold process_one_alert. repeat episode_step.
Qed.

(** The trigger, which runs only while the flag is clear. *)
Lemma trigger_episode (name : string) (s : St Manager X) :
  emergency_stop_triggered (comp s) = false ->
  episode s (snd (_trigger_emergency_stop name s)).
Proof.
  intro Eflag.
  unfold _trigger_emergency_stop, try_except, bind, modify, call_unit, call,
    gets, log_error, record, ret.
  cbn [comp ext trace fst snd].
  destruct (cancel_all_orders (ext s)) as [[] x1];
    cbn [comp ext trace fst snd has_notifier set_emergency_stop_triggered];
    [destruct (has_notifier (comp s));
     cbn [comp ext trace fst snd];
     [destruct (notify (NError "EMERGENCY_STOP" name) x1) as [[] x2] |] |];
    unfold episode, cancel_alls, emergency_notifications;
    cbn [comp ext trace fst snd emergency_stop_triggered
         set_emergency_stop_triggered];
    rewrite Eflag, !count_snoc; cbn; split; auto.
Qed.

Lemma emergency_loop_episode (conds : list (bool * string)) :
  forall alerts, Sat.sat episode (emergency_loop conds alerts).
Proof.
  induction conds as [| [condition name] rest IH]; intro alerts; simpl.
  - episode_step.
  - destruct condition; [| apply IH].
    apply (Sat.sat_bind episode episode_trans); [episode_step | intro now].
    intro s. unfold bind at 1. unfold gets at 1. cbn [fst snd comp].
    destruct (emergency_stop_triggered (comp s)) eqn:Eflag.
    + apply (Sat.sat_bind episode episode_trans);
        [episode_step | intros _; apply IH].
    + pose proof (trigger_episode name s Eflag) as Ht.
      unfold bind.
      destruct (_trigger_emergency_stop name s) as [[a |] s1];
        cbn [fst snd] in *; [| exact Ht].
      apply (episode_trans _ _ _ Ht). apply IH.
Qed.

Lemma check_emergency_conditions_episode :
  Sat.sat episode _check_emergency_conditions.
Proof.
  unfold _check_emergency_conditions.
  apply (Sat.sat_try_except episode episode_trans); [| repeat episode_step].
  apply (Sat.sat_bind episode episode_trans); [episode_step | intro conds].
  apply emergency_loop_episode.
Qed.

Lemma run_steps_episode
  (steps : list (list RiskAlert -> Py.M Manager X (list RiskAlert)))
  (handler : list RiskAlert -> Py.M Manager X (list RiskAlert)) :
  (forall step, In step steps -> forall alerts, Sat.sat episode (step alerts)) ->
  (forall alerts, Sat.sat episode (handler alerts)) ->
  forall alerts, Sat.sat episode (run_steps steps handler alerts).
Proof.
  intros Hsteps Hhandler.
  induction steps as [| step rest IH]; intros alerts s; simpl.
  - apply episode_refl.
  - pose proof (Hsteps step (or_introl eq_refl) alerts s) as Hstep.
    destruct (step alerts s) as [[alerts' |] s1]; simpl in Hstep.
    + apply (episode_trans _ _ _ Hstep). apply IH.
      intros st Hin. apply Hsteps. right. exact Hin.
    + apply (episode_trans _ _ _ Hstep). apply Hhandler.
Qed.

(** One risk-evaluation cycle. *)
Lemma check_all_risks_episode : Sat.sat episode check_all_risks.
Proof.
  unfold check_all_risks.
  do 3 (apply (Sat.sat_bind episode episode_trans); [episode_step | intro]).
  match goal with |- Sat.sat _ (if ?b then _ else _) => destruct b end;
    [episode_step |].
  apply run_steps_episode.
  - intros step Hin alerts. unfold risk_steps in Hin. simpl in Hin.
    repeat (destruct Hin as [Hin | Hin];
            [subst step; apply (Sat.sat_bind episode episode_trans);
             [| intro; repeat episode_step] |]); try contradiction.
    + apply update_portfolio_metrics_episode.
    + apply check_position_limits_episode.
    + apply check_drawdown_limits_episode.
    + apply check_daily_limits_episode.
    + apply check_emergency_conditions_episode.
    + apply process_alerts_episode.
    + repeat episode_step.
  - intro alerts. repeat episode_step.
Qed.

End Cycle.

Section Claim.
Context {X : Type} `{BaseExchange X} `{BaseNotifier X} `{Clock X}.

(** One risk-evaluation cycle, in any world. *)
Definition cycle_step (m m' : Manager) : Prop :=
  exists (x : X) (t : list Call),
    m' = comp (snd (check_all_risks (mkSt m x t))).

(** Any number of cycles, with no reset in between. *)
Inductive cycles : Manager -> Manager -> Prop :=
| cycles_none (m : Manager) : cycles m m
| cycles_more (m m' m'' : Manager) :
    cycles m m' -> cycle_step m' m'' -> cycles m m''.

Lemma cycle_keeps_flag (m m' : Manager) :
  cycle_step m m' ->
  emergency_stop_triggered m = true -> emergency_stop_triggered m' = true.
Proof.
  intros [x [t Hm']] Hflag. subst m'.
  pose proof (check_all_risks_episode (mkSt m x t)) as He.
  unfold episode in He. simpl comp at 1 in He. rewrite Hflag in He.
  destruct (emergency_stop_triggered
              (comp (snd (check_all_risks (mkSt m x t)))));
    [reflexivity | contradiction].
Qed.

Lemma cycles_keep_flag (m m' : Manager) :
  cycles m m' ->
  emergency_stop_triggered m = true -> emergency_stop_triggered m' = true.
Proof.
  induction 1 as [m | m m' m'' _ IH Hstep]; intro Hflag; [exact Hflag |].
  apply (cycle_keeps_flag m' m'' Hstep). apply IH. exact Hflag.
Qed.

(** C5, amended: once the flag is set it stays set across every
    subsequent risk-evaluation cycle, and only [reset_emergency_stop]
    clears it; a cycle that starts with the flag set calls cancel-all no
    more and sends no further critical notification, whatever conditions
    recur; a cycle that starts with the flag clear and sets it calls
    cancel-all exactly once and sends the critical notification at most
    once.  So per stop episode cancel-all is called exactly once and the
    critical notification is sent at most once. *)
Theorem C5_emergency_stop (m m' m0 : Manager) (x : X) (t : list Call) :
  emergency_stop_triggered m = true ->
  cycles m m' ->
  emergency_stop_triggered m0 = false ->
  emergency_stop_triggered m' = true /\
  emergency_stop_triggered (comp (snd (check_all_risks (mkSt m' x t)))) = true /\
  cancel_alls (snd (check_all_risks (mkSt m' x t)))
    = count is_cancel_all_orders t /\
  emergency_notifications (snd (check_all_risks (mkSt m' x t)))
    = count is_emergency_notification t /\
  emergency_stop_triggered (reset_emergency_stop m') = false /\
  (if emergency_stop_triggered (comp (snd (check_all_risks (mkSt m0 x t))))
   then cancel_alls (snd (check_all_risks (mkSt m0 x t)))
          = S (count is_cancel_all_orders t) /\
        (emergency_notifications (snd (check_all_risks (mkSt m0 x t)))
           = count is_emergency_notification t \/
         emergency_notifications (snd (check_all_risks (mkSt m0 x t)))
           = S (count is_emergency_notification t))
   else cancel_alls (snd (check_all_risks (mkSt m0 x t)))
          = count is_cancel_all_orders t /\
        emergency_notifications (snd (check_all_risks (mkSt m0 x t)))
          = count is_emergency_notification t).
Proof.
  intros Hflag Hrun Hclear.
  pose proof (cycles_keep_flag m m' Hrun Hflag) as Hflag'.
  split; [exact Hflag' |].
  pose proof (check_all_risks_episode (mkSt m' x t)) as He.
  unfold episode in He. cbn [comp] in He. rewrite Hflag' in He.
  destruct (emergency_stop_triggered
              (comp (snd (check_all_risks (mkSt m' x t)))));
    [| contradiction].
  destruct He as [Hca Hen].
  split; [reflexivity |]. split; [exact Hca |]. split; [exact Hen |].
  split; [reflexivity |].
  pose proof (check_all_risks_episode (mkSt m0 x t)) as He0.
  unfold episode in He0. cbn [comp] in He0. rewrite Hclear in He0.
  exact He0.
Qed.

End Claim.

(** The amended statement on the run above: the flag set by the first
    cycle is still set after the second and after a third, which calls
    cancel-all no more; the first cycle, started with the flag clear,
    called it once. *)
Lemma C5_emergency_stop_witness :
  emergency_stop_triggered (comp second_cycle) = true /\
  cancel_alls (snd (check_all_risks
                      (mkSt (comp second_cycle)
                            (Mock.with_now 3000 (ext second_cycle))
                            (trace second_cycle))))
    = cancel_alls second_cycle.
Proof.
  assert (Hrun : cycles (X := Mock.World) (comp first_cycle) (comp second_cycle)).
  { apply cycles_more with (m' := comp first_cycle); [apply cycles_none |].
    exists (Mock.with_now 2000 (ext first_cycle)), (trace first_cycle).
    vm_compute. reflexivity. }
  destruct (C5_emergency_stop (comp first_cycle) (comp second_cycle)
              (comp initialized)
              (Mock.with_now 3000 (ext second_cycle)) (trace second_cycle)
              eq_refl Hrun eq_refl)
    as [Hflag [_ [Hca _]]].
  split; [exact Hflag | exact Hca].
Defined.

End C5.

(** ** The daily loss limit (C6) *)

Module C6.
Import RiskManager.

Section Daily.
Context {X : Type} `{BaseExchange X} `{BaseNotifier X} `{Clock X}.



End Daily.



End C6.

(** ** Profit on a fill (C7) *)

Module C7.
Import GridEngine Release.


Section Fill.
Context {X : Type} `{BaseExchange X} `{BaseNotifier X} `{Clock X}.





End Fill.

(** The scenario of the claim: base price 100000, grid size 2 %, and
    the sell order of the level at 102000 reported filled, 0.01 at
    101000. *)
Definition scenario : St Engine Mock.World :=
  Eval vm_compute in
  mkSt (_initialize_grid_levels (Runs.engine_at 100000 2)) Mock.calm [].



End C7.

(** ** The directional guard (C8) *)

Module C8.
Import GridEngine PyFacts.



Section Guard.
Context {X : Type} `{BaseExchange X} `{BaseNotifier X} `{Clock X}.
Variable current : Q.






End Guard.


Section Tick.
Context {X : Type} `{BaseExchange X} `{BaseNotifier X} `{Clock X}.
Variable current : Q.








End Tick.

Section Claim.
Context {X : Type} `{BaseExchange X} `{BaseNotifier X} `{Clock X}.



End Claim.

(** The scenario of the claim: base price 100000, grid size 2 %, the
    price now at 100500, and enough of both assets to trade. *)
Definition scenario : St Engine Mock.World :=
  Eval vm_compute in
  snd ((GridEngine._initialize_grid ;;
        GridEngine._update_market_data Runs.no_volatility ;;
        GridEngine._update_grid_state)
       (mkSt (GridEngine.init
                {| trading := trading Mock.default_settings;
                   grid := grid Mock.default_settings;
                   risk := risk Mock.default_settings;
                   data := data Mock.default_settings;
                   initial_base_price := 100000 |}
                true Mock.no_data)
             {| Mock.now := 1000; Mock.ticker := Some 100500;
                Mock.balance := Mock.balance Mock.calm;
                Mock.position := None; Mock.account_values := [];
                Mock.futures := false; Mock.failing_cancels := [];
                Mock.cancel_all_ok := true; Mock.notify_ok := true;
                Mock.create_ok := true; Mock.statuses := [];
                Mock.next_order := 0 |} [])).


End C8.

(** ** Saving and loading the state (C9) *)

Module C9.
Import GridEngine EngineFacts.

Section RoundTrip.
Context {X : Type} `{BaseExchange X} `{BaseNotifier X} `{Clock X}.

(** C9: with no base price configured ([initial_base_price = 0]), an
    engine that loads from the store another engine (or itself) has just
    saved to ends up with the saver's [base_price], [grid_size],
    [total_profit] and [trade_count]. *)
Theorem C9_save_load_round_trip
  (e e2 : Engine) (x x2 : X) (t t2 : list Call) :
  initial_base_price (settings e2) == 0 ->
  data_manager e2 = data_manager (comp (snd (_save_state (mkSt e x t)))) ->
  base_price (grid_state (comp (snd (_load_state (mkSt e2 x2 t2)))))
    = base_price (grid_state e) /\
  grid_size (grid_state (comp (snd (_load_state (mkSt e2 x2 t2)))))
    = grid_size (grid_state e) /\
  total_profit (comp (snd (_load_state (mkSt e2 x2 t2)))) = total_profit e /\
  trade_count (comp (snd (_load_state (mkSt e2 x2 t2)))) = trade_count e.
Proof.
  intros Hconf Hstore.
  rewrite save_state_engine in Hstore. cbn in Hstore.
  unfold _load_state.
  cbv [bind try_except gets modify ret fst snd]. cbn [comp].
  unfold load_state. rewrite Hstore.
  cbn [dm_state save_state state_truthy sd_base_price].
  cbv [bind try_except gets modify ret fst snd]. cbn [comp].
  assert (Hno : Qgtb (initial_base_price (settings e2)) 0 = false).
  { apply Qgtb_le. rewrite Hconf. apply Qle_refl. }
  rewrite Hno. cbn. repeat split; reflexivity.
Qed.

End RoundTrip.

(** An engine with a profit of 10 after one trade saves its state; a
    fresh engine over the same store loads it. *)
Definition saver : St Engine Mock.World :=
  Eval vm_compute in
  mkSt (set_total_profit 10 (set_trade_count 1 (comp Runs.trading)))
       Mock.calm [].

Definition loader : St Engine Mock.World :=
  Eval vm_compute in
  mkSt (GridEngine.init Mock.default_settings true
          (data_manager (comp (snd (_save_state saver)))))
       Mock.calm [].

Lemma C9_save_load_round_trip_witness :
  base_price (grid_state (comp (snd (_load_state loader))))
    = base_price (grid_state (comp saver)) /\
  total_profit (comp (snd (_load_state loader))) = total_profit (comp saver) /\
  trade_count (comp (snd (_load_state loader))) = 1%Z.
Proof.
  destruct (C9_save_load_round_trip (comp saver) (comp loader)
              (ext saver) (ext loader) (trace saver) (trace loader)
              ltac:(vm_compute; reflexivity) ltac:(vm_compute; reflexivity))
    as [Hbase [_ [Hprofit Hcount]]].
  split; [exact Hbase |]. split; [exact Hprofit | exact Hcount].
Defined.

End C9.

(** ** A zero total balance (C10) *)

Module C10.
Import RiskManager PyFacts.

Section Zero.
Context {X : Type} `{BaseExchange X} `{BaseNotifier X} `{Clock X}.

Lemma safe_divide_zero (numerator denominator : Q) :
  denominator == 0 -> safe_divide numerator denominator = 0.
Proof.
  intro Hz. unfold safe_divide.
  apply Qeq_bool_iff in Hz. rewrite Hz. reflexivity.
Qed.

(** The reads leave the manager alone. *)
Lemma read_position_manager (s : St Manager X) :
  comp (snd (read_position s)) = comp s.
Proof.
  unfold read_position.
  cbv [bind call gets ask ret].
  destruct (get_balance (ext s)) as [[b |] x1]; [| reflexivity].
  cbn -[asset_get split_base pyabs Qmult Qplus].
  destruct (is_futures_mode x1); cbn [ext].
  - destruct (get_position x1) as [[pos |] x2]; reflexivity.
  - destruct (get_ticker x1) as [[price |] x2]; reflexivity.
Qed.

(** C10: when the balance and position reads give a total balance of
    zero, the position-limit check completes with no error: the position
    ratio is the default 0 of [safe_divide], no failure is logged, and
    the alerts are those of the two threshold comparisons made against
    0: none for the maximum when it is not negative, and the
    below-minimum alert when the minimum is positive. *)
Theorem C10_zero_total_balance
  (m : Manager) (x : X) (t : list Call)
  (position_value total_balance : Q) (s1 : St Manager X) :
  read_position (mkSt m x t) = (Ok (position_value, total_balance), s1) ->
  total_balance == 0 ->
  safe_divide position_value total_balance = 0 /\
  fst (_check_position_limits (mkSt m x t))
    = Ok (position_alerts 0 (risk (settings m)) (time_time (ext s1))) /\
  current_position_ratio (comp (snd (_check_position_limits (mkSt m x t)))) = 0 /\
  trace (snd (_check_position_limits (mkSt m x t))) = trace s1 /\
  (0 <= max_position_ratio (risk (settings m)) ->
   forall a, In a (position_alerts 0 (risk (settings m)) (time_time (ext s1))) ->
             alert_type a <> "POSITION_LIMIT_EXCEEDED"%string) /\
  (0 < min_position_ratio (risk (settings m)) ->
   exists a, In a (position_alerts 0 (risk (settings m)) (time_time (ext s1))) /\
             alert_type a = "POSITION_BELOW_MINIMUM"%string /\
             current_value a = 0).
Proof.
  intros Hread Hzero.
  pose proof (read_position_manager (mkSt m x t)) as Hm.
  rewrite Hread in Hm. cbn [snd comp] in Hm.
  pose proof (safe_divide_zero position_value total_balance Hzero) as Hdiv.
  split; [exact Hdiv |].
  assert (Hrun : _check_position_limits (mkSt m x t) =
                 (Ok (position_alerts 0 (risk (settings m)) (time_time (ext s1))),
                  mkSt (set_current_position_ratio 0 m) (ext s1) (trace s1))).
  { unfold _check_position_limits, try_except, bind at 1.
    rewrite Hread. cbn [fst snd]. rewrite Hdiv.
    cbv [bind modify gets ask ret]. cbn [comp ext trace].
    rewrite Hm. reflexivity. }
  rewrite Hrun. cbn [fst snd comp trace].
  split; [reflexivity |]. split; [reflexivity |]. split; [reflexivity |].
  unfold position_alerts. split.
  - intros Hmax a Hin.
    assert (Hno : Qgtb 0 (max_position_ratio (risk (settings m))) = false)
      by (apply Qgtb_le; exact Hmax).
    rewrite Hno in Hin. simpl in Hin.
    destruct (Qltb 0 (min_position_ratio (risk (settings m))));
      [| contradiction].
    destruct Hin as [Ha | []]. subst a. simpl. discriminate.
  - intro Hmin. apply Qltb_lt in Hmin. rewrite Hmin.
    eexists. split; [apply in_or_app; right; left; reflexivity |].
    split; reflexivity.
Qed.

End Zero.

(** An empty spot account: no BNB, no USDT. *)
Definition empty_account : St Manager Mock.World :=
  Eval vm_compute in
  mkSt (RiskManager.init Mock.default_settings true)
       (Mock.with_balance (Some {| bal_free := []; bal_total := [] |}) Mock.calm)
       [].

(** On the empty account the check completes, the ratio is 0, and the
    one alert is the below-minimum one. *)
Lemma C10_zero_total_balance_witness :
  current_position_ratio (comp (snd (_check_position_limits empty_account))) = 0 /\
  exists a,
    In a (position_alerts 0 (risk (settings (comp empty_account)))
            (time_time (ext (snd (read_position empty_account))))) /\
    alert_type a = "POSITION_BELOW_MINIMUM"%string /\ current_value a = 0.
Proof.
  assert (Hread : read_position
                    (mkSt (comp empty_account) (ext empty_account)
                          (trace empty_account))
                  = (Ok (0 * 100, 0 * 100 + 0), snd (read_position empty_account)))
    by (vm_compute; reflexivity).
  assert (Hzero : 0 * 100 + 0 == 0) by reflexivity.
  assert (Hmin : 0 < min_position_ratio (risk (settings (comp empty_account))))
    by reflexivity.
  destruct (C10_zero_total_balance _ _ _ _ _ _ Hread Hzero)
    as [_ [_ [Hratio [_ [_ Hbelow]]]]].
  split; [exact Hratio | exact (Hbelow Hmin)].
Defined.

End C10.

(** * Further properties of the code *)

(** ** Order amounts and order placement *)

Module Orders.
Import GridEngine DictFacts DictMore.



Section Facts.
Context {X : Type} `{BaseExchange X} `{BaseNotifier X} `{Clock X}.

(** The price an amount is computed for. *)
Definition order_price (e : Engine) (price : option Q) : Q :=
  match price with Some p => p | None => current_price (grid_state e) end.

(** [_calculate_order_amount] never raises and leaves the engine as it
    was: whatever the exchange answers (a failed balance read, a zero
    price in the division) it returns an amount, and that amount is
    either the literal 0 or worth at least [min_trade_amount] at the
    order price. *)
Theorem calculate_order_amount_never_raises
  (sd : Side) (price : option Q) (s : St Engine X) :
  exists amount,
    fst (_calculate_order_amount sd price s) = Ok amount /\
    comp (snd (_calculate_order_amount sd price s)) = comp s /\
    (amount = 0 \/
     min_trade_amount (trading (settings (comp s)))
       <= amount * order_price (comp s) price).
Proof.
  unfold _calculate_order_amount, try_except.
  cbv [bind call gets ask ret log_error record].
  destruct (get_balance (ext s)) as [[b |] x1]; cbn [comp ext trace fst snd].
  2:{ exists 0. repeat split. left. reflexivity. }
  destruct sd.
  - unfold pydiv.
    destruct (Qeq_bool _ 0); cbv [raise ret]; cbn [comp ext trace fst snd].
    + exists 0. repeat split. left. reflexivity.
    + match goal with |- context [if Qltb ?a ?b then _ else _] =>
        destruct (Qltb a b) eqn:E end; cbn [fst snd comp].
      * exists 0. repeat split. left. reflexivity.
      * eexists. split; [reflexivity |]. split; [reflexivity |].
        right. apply Qltb_ge in E. exact E.
  - match goal with |- context [if Qltb ?a ?b then _ else _] =>
      destruct (Qltb a b) eqn:E end; cbn [fst snd comp].
    + exists 0. repeat split. left. reflexivity.
    + eexists. split; [reflexivity |]. split; [reflexivity |].
      right. apply Qltb_ge in E. exact E.
Qed.


Lemma calculate_order_amount_engine
  (sd : Side) (price : option Q) (s : St Engine X) :
  comp (snd (_calculate_order_amount sd price s)) = comp s /\
  exists amount, fst (_calculate_order_amount sd price s) = Ok amount.
Proof.
  unfold _calculate_order_amount, try_except.
  cbv [bind call gets ask ret log_error record].
  destruct (get_balance (ext s)) as [[b |] x1]; cbn [comp ext trace fst snd].
  2:{ split; [reflexivity | eexists; reflexivity]. }
  destruct sd.
  - unfold pydiv.
    destruct (Qeq_bool _ 0); cbv [raise ret]; cbn [comp ext trace fst snd].
    + split; [reflexivity | eexists; reflexivity].
    + match goal with |- context [if Qltb ?a ?b then _ else _] =>
        destruct (Qltb a b) end; cbn [fst snd comp];
        (split; [reflexivity | eexists; reflexivity]).
  - match goal with |- context [if Qltb ?a ?b then _ else _] =>
      destruct (Qltb a b) end; cbn [fst snd comp];
      (split; [reflexivity | eexists; reflexivity]).
Qed.

(** [_execute_grid_order] on a level of the table never raises.  With
    no amount to trade it changes nothing.  When the exchange refuses
    the order, the level keeps its occupancy, no active order is
    recorded, [last_attempt] is set to the time of the failure, and
    until the cooldown has passed the signal loop passes over the level
    without a call.  When the exchange accepts it, the level is
    occupied and the order is recorded under the level price, whether
    or not the notification that follows succeeds. *)
Theorem execute_grid_order_outcome
  (p : Q) (sd : Side) (l : GridLevel) (s : St Engine X) (amount : Q) :
  Dict.get (grid_levels (comp s)) p = Some l ->
  fst (_calculate_order_amount sd (Some p) s) = Ok amount ->
  let s1 := snd (_calculate_order_amount sd (Some p) s) in
  let answer := create_limit_order sd amount p (ext s1) in
  let s' := snd (_execute_grid_order p sd s) in
  fst (_execute_grid_order p sd s) = Ok tt /\
  (amount <= 0 -> s' = s1) /\
  (0 < amount ->
   match fst answer with
   | None =>
       Dict.get (grid_levels (comp s')) p
         = Some (with_last_attempt (time_time (snd answer)) l) /\
       active_orders (comp s') = active_orders (comp s) /\
       forall current_price current_time,
         current_time - time_time (snd answer) < failed_order_cooldown (comp s) ->
         occupied l = false ->
         check_one_level current_price current_time p s' = (Ok tt, s')
   | Some order =>
       exists l',
         Dict.get (grid_levels (comp s')) p = Some l' /\
         occupied l' = true /\
         Dict.get (active_orders (comp s')) p = Some order
   end).
Proof.
  intros Hget Hamount s1 answer s'.
  destruct (calculate_order_amount_engine sd (Some p) s) as [Hcomp _].
  fold s1 in Hcomp.
  assert (Hrun : _execute_grid_order p sd s =
    match _calculate_order_amount sd (Some p) s with
    | (Ok a, s1) =>
        try_except
          (if Qle_bool a 0 then ret tt
           else
             order <- call (CCreateLimitOrder sd a p) (create_limit_order sd a p) ;;
             update_level p (with_occupied true) ;;
             modify (fun e => set_active_orders
                                (Dict.set (active_orders e) p order) e) ;;
             notify_if_configured
               (NTradeExecution sd p a (a * p) None))
          (log_error "Failed to execute grid order" ;;
           now <- ask time_time ;;
           update_level p (with_last_attempt now)) s1
    | (Raised, s1) =>
        (log_error "Failed to execute grid order" ;;
         now <- ask time_time ;;
         update_level p (with_last_attempt now)) s1
    end).
  { unfold _execute_grid_order, try_except, bind at 1.
    destruct (_calculate_order_amount sd (Some p) s) as [[a |] s2]; reflexivity. }
  subst s'. rewrite Hrun. clear Hrun.
  subst answer.
  revert Hcomp. subst s1.
  destruct (_calculate_order_amount sd (Some p) s) as [r s1].
  cbn [fst snd] in *. subst r. intro Hcomp.
  destruct s1 as [e1 x1 t1]. cbn [comp ext] in *. subst e1.
  unfold try_except.
  destruct (Qle_bool amount 0) eqn:Ele.
  - cbv [ret]. cbn [fst snd].
    split; [reflexivity |]. split; [reflexivity |].
    intro Hpos. apply Qle_bool_iff in Ele. exfalso. lra.
  - assert (Hnle : ~ amount <= 0).
    { intro Hle. apply Qle_bool_iff in Hle. congruence. }
    cbv [bind call update_level gets lookup modify ret raise log_error record
         ask notify_if_configured call_unit].
    cbn [comp ext trace].
    destruct (create_limit_order sd amount p x1) as [[order |] x2];
      cbn [comp ext trace fst snd]; rewrite Hget; cbn [comp ext trace fst snd].
    + cbn [comp ext trace fst snd has_notifier set_active_orders set_grid_levels grid_levels active_orders].
      destruct (has_notifier (comp s)) eqn:Hn; cbn [comp ext trace fst snd has_notifier set_active_orders set_grid_levels grid_levels active_orders].
      * match goal with |- context [notify ?n ?x] => destruct (notify n x) as [[|] x3] end; cbn [comp ext trace fst snd grid_levels set_active_orders set_grid_levels active_orders].
        -- split; [reflexivity |]. split; [intro; contradiction |].
           intros _. eexists. rewrite get_set_same.
           split; [reflexivity |]. split; [reflexivity |].
           apply get_set_same.
        -- rewrite get_set_same. cbn [comp ext trace fst snd grid_levels set_active_orders set_grid_levels active_orders].
           split; [reflexivity |]. split; [intro; contradiction |].
           intros _. eexists. rewrite get_set_same.
           split; [reflexivity |]. split; [reflexivity |].
           apply get_set_same.
      * split; [reflexivity |]. split; [intro; contradiction |].
        intros _. eexists. rewrite get_set_same.
        split; [reflexivity |]. split; [reflexivity |].
        apply get_set_same.
    + split; [reflexivity |]. split; [intro; contradiction |].
      intros _. cbn [grid_levels set_grid_levels active_orders].
      rewrite get_set_same.
      split; [reflexivity |]. split; [reflexivity |].
      intros cur now Hcool Hfree.
      unfold check_one_level.
      cbv [bind gets lookup ret]. cbn [comp grid_levels set_grid_levels].
      rewrite get_set_same. cbn [fst snd comp failed_order_cooldown set_grid_levels
                                 occupied last_attempt with_last_attempt].
      rewrite Hfree.
      apply Qltb_lt in Hcool. rewrite Hcool. reflexivity.
Qed.

End Facts.


Definition sell_at_102 : Q :=
  Eval vm_compute in
  match fst (_calculate_order_amount Sell (Some 102) Runs.started) with
  | Ok a => a
  | Raised => 0
  end.


Lemma execute_grid_order_outcome_witness :
  fst (_execute_grid_order 102 Sell Runs.started) = Ok tt /\
  exists l',
    Dict.get (grid_levels (comp (snd (_execute_grid_order 102 Sell Runs.started))))
             102 = Some l' /\
    occupied l' = true /\
    Dict.get (active_orders (comp (snd (_execute_grid_order 102 Sell Runs.started))))
             102 = Some (Some {| order_id := "A" |}).
Proof.
  assert (Hget : Dict.get (grid_levels (comp Runs.started)) 102 =
                 Some {| side := Sell; level := 1; occupied := false;
                         last_attempt := 0 |})
    by (vm_compute; reflexivity).
  assert (Hamount : fst (_calculate_order_amount Sell (Some 102) Runs.started)
                    = Ok sell_at_102)
    by (vm_compute; reflexivity).
  destruct (execute_grid_order_outcome 102 Sell _ Runs.started sell_at_102
              Hget Hamount) as [Hok [_ Hplaced]].
  split; [exact Hok |].
  exact (Hplaced eq_refl).
Defined.

End Orders.

(** ** The saved state and a configured base price *)

Module Override.
Import GridEngine EngineFacts.

Section Facts.
Context {X : Type} `{BaseExchange X} `{BaseNotifier X} `{Clock X}.


End Facts.




End Override.

(** ** Market data *)

Module Market.
Import GridEngine.




Section Facts.
Context {X : Type} `{BaseExchange X} `{BaseNotifier X} `{Clock X}.
Variable calculate_volatility : list Q -> nat -> Q.


End Facts.
End Market.

(** ** Grid size and bands *)

Module GridSize.
Import GridEngine EngineFacts.

Section Facts.
Context {X : Type} `{BaseExchange X} `{BaseNotifier X} `{Clock X}.


End Facts.


End GridSize.

(** ** Rebuilding the level table *)

Module Rebuild.
Import GridEngine DictFacts.

(** An assignment keeps the oldest key in front. *)
Lemma set_keeps_first {V} (d : Dict.t V) (k0 k : Q) (v0 v : V) :
  exists v' r, Dict.set ((k0, v0) :: d) k v = (k0, v') :: r.
Proof.
  simpl. destruct (Qeq_bool k0 k); eexists; eexists; reflexivity.
Qed.

Lemma set_forall {V} (P : V -> Prop) (d : Dict.t V) (k : Q) (v : V) :
  Forall (fun kv => P (snd kv)) d -> P v ->
  Forall (fun kv => P (snd kv)) (Dict.set d k v).
Proof.
  intros Hd Hv. induction d as [| [k' v'] r IH]; simpl.
  - constructor; [exact Hv | constructor].
  - inversion Hd; subst. destruct (Qeq_bool k' k); constructor; auto.
Qed.

Lemma fold_keeps_first (base gd : Q) (l : list Z) (d : Dict.t GridLevel)
  (k0 : Q) (v0 : GridLevel) :
  exists v' r,
    fold_left (add_level base gd) l ((k0, v0) :: d) = (k0, v') :: r.
Proof.
  revert d v0. induction l as [| i l IH]; intros d v0; simpl.
  - eexists; eexists; reflexivity.
  - unfold add_level at 2. destruct (i =? 0)%Z; [apply IH |].
    destruct (set_keeps_first d k0 (level_price base gd i) v0 (new_level i))
      as [v' [r Hset]].
    rewrite Hset. apply IH.
Qed.

Lemma fold_unoccupied (base gd : Q) (l : list Z) (d : Dict.t GridLevel) :
  Forall (fun kv => occupied (snd kv) = false) d ->
  Forall (fun kv => occupied (snd kv) = false)
         (fold_left (add_level base gd) l d).
Proof.
  revert d. induction l as [| i l IH]; intros d Hd; simpl; [exact Hd |].
  apply IH. unfold add_level. destruct (i =? 0)%Z; [exact Hd |].
  apply (set_forall (fun v => occupied v = false)); [exact Hd | reflexivity].
Qed.

(** A table built from nothing starts with the level five steps down. *)
Lemma build_first (base g : Q) :
  exists v r,
    build_levels base g [] = (level_price base (g / 100) (-5), v) :: r.
Proof.
  unfold build_levels.
  change (range (-5) 6) with ((-5)%Z :: range (-4) 6).
  cbn [fold_left]. unfold add_level at 2. cbn [Z.eqb Dict.set].
  apply fold_keeps_first.
Qed.

Lemma build_unoccupied (base g : Q) :
  Forall (fun kv => occupied (snd kv) = false) (build_levels base g []).
Proof. unfold build_levels. apply fold_unoccupied. constructor. Qed.

Lemma pyabs_self (k : Q) : Qltb 1 (pyabs (k - k)) = false.
Proof.
  apply Qltb_ge. unfold pyabs.
  destruct (Qltb (k - k) 0) eqn:E.
  - apply Qltb_lt in E. lra.
  - lra.
Qed.

Definition fresh_table (e : Engine) : Dict.t GridLevel :=
  build_levels (base_price (grid_state e)) (grid_size (grid_state e)) [].

Lemma initialize_table (e : Engine) :
  _initialize_grid_levels e =
  match grid_levels e with
  | [] => set_grid_levels (fresh_table e) e
  | (first_level, _) :: _ =>
      if Qltb 1 (pyabs (first_level
                        - level_price (base_price (grid_state e))
                            (grid_size (grid_state e) / 100) (-5)))
      then set_grid_levels (fresh_table e) e
      else e
  end.
Proof.
  unfold _initialize_grid_levels, fresh_table. cbn [_initialize_grid_levels_rec].
  destruct (grid_levels e) as [| [k v] r]; [reflexivity |].
  destruct (Qltb 1 _); reflexivity.
Qed.

Lemma fresh_table_first (e : Engine) :
  exists v r,
    fresh_table e =
    (level_price (base_price (grid_state e)) (grid_size (grid_state e) / 100) (-5), v)
      :: r.
Proof.
  unfold fresh_table.
  exact (build_first (base_price (grid_state e)) (grid_size (grid_state e))).
Qed.

Lemma initialize_fresh (e : Engine) :
  _initialize_grid_levels (set_grid_levels (fresh_table e) e)
  = set_grid_levels (fresh_table e) e.
Proof.
  rewrite initialize_table.
  cbn [grid_levels set_grid_levels grid_state].
  destruct (fresh_table_first e) as [v [r Hb]].
  rewrite Hb at 1. rewrite pyabs_self. reflexivity.
Qed.

Lemma initialize_cases (e : Engine) :
  (_initialize_grid_levels e = e /\ grid_levels e <> []) \/
  _initialize_grid_levels e = set_grid_levels (fresh_table e) e.
Proof.
  rewrite initialize_table.
  destruct (grid_levels e) as [| [k v] r]; [right; reflexivity |].
  destruct (Qltb 1 _); [right; reflexivity |].
  left. split; [reflexivity | discriminate].
Qed.

Lemma initialize_from_empty (e : Engine) :
  grid_levels e = [] ->
  _initialize_grid_levels e = set_grid_levels (fresh_table e) e.
Proof. intro Hd. rewrite initialize_table. rewrite Hd. reflexivity. Qed.

(** [_initialize_grid_levels] either keeps the table or replaces it by
    a freshly built one, in which no level is occupied; the active
    orders and the grid state stay as they are in both cases, so a
    rebuild forgets which levels hold an order.  The table is never
    empty afterwards, and a second call right after the first changes
    nothing. *)
Theorem initialize_grid_levels_idempotent (e : Engine) :
  let e' := _initialize_grid_levels e in
  _initialize_grid_levels e' = e' /\
  (grid_levels e' = grid_levels e \/
   (grid_levels e' = fresh_table e /\
    Forall (fun kv => occupied (snd kv) = false) (grid_levels e'))) /\
  active_orders e' = active_orders e /\
  grid_state e' = grid_state e /\
  (grid_levels e = [] -> grid_levels e' = fresh_table e) /\
  grid_levels e' <> [].
Proof.
  intro e'. subst e'.
  pose proof (initialize_from_empty e) as Hempty.
  destruct (initialize_cases e) as [[Hsame Hne] | Hnew].
  - rewrite Hsame in *.
    split; [exact Hsame |]. split; [left; reflexivity |].
    split; [reflexivity |]. split; [reflexivity |].
    split; [intro Hd; contradiction | exact Hne].
  - clear Hempty. rewrite Hnew. split; [exact (initialize_fresh e) |].
    cbn [grid_levels set_grid_levels active_orders grid_state].
    split; [right; split; [reflexivity |] |].
    { unfold fresh_table.
      exact (build_unoccupied (base_price (grid_state e)) (grid_size (grid_state e))). }
    split; [reflexivity |]. split; [reflexivity |]. split; [reflexivity |].
    destruct (fresh_table_first e) as [v [r Hb]]. rewrite Hb. discriminate.
Qed.

End Rebuild.

(** ** Risk alerts *)

Module Alerts.
Import RiskManager PyFacts.

Lemma last_n_bound {A} (n : nat) (l : list A) :
  (n < List.length l)%nat -> List.length (last_n n l) = n.
Proof. intro Hn. unfold last_n. rewrite length_skipn. lia. Qed.

Lemma last_n_is_suffix {A} (n : nat) (l : list A) :
  exists dropped, l = dropped ++ last_n n l.
Proof.
  exists (firstn (List.length l - n) l). unfold last_n.
  symmetry. apply firstn_skipn.
Qed.

Section Facts.
Context {X : Type} `{BaseExchange X} `{BaseNotifier X} `{Clock X}.

(** An alert the logger has a method for: recorded, then notified. *)
Lemma process_one_ok (a : RiskAlert) (s s1 : St Manager X) :
  process_one_alert a s = (Ok tt, s1) ->
  severity a = Critical /\
  active_alerts (comp s1) = active_alerts (comp s) ++ [a] /\
  risk_history (comp s1) = risk_history (comp s) ++ [a].
Proof.
  unfold process_one_alert.
  cbv [bind modify gets ret raise call_unit call]. cbn [comp ext trace].
  destruct (severity a) eqn:Es; cbn [logger_has_method]; try discriminate.
  cbn [has_notifier set_alerts comp].
  destruct (has_notifier (comp s)).
  - match goal with |- context [notify ?n ?x] =>
      destruct (notify n x) as [[|] x1] end; intro E; inversion E; subst.
    repeat split; reflexivity.
  - intro E; inversion E; subst. repeat split; reflexivity.
Qed.

(** An alert the logger has no method for: recorded, and nothing more. *)
Lemma process_one_unloggable (a : RiskAlert) (s : St Manager X) :
  severity a <> Critical ->
  process_one_alert a s =
  (Raised, mkSt (set_alerts (active_alerts (comp s) ++ [a])
                            (risk_history (comp s) ++ [a]) (comp s))
                (ext s) (trace s)).
Proof.
  intro Hs. unfold process_one_alert.
  cbv [bind modify gets ret raise call_unit call]. cbn [comp ext trace].
  destruct (severity a); cbn [logger_has_method]; try reflexivity.
  contradiction.
Qed.

Lemma process_all_ok (alerts : list RiskAlert) :
  forall s s1 : St Manager X,
    for_each alerts process_one_alert s = (Ok tt, s1) ->
    Forall (fun a => severity a = Critical) alerts /\
    active_alerts (comp s1) = active_alerts (comp s) ++ alerts /\
    risk_history (comp s1) = risk_history (comp s) ++ alerts.
Proof.
  induction alerts as [| a r IH]; intros s s1; simpl.
  - cbv [ret]. intro E; inversion E; subst. rewrite !app_nil_r.
    repeat split. constructor.
  - unfold bind. destruct (process_one_alert a s) as [[[] |] s2] eqn:E1;
      [| discriminate].
    intro E2. destruct (process_one_ok _ _ _ E1) as [Hs [Ha Hh]].
    destruct (IH _ _ E2) as [Hall [Ha' Hh']].
    split; [constructor; assumption |].
    rewrite Ha', Hh', Ha, Hh, <- !app_assoc. split; reflexivity.
Qed.

(** [_process_alerts] looks the log method up by the alert's severity,
    and the logger has no method named [low], [medium] or [high]: at the
    first alert that is not critical the call raises.  That alert has
    been added to [active_alerts] and [risk_history] already; no
    notification is sent for it, and the alerts after it are neither
    recorded nor notified. *)
Theorem process_alerts_stops_at_unloggable
  (pre post : list RiskAlert) (a : RiskAlert) (s s1 : St Manager X) :
  for_each pre process_one_alert s = (Ok tt, s1) ->
  severity a <> Critical ->
  let run := _process_alerts (pre ++ a :: post) s in
  fst run = Raised /\
  active_alerts (comp (snd run)) = active_alerts (comp s) ++ pre ++ [a] /\
  risk_history (comp (snd run)) = risk_history (comp s) ++ pre ++ [a] /\
  ext (snd run) = ext s1 /\
  trace (snd run) = trace s1.
Proof.
  intros Hpre Hsev run.
  destruct (process_all_ok _ _ _ Hpre) as [_ [Ha Hh]].
  assert (Hrun : run =
    (Raised, mkSt (set_alerts (active_alerts (comp s1) ++ [a])
                              (risk_history (comp s1) ++ [a]) (comp s1))
                  (ext s1) (trace s1))).
  { subst run. unfold _process_alerts. unfold bind at 1.
    rewrite for_each_app, Hpre.
    cbn [for_each]. unfold bind at 1.
    rewrite (process_one_unloggable a s1 Hsev). reflexivity. }
  rewrite Hrun.
  cbn [fst snd comp ext trace active_alerts risk_history set_alerts].
  rewrite Ha, Hh, <- !app_assoc. repeat split; reflexivity.
Qed.

(** Alerts that were all processed were all critical. *)
Lemma process_alerts_critical
  (alerts : list RiskAlert) (s s' : St Manager X) :
  _process_alerts alerts s = (Ok tt, s') ->
  Forall (fun a => severity a = Critical) alerts.
Proof.
  unfold _process_alerts. unfold bind at 1.
  destruct (for_each alerts process_one_alert s) as [[[] |] s1] eqn:E;
    [| discriminate].
  intros _. exact (proj1 (process_all_ok _ _ _ E)).
Qed.

(** When [_process_alerts] returns, [risk_history] holds at most 100
    alerts, the most recent ones of the old history followed by the new
    alerts, whatever its length was before; [active_alerts] is the old
    list followed by the new alerts and is never trimmed. *)
Theorem process_alerts_history_cap
  (alerts : list RiskAlert) (s s' : St Manager X) :
  _process_alerts alerts s = (Ok tt, s') ->
  (List.length (risk_history (comp s')) <= 100)%nat /\
  (exists dropped,
     risk_history (comp s) ++ alerts = dropped ++ risk_history (comp s')) /\
  active_alerts (comp s') = active_alerts (comp s) ++ alerts.
Proof.
  unfold _process_alerts. unfold bind at 1.
  destruct (for_each alerts process_one_alert s) as [[[] |] s1] eqn:E;
    [| discriminate].
  destruct (process_all_ok _ _ _ E) as [_ [Ha Hh]].
  cbv [modify]. intro E'. inversion E'; subst s'. clear E'.
  cbn [comp].
  destruct (100 <? List.length (risk_history (comp s1)))%nat eqn:El;
    cbn [risk_history active_alerts set_alerts].
  - apply Nat.ltb_lt in El.
    split; [rewrite last_n_bound; [lia | exact El] |].
    split; [rewrite <- Hh; apply last_n_is_suffix | exact Ha].
  - apply Nat.ltb_ge in El.
    split; [exact El |].
    split; [exists []; rewrite Hh; reflexivity | exact Ha].
Qed.

End Facts.

(** What a stretch of execution leaves as it was: the time of the last
    completed check. *)
Definition keeps_check {X} (s s' : St Manager X) : Prop :=
  last_risk_check (comp s') = last_risk_check (comp s).

Lemma keeps_check_refl {X} (s : St Manager X) : keeps_check s s.
Proof. reflexivity. Qed.

Lemma keeps_check_trans {X} (s1 s2 s3 : St Manager X) :
  keeps_check s1 s2 -> keeps_check s2 s3 -> keeps_check s1 s3.
Proof. unfold keeps_check. congruence. Qed.

Ltac keeps_step :=
  first
    [ apply (Sat.sat_ret keeps_check keeps_check_refl)
    | apply (Sat.sat_raise keeps_check keeps_check_refl)
    | apply (Sat.sat_gets keeps_check keeps_check_refl)
    | apply (Sat.sat_ask keeps_check keeps_check_refl)
    | apply (Sat.sat_try_except keeps_check keeps_check_trans)
    | apply (Sat.sat_bind keeps_check keeps_check_trans); [| intro]
    | apply (Sat.sat_call keeps_check); intros; reflexivity
    | apply (Sat.sat_call_unit keeps_check); intros; reflexivity
    | apply (Sat.sat_log_error keeps_check); intros; reflexivity
    | apply (Sat.sat_modify keeps_check); intro; unfold keeps_check;
      cbn [comp]; repeat destruct_inner_if; reflexivity
    | match goal with
      | |- Sat.sat _ (if ?b then _ else _) => destruct b
      | |- Sat.sat _ (match ?o with _ => _ end) => destruct o
      end ].

Section Cycle.
Context {X : Type} `{BaseExchange X} `{BaseNotifier X} `{Clock X}.

Lemma update_portfolio_metrics_keeps :
  Sat.sat keeps_check _update_portfolio_metrics.
Proof. unfold _update_portfolio_metrics. repeat keeps_step. Qed.

Lemma check_position_limits_keeps : Sat.sat keeps_check _check_position_limits.
Proof. unfold _check_position_limits, read_position. repeat keeps_step. Qed.

Lemma check_drawdown_limits_keeps : Sat.sat keeps_check _check_drawdown_limits.
Proof. unfold _check_drawdown_limits. repeat keeps_step. Qed.

Lemma check_daily_limits_keeps : Sat.sat keeps_check _check_daily_limits.
Proof. unfold _check_daily_limits. repeat keeps_step. Qed.

Lemma emergency_loop_keeps (conds : list (bool * string)) :
  forall alerts, Sat.sat keeps_check (emergency_loop conds alerts).
Proof.
  induction conds as [| [condition name] rest IH]; intro alerts; simpl.
  - keeps_step.
  - destruct condition; [| apply IH].
    apply (Sat.sat_bind keeps_check keeps_check_trans); [keeps_step | intro now].
    apply (Sat.sat_bind keeps_check keeps_check_trans);
      [keeps_step | intro stopped].
    apply (Sat.sat_bind keeps_check keeps_check_trans); [| intros _; apply IH].
    destruct stopped; [keeps_step |].
    unfold _trigger_emergency_stop. repeat keeps_step.
Qed.

Lemma check_emergency_conditions_keeps :
  Sat.sat keeps_check _check_emergency_conditions.
Proof.
  unfold _check_emergency_conditions.
  apply (Sat.sat_try_except keeps_check keeps_check_trans); [| repeat keeps_step].
  apply (Sat.sat_bind keeps_check keeps_check_trans); [keeps_step | intro conds].
  apply emergency_loop_keeps.
Qed.

Lemma process_alerts_keeps (alerts : list RiskAlert) :
  Sat.sat keeps_check (_process_alerts alerts).
Proof.
  unfold _process_alerts.
  apply (Sat.sat_bind keeps_check keeps_check_trans); [| intro; repeat keeps_step].
  apply (Sat.sat_for_each keeps_check keeps_check_refl keeps_check_trans).
  intro alert. unfold process_one_alert. repeat keeps_step.
Qed.

(** The alert [check_all_risks] adds when a statement of its [try]
    raises. *)
Definition system_error (current_time : Q) : RiskAlert :=
  {| alert_type := "SYSTEM_ERROR"; severity := High;
     current_value := 0; threshold := 0;
     timestamp := current_time; action_required := true |}.

(** How a risk check can end. *)
Inductive outcome (s s' : St Manager X) (alerts : list RiskAlert) : Prop :=
| not_due :
    time_time (ext s) - last_risk_check (comp s) < risk_check_interval' (comp s) ->
    alerts = [] -> s' = s -> outcome s s' alerts
| completed :
    Forall (fun a => severity a = Critical) alerts ->
    last_risk_check (comp s') = time_time (ext s) ->
    outcome s s' alerts
| failed (found : list RiskAlert) (t : list Call) :
    alerts = found ++ [system_error (time_time (ext s))] ->
    last_risk_check (comp s') = last_risk_check (comp s) ->
    trace s' = t ++ [CLogError "Risk check failed"] ->
    outcome s s' alerts.

Lemma failed_handler (s s1 : St Manager X) (found : list RiskAlert) :
  keeps_check s s1 ->
  exists alerts s',
    (log_error "Risk check failed" ;;
     ret (found ++ [system_error (time_time (ext s))])) s1 = (Ok alerts, s') /\
    outcome s s' alerts.
Proof.
  intros Hk. cbv [bind log_error record ret].
  eexists. eexists. split; [reflexivity |].
  apply (failed _ _ _ found (trace s1)); [reflexivity | exact Hk | reflexivity].
Qed.

(** [check_all_risks] never raises, and ends in one of three ways.
    Not due: no alert, nothing changed.  Completed: every alert it
    returns is critical and [last_risk_check] is the time the check
    started.  Failed: the alerts found so far are followed by a
    [SYSTEM_ERROR] alert, "Risk check failed" is the last thing logged
    and [last_risk_check] is left as it was, so the next call is due
    again.  A check that finds an alert of severity high or medium
    therefore always ends failed. *)
Theorem check_all_risks_outcome (s : St Manager X) :
  exists alerts s',
    check_all_risks s = (Ok alerts, s') /\ outcome s s' alerts.
Proof.
  unfold check_all_risks.
  cbv [bind ask gets]. cbn [fst snd comp ext].
  destruct (Qltb (time_time (ext s) - last_risk_check (comp s))
                 (risk_check_interval' (comp s))) eqn:Edue.
  { exists [], s. split; [reflexivity |].
    apply not_due; [apply Qltb_lt; exact Edue | reflexivity | reflexivity]. }
  unfold risk_steps. cbn [run_steps].
  fold (system_error (time_time (ext s))).
  (* the portfolio metrics *)
  pose proof (update_portfolio_metrics_keeps s) as K1.
  unfold bind at 1.
  destruct (_update_portfolio_metrics s) as [[[] |] s1]; cbn [snd] in K1;
    [| exact (failed_handler s s1 [] K1)].
  cbv [ret]. cbn [app].
  (* the position limits *)
  pose proof (check_position_limits_keeps s1) as K2.
  unfold bind at 1.
  destruct (_check_position_limits s1) as [[a2 |] s2]; cbn [snd] in K2;
    pose proof (keeps_check_trans _ _ _ K1 K2) as K12;
    [| exact (failed_handler s s2 [] K12)].
  (* the drawdown limits *)
  pose proof (check_drawdown_limits_keeps s2) as K3.
  unfold bind at 1.
  destruct (_check_drawdown_limits s2) as [[a3 |] s3]; cbn [snd] in K3;
    pose proof (keeps_check_trans _ _ _ K12 K3) as K13;
    [| exact (failed_handler s s3 _ K13)].
  (* the daily limits *)
  pose proof (check_daily_limits_keeps s3) as K4.
  unfold bind at 1.
  destruct (_check_daily_limits s3) as [[a4 |] s4]; cbn [snd] in K4;
    pose proof (keeps_check_trans _ _ _ K13 K4) as K14;
    [| exact (failed_handler s s4 _ K14)].
  (* the emergency conditions *)
  pose proof (check_emergency_conditions_keeps s4) as K5.
  unfold bind at 1.
  destruct (_check_emergency_conditions s4) as [[a5 |] s5]; cbn [snd] in K5;
    pose proof (keeps_check_trans _ _ _ K14 K5) as K15;
    [| exact (failed_handler s s5 _ K15)].
  (* the alerts are processed *)
  pose proof (process_alerts_keeps (((a2 ++ a3) ++ a4) ++ a5) s5) as K6.
  unfold bind at 1.
  destruct (_process_alerts (((a2 ++ a3) ++ a4) ++ a5) s5) as [[[] |] s6] eqn:E6;
    cbn [snd] in K6;
    pose proof (keeps_check_trans _ _ _ K15 K6) as K16;
    [| exact (failed_handler s s6 _ K16)].
  pose proof (process_alerts_critical _ _ _ E6) as Hall.
  cbv [bind modify ret].
  eexists. eexists. split; [reflexivity |].
  apply completed; [exact Hall | reflexivity].
Qed.

End Cycle.

(** A daily loss beyond the limit, of severity high. *)
Definition daily_loss_alert : RiskAlert :=
  {| alert_type := "DAILY_LOSS_LIMIT_EXCEEDED"; severity := High;
     current_value := - (6 # 100); threshold := - (5 # 100);
     timestamp := 1000; action_required := true |}.

Definition extreme_drawdown_alert : RiskAlert :=
  {| alert_type := "EXTREME_DRAWDOWN"; severity := Critical;
     current_value := 0; threshold := 0;
     timestamp := 1000; action_required := true |}.

Definition fresh_manager : St Manager Mock.World :=
  Eval vm_compute in
  mkSt (RiskManager.init Mock.default_settings true) Mock.calm [].

Definition after_extreme : St Manager Mock.World :=
  Eval vm_compute in snd (_process_alerts [extreme_drawdown_alert] fresh_manager).

Lemma process_alerts_stops_at_unloggable_witness :
  fst (_process_alerts [extreme_drawdown_alert; daily_loss_alert] fresh_manager)
    = Raised /\
  active_alerts
    (comp (snd (_process_alerts [extreme_drawdown_alert; daily_loss_alert]
                  fresh_manager)))
    = [extreme_drawdown_alert; daily_loss_alert] /\
  trace (snd (_process_alerts [extreme_drawdown_alert; daily_loss_alert]
                fresh_manager))
    = trace after_extreme.
Proof.
  assert (Hpre : for_each [extreme_drawdown_alert] process_one_alert fresh_manager
                 = (Ok tt, after_extreme))
    by (vm_compute; reflexivity).
  assert (Hsev : severity daily_loss_alert <> Critical) by discriminate.
  destruct (process_alerts_stops_at_unloggable [extreme_drawdown_alert] []
              daily_loss_alert fresh_manager after_extreme Hpre Hsev)
    as [Hraised [Hactive [_ [_ Htrace]]]].
  split; [exact Hraised |]. split; [exact Hactive | exact Htrace].
Defined.

Lemma process_alerts_history_cap_witness :
  (List.length (risk_history (comp after_extreme)) <= 100)%nat /\
  active_alerts (comp after_extreme) = [extreme_drawdown_alert].
Proof.
  assert (Hrun : _process_alerts [extreme_drawdown_alert] fresh_manager
                 = (Ok tt, after_extreme))
    by (vm_compute; reflexivity).
  destruct (process_alerts_history_cap [extreme_drawdown_alert] fresh_manager
              after_extreme Hrun) as [Hlen [_ Hactive]].
  split; [exact Hlen | exact Hactive].
Defined.

End Alerts.

(** ** The helpers *)

Module HelperFacts.
Import Helpers.

Lemma pymax_cases (a b : Q) :
  (a < b /\ pymax a b = b) \/ (b <= a /\ pymax a b = a).
Proof.
  unfold pymax. destruct (Qltb a b) eqn:E.
  - left. split; [apply Qltb_lt; exact E | reflexivity].
  - right. split; [apply Qltb_ge; exact E | reflexivity].
Qed.

Lemma pymin_cases (a b : Q) :
  (b < a /\ pymin a b = b) \/ (a <= b /\ pymin a b = a).
Proof.
  unfold pymin. destruct (Qltb b a) eqn:E.
  - left. split; [apply Qltb_lt; exact E | reflexivity].
  - right. split; [apply Qltb_ge; exact E | reflexivity].
Qed.

(** [clamp] with bounds in order returns a value within them, the value
    itself when it lies within them, and clamping twice is clamping
    once; with the bounds out of order ([max_value < min_value]) it
    returns [min_value], whatever the value. *)
Theorem clamp_within (value min_value max_value : Q) :
  (min_value <= max_value ->
   min_value <= clamp value min_value max_value <= max_value) /\
  (min_value <= value <= max_value ->
   clamp value min_value max_value == value) /\
  (min_value <= max_value ->
   clamp (clamp value min_value max_value) min_value max_value
   == clamp value min_value max_value) /\
  (max_value < min_value -> clamp value min_value max_value = min_value).
Proof.
  assert (Hin : forall v, min_value <= v <= max_value ->
                          clamp v min_value max_value == v).
  { intros v [Hlo Hhi]. unfold clamp.
    destruct (pymin_cases v max_value) as [[H1 E1] | [H1 E1]]; rewrite E1;
      destruct (pymax_cases min_value max_value) as [[H2 E2] | [H2 E2]];
      destruct (pymax_cases min_value v) as [[H3 E3] | [H3 E3]];
      try rewrite E2; try rewrite E3; lra. }
  assert (Hbounds : min_value <= max_value ->
                    min_value <= clamp value min_value max_value <= max_value).
  { intro Hord. unfold clamp.
    destruct (pymin_cases value max_value) as [[H1 E1] | [H1 E1]]; rewrite E1.
    - destruct (pymax_cases min_value max_value) as [[H2 E2] | [H2 E2]];
        rewrite E2; split; lra.
    - destruct (pymax_cases min_value value) as [[H2 E2] | [H2 E2]];
        rewrite E2; split; lra. }
  split; [exact Hbounds |]. split; [apply Hin |].
  split; [intro Hord; apply Hin; apply Hbounds; exact Hord |].
  intro Hrev. unfold clamp.
  destruct (pymin_cases value max_value) as [[H1 E1] | [H1 E1]]; rewrite E1.
  - destruct (pymax_cases min_value max_value) as [[H2 E2] | [H2 E2]];
      [lra | exact E2].
  - destruct (pymax_cases min_value value) as [[H2 E2] | [H2 E2]];
      [lra | exact E2].
Qed.



End HelperFacts.

Module PrecisionFacts.
Import Helpers.




End PrecisionFacts.

Module IntervalFacts.
Import Helpers GridEngine.

(** The engine's [_get_adjustment_interval] and the helper
    [get_next_grid_adjustment_time] hold the same table: with the
    helper's default base interval of 3600 the next adjustment time is
    the last one plus the engine's interval.  The interval is 900,
    1800, 2700 or 3600 seconds, and a higher volatility never gives a
    longer one. *)
Theorem adjustment_interval_agrees (e e2 : Engine) (last_adjustment : Q) :
  get_next_grid_adjustment_time last_adjustment (volatility (grid_state e)) 3600
  == last_adjustment + _get_adjustment_interval e /\
  (_get_adjustment_interval e == 900 \/ _get_adjustment_interval e == 1800 \/
   _get_adjustment_interval e == 2700 \/ _get_adjustment_interval e == 3600) /\
  (volatility (grid_state e) <= volatility (grid_state e2) ->
   _get_adjustment_interval e2 <= _get_adjustment_interval e).
Proof.
  unfold get_next_grid_adjustment_time, _get_adjustment_interval.
  set (v := volatility (grid_state e)). set (v2 := volatility (grid_state e2)).
  split; [| split].
  - destruct (Qgtb v (8 # 10)); [reflexivity |].
    destruct (Qgtb v (4 # 10)); [reflexivity |].
    destruct (Qgtb v (2 # 10)); reflexivity.
  - destruct (Qgtb v (8 # 10)); [left; reflexivity |].
    destruct (Qgtb v (4 # 10)); [right; left; reflexivity |].
    destruct (Qgtb v (2 # 10)); [right; right; left; reflexivity |].
    right; right; right; reflexivity.
  - intro Hle.
    destruct (Qgtb v (8 # 10)) eqn:E1;
      destruct (Qgtb v (4 # 10)) eqn:E2;
      destruct (Qgtb v (2 # 10)) eqn:E3;
      destruct (Qgtb v2 (8 # 10)) eqn:F1;
      destruct (Qgtb v2 (4 # 10)) eqn:F2;
      destruct (Qgtb v2 (2 # 10)) eqn:F3;
      try apply Qgtb_gt in E1; try apply Qgtb_le in E1;
      try apply Qgtb_gt in E2; try apply Qgtb_le in E2;
      try apply Qgtb_gt in E3; try apply Qgtb_le in E3;
      try apply Qgtb_gt in F1; try apply Qgtb_le in F1;
      try apply Qgtb_gt in F2; try apply Qgtb_le in F2;
      try apply Qgtb_gt in F3; try apply Qgtb_le in F3;
      try (exfalso; lra); try (vm_compute; discriminate).
Qed.

End IntervalFacts.

Module ChunkFacts.
Import Helpers.

Section Chunks.
Context {A : Type}.

(** A chunk that starts inside the list. *)
Lemma pyslice_window (l : list A) (i n : Z) :
  (0 <= i < Z.of_nat (List.length l))%Z -> (0 < n)%Z ->
  pyslice l (Some i) (Some (i + n)%Z)
  = firstn (Z.to_nat n) (skipn (Z.to_nat i) l).
Proof.
  intros Hi Hn. unfold pyslice, slice_index.
  set (L := Z.of_nat (List.length l)) in *.
  assert (E1 : (i <? 0)%Z = false) by (apply Z.ltb_ge; lia).
  assert (E2 : (i + n <? 0)%Z = false) by (apply Z.ltb_ge; lia).
  rewrite E1, E2.
  replace (Z.min i L) with i by lia.
  destruct (Z_le_gt_dec (i + n) L) as [Hfit | Hover].
  - replace (Z.min (i + n) L) with (i + n)%Z by lia.
    f_equal. lia.
  - replace (Z.min (i + n) L) with L by lia.
    assert (Hlen : List.length (skipn (Z.to_nat i) l) = Z.to_nat (L - i)).
    { rewrite length_skipn. unfold L. lia. }
    rewrite <- Hlen. rewrite firstn_all.
    symmetry. apply firstn_all2. rewrite Hlen. lia.
Qed.

Lemma firstn_plus (a b : nat) (l : list A) :
  firstn (a + b) l = firstn a l ++ firstn b (skipn a l).
Proof.
  revert l. induction a as [| a IH]; intro l; [reflexivity |].
  destruct l as [| x r]; simpl.
  - rewrite firstn_nil. reflexivity.
  - rewrite IH. reflexivity.
Qed.

(** The first [count] chunks of [m] elements, put together. *)
Lemma concat_windows (m count : nat) (l : list A) :
  List.concat (map (fun k => firstn m (skipn (k * m) l)) (seq 0 count))
  = firstn (count * m) l.
Proof.
  induction count as [| c IH]; [reflexivity |].
  rewrite seq_S, map_app, concat_app, IH. simpl.
  rewrite app_nil_r. rewrite <- firstn_plus. f_equal. lia.
Qed.

(** The number of chunks: [len(lst) / chunk_size], rounded up. *)
Definition chunk_count (lst : list A) (chunk_size : Z) : Z :=
  (Z.of_nat (List.length lst) + chunk_size - 1) / chunk_size.

Lemma chunk_list_positive (lst : list A) (chunk_size : Z) :
  (0 < chunk_size)%Z ->
  chunk_list lst chunk_size =
  Ok (map (fun k => firstn (Z.to_nat chunk_size)
                           (skipn (k * Z.to_nat chunk_size) lst))
          (seq 0 (Z.to_nat (chunk_count lst chunk_size)))) /\
  (List.length lst <= Z.to_nat (chunk_count lst chunk_size) * Z.to_nat chunk_size)%nat /\
  (forall k, (k + 1 < Z.to_nat (chunk_count lst chunk_size))%nat ->
             ((k + 1) * Z.to_nat chunk_size < List.length lst)%nat) /\
  (forall k, (k < Z.to_nat (chunk_count lst chunk_size))%nat ->
             (k * Z.to_nat chunk_size < List.length lst)%nat).
Proof.
  intro Hn. unfold chunk_list, range_step, chunk_count.
  set (L := Z.of_nat (List.length lst)).
  assert (HL : (0 <= L)%Z) by (unfold L; lia).
  assert (E0 : (chunk_size =? 0)%Z = false) by (apply Z.eqb_neq; lia).
  assert (E1 : (0 <? chunk_size)%Z = true) by (apply Z.ltb_lt; lia).
  rewrite E0, E1.
  assert (Hcount :
    (if (0 <? L)%Z then 1 + (L - 1 - 0) / chunk_size else 0)%Z
    = ((L + chunk_size - 1) / chunk_size)%Z).
  { destruct (0 <? L)%Z eqn:E.
    - apply Z.ltb_lt in E.
      replace (L + chunk_size - 1)%Z with ((L - 1 - 0) + 1 * chunk_size)%Z by lia.
      rewrite Z.div_add by lia. lia.
    - apply Z.ltb_ge in E. replace L with 0%Z by lia.
      symmetry. apply Z.div_small. lia. }
  rewrite Hcount.
  set (N := ((L + chunk_size - 1) / chunk_size)%Z).
  assert (HN : (0 <= N)%Z) by (apply Z.div_pos; lia).
  assert (Hup : (L <= N * chunk_size)%Z).
  { pose proof (Z.mod_pos_bound (L + chunk_size - 1) chunk_size Hn) as Hm.
    pose proof (Z.div_mod (L + chunk_size - 1) chunk_size ltac:(lia)) as Hd.
    fold N in Hd. nia. }
  assert (Hlow : ((N - 1) * chunk_size < L \/ N = 0)%Z).
  { pose proof (Z.mod_pos_bound (L + chunk_size - 1) chunk_size Hn) as Hm.
    pose proof (Z.div_mod (L + chunk_size - 1) chunk_size ltac:(lia)) as Hd.
    fold N in Hd. left. nia. }
  assert (Hstart : forall k, (k < Z.to_nat N)%nat ->
                             (k * Z.to_nat chunk_size < List.length lst)%nat).
  { intros k Hk. destruct Hlow as [Hlow | Hz]; [| lia].
    assert (Hz : (Z.of_nat k * chunk_size < L)%Z) by nia.
    unfold L in Hz. nia. }
  split; [| split; [| split]].
  - f_equal. rewrite map_map. apply map_ext_in.
    intros k Hk. apply in_seq in Hk.
    rewrite Z.add_0_l.
    rewrite pyslice_window.
    + f_equal. f_equal. lia.
    + pose proof (Hstart k ltac:(lia)) as Hs. fold L. nia.
    + exact Hn.
  - unfold L in Hup. nia.
  - intros k Hk. destruct Hlow as [Hlow | Hz]; [| lia].
    assert (Hz : ((Z.of_nat k + 1) * chunk_size < L)%Z) by nia.
    unfold L in Hz. nia.
  - exact Hstart.
Qed.

(** [chunk_list] with a positive chunk size cuts the list into
    consecutive pieces: put together again they are the list, no piece
    is empty or longer than the chunk size, every piece but the last
    has exactly that size, and there are [len(lst) / chunk_size] of
    them, rounded up.  A chunk size of zero raises ([range] refuses a
    zero step), and a negative one gives no chunk at all. *)
Theorem chunk_list_partition (lst : list A) (chunk_size : Z) :
  ((0 < chunk_size)%Z ->
   exists chunks,
     chunk_list lst chunk_size = Ok chunks /\
     List.concat chunks = lst /\
     Forall (fun c => (0 < List.length c <= Z.to_nat chunk_size)%nat) chunks /\
     Z.of_nat (List.length chunks) = chunk_count lst chunk_size /\
     (forall k, (k + 1 < List.length chunks)%nat ->
                List.length (nth k chunks []) = Z.to_nat chunk_size)) /\
  (chunk_size = 0%Z -> chunk_list lst chunk_size = Raised) /\
  ((chunk_size < 0)%Z -> chunk_list lst chunk_size = Ok []).
Proof.
  split; [| split].
  - intro Hn.
    destruct (chunk_list_positive lst chunk_size Hn)
      as [Hrun [Hcover [Hfull Hstart]]].
    set (m := Z.to_nat chunk_size) in *.
    set (N := Z.to_nat (chunk_count lst chunk_size)) in *.
    assert (Hm : (0 < m)%nat) by (unfold m; lia).
    eexists. split; [exact Hrun |].
    split; [| split; [| split]].
    + rewrite concat_windows. apply firstn_all2. lia.
    + apply Forall_forall. intros c Hc.
      apply in_map_iff in Hc. destruct Hc as [k [Hk Hin]]. subst c.
      apply in_seq in Hin. pose proof (Hstart k ltac:(lia)) as Hs.
      rewrite length_firstn, length_skipn. lia.
    + rewrite length_map, length_seq. unfold N.
      apply Z2Nat.id. unfold chunk_count. apply Z.div_pos; lia.
    + intros k Hk. rewrite length_map, length_seq in Hk.
      rewrite (nth_indep _ [] (firstn m (skipn (0 * m) lst)))
        by (rewrite length_map, length_seq; lia).
      rewrite (map_nth (fun k => firstn m (skipn (k * m) lst))).
      rewrite seq_nth by lia. simpl.
      pose proof (Hfull k Hk) as Hf.
      rewrite length_firstn, length_skipn. lia.
  - intro Hz. subst chunk_size. reflexivity.
  - intro Hneg. unfold chunk_list, range_step.
    assert (E0 : (chunk_size =? 0)%Z = false) by (apply Z.eqb_neq; lia).
    assert (E1 : (0 <? chunk_size)%Z = false) by (apply Z.ltb_ge; lia).
    rewrite E0, E1.
    destruct (Z.of_nat (List.length lst) <? 0)%Z eqn:E; [| reflexivity].
    apply Z.ltb_lt in E. lia.
Qed.

End Chunks.
End ChunkFacts.

Module AverageFacts.
Import Helpers.







End AverageFacts.

Module LevelListFacts.
Import Helpers.

Section Levels.
Variables base_price grid_size : Q.

Definition buy_at (i : Z) : Q :=
  base_price * (1 - grid_size / 100 * inject_Z i).

Definition sell_at (i : Z) : Q :=
  base_price * (1 + grid_size / 100 * inject_Z i).

(** The loop appends one buy and one sell price per index. *)
Lemma levels_fold (l : list Z) (acc : GridLevels) :
  fold_left
    (fun acc i =>
       let buy_price := base_price * (1 - grid_size / 100 * inject_Z i) in
       let sell_price := base_price * (1 + grid_size / 100 * inject_Z i) in
       {| buy_levels := buy_levels acc ++ [buy_price];
          sell_levels := sell_levels acc ++ [sell_price] |})
    l acc
  = {| buy_levels := buy_levels acc ++ map buy_at l;
       sell_levels := sell_levels acc ++ map sell_at l |}.
Proof.
  revert acc. induction l as [| i l IH]; intro acc.
  - simpl. rewrite !app_nil_r. destruct acc; reflexivity.
  - cbn [fold_left]. rewrite IH. cbn [buy_levels sell_levels map].
    rewrite <- !app_assoc. reflexivity.
Qed.

Lemma levels_as_maps (num_levels : Z) :
  calculate_grid_levels base_price grid_size num_levels
  = {| buy_levels := map buy_at (range 1 (num_levels + 1));
       sell_levels := map sell_at (range 1 (num_levels + 1)) |}.
Proof. unfold calculate_grid_levels. rewrite levels_fold. reflexivity. Qed.





End Levels.
End LevelListFacts.

Module PairFacts.
Import Helpers.
Local Open Scope string_scope.

(** ["/".join(parts)] *)
Fixpoint join_slash (parts : list string) : string :=
  match parts with
  | [] => ""
  | [part] => part
  | part :: rest => part ++ String "/"%char (join_slash rest)
  end.

Lemma split_nonempty (s : string) : split_slash s <> [].
Proof.
  destruct s as [| c r]; simpl; [discriminate |].
  destruct (Ascii.eqb c "/"); [discriminate |].
  destruct (split_slash r); discriminate.
Qed.

Lemma join_cons_char (c : ascii) (part : string) (parts : list string) :
  join_slash (String c part :: parts) = String c (join_slash (part :: parts)).
Proof. destruct parts; reflexivity. Qed.

(** Splitting and joining again gives the string back. *)
Lemma join_split (s : string) : join_slash (split_slash s) = s.
Proof.
  induction s as [| c r IH]; [reflexivity |].
  cbn [split_slash].
  pose proof (split_nonempty r) as Hne.
  destruct (Ascii.eqb c "/") eqn:E.
  - apply Ascii.eqb_eq in E. subst c.
    destruct (split_slash r) as [| p ps] eqn:Es; [contradiction |].
    change (join_slash ("" :: p :: ps))
      with ("" ++ String "/"%char (join_slash (p :: ps))).
    rewrite IH. reflexivity.
  - destruct (split_slash r) as [| p ps] eqn:Es; [contradiction |].
    rewrite join_cons_char, IH. reflexivity.
Qed.

(** No part holds a slash. *)
Lemma split_parts_clean (s : string) :
  Forall (fun part => has_slash part = false) (split_slash s).
Proof.
  induction s as [| c r IH]; simpl.
  - constructor; [reflexivity | constructor].
  - destruct (Ascii.eqb c "/") eqn:E.
    + constructor; [reflexivity | exact IH].
    + destruct (split_slash r) as [| p ps].
      * constructor; [simpl; rewrite E; reflexivity | constructor].
      * inversion IH; subst. constructor; [| assumption].
        simpl. rewrite E. assumption.
Qed.

Lemma split_clean (s : string) : has_slash s = false -> split_slash s = [s].
Proof.
  induction s as [| c r IH]; simpl; [reflexivity |].
  destruct (Ascii.eqb c "/"); simpl; [discriminate |].
  intro H. rewrite (IH H). reflexivity.
Qed.

Lemma split_at_slash (base rest : string) :
  has_slash base = false ->
  split_slash (base ++ String "/"%char rest) = base :: split_slash rest.
Proof.
  induction base as [| c r IH]; simpl; [reflexivity |].
  destruct (Ascii.eqb c "/"); simpl; [discriminate |].
  intro H. rewrite (IH H). reflexivity.
Qed.

Lemma has_slash_append (base rest : string) :
  has_slash (base ++ String "/"%char rest) = true.
Proof.
  induction base as [| c r IH]; simpl; [reflexivity |].
  rewrite IH. apply orb_true_r.
Qed.

Lemma split_base_at_slash (base rest : string) :
  has_slash base = false ->
  split_base (base ++ String "/"%char rest) = base.
Proof.
  induction base as [| c r IH]; simpl; [reflexivity |].
  destruct (Ascii.eqb c "/"); simpl; [discriminate |].
  intro H. rewrite (IH H). reflexivity.
Qed.

Lemma length_pos (s : string) : (0 <? String.length s)%nat = true <-> s <> "".
Proof.
  destruct s; simpl; split; intro H; try reflexivity; try discriminate.
  contradiction.
Qed.

(** [validate_trading_pair] accepts exactly the strings [BASE/QUOTE]
    with one slash and something on both sides of it; for such a
    string the base asset the engine and the risk manager take from
    the symbol, [symbol.split('/')[0]], is [BASE]. *)
Theorem validate_trading_pair_accepts (symbol : string) :
  validate_trading_pair symbol = true <->
  exists base quote,
    symbol = base ++ String "/"%char quote /\
    base <> "" /\ quote <> "" /\
    has_slash base = false /\ has_slash quote = false /\
    split_base symbol = base.
Proof.
  unfold validate_trading_pair. split.
  - destruct ((String.length symbol =? 0)%nat || negb (has_slash symbol));
      [discriminate |].
    pose proof (join_split symbol) as Hjoin.
    pose proof (split_parts_clean symbol) as Hclean.
    destruct (split_slash symbol) as [| base [| quote [| third rest]]];
      try discriminate.
    intro Hlen. apply andb_true_iff in Hlen. destruct Hlen as [Hb Hq].
    apply Forall_cons_iff in Hclean. destruct Hclean as [Hcb Hrest].
    apply Forall_cons_iff in Hrest. destruct Hrest as [Hcq _].
    exists base, quote. simpl in Hjoin.
    split; [symmetry; exact Hjoin |].
    split; [apply length_pos; exact Hb |].
    split; [apply length_pos; exact Hq |].
    split; [exact Hcb |]. split; [exact Hcq |].
    rewrite <- Hjoin. apply split_base_at_slash. exact Hcb.
  - intros [base [quote [Hs [Hb [Hq [Hcb [Hcq _]]]]]]]. subst symbol.
    rewrite has_slash_append. cbn [negb].
    assert (Hlen : (String.length (base ++ String "/"%char quote) =? 0)%nat = false).
    { apply Nat.eqb_neq. clear. induction base as [| c r IH]; simpl; lia. }
    rewrite Hlen. cbn [orb].
    rewrite split_at_slash by exact Hcb. rewrite split_clean by exact Hcq.
    apply andb_true_iff. split; apply length_pos; assumption.
Qed.

End PairFacts.

Module ExchangeFacts.
Import Exchange.






Section Calls.
Context {X : Type} `{Api X}.

(** The orders that a trace asked to cancel, oldest first. *)
Fixpoint cancel_calls (t : list Call) : list string :=
  match t with
  | [] => []
  | CCancelOrder id :: r => id :: cancel_calls r
  | _ :: r => cancel_calls r
  end.

(** The number of logged errors in a trace. *)
Fixpoint error_logs (t : list Call) : nat :=
  match t with
  | [] => 0
  | CLogError _ :: r => S (error_logs r)
  | _ :: r => error_logs r
  end.

(** The number of ticker reads in a trace. *)
Fixpoint ticker_calls (t : list Call) : nat :=
  match t with
  | [] => 0
  | CGetTicker :: r => S (ticker_calls r)
  | _ :: r => ticker_calls r
  end.

Lemma cancel_calls_app (a b : list Call) :
  cancel_calls (a ++ b) = cancel_calls a ++ cancel_calls b.
Proof.
  induction a as [| c r IH]; [reflexivity |].
  destruct c; simpl; rewrite IH; reflexivity.
Qed.

Lemma error_logs_app (a b : list Call) :
  error_logs (a ++ b) = (error_logs a + error_logs b)%nat.
Proof.
  induction a as [| c r IH]; [reflexivity |].
  destruct c; simpl; rewrite IH; reflexivity.
Qed.

Lemma ticker_calls_app (a b : list Call) :
  ticker_calls (a ++ b) = (ticker_calls a + ticker_calls b)%nat.
Proof.
  induction a as [| c r IH]; [reflexivity |].
  destruct c; simpl; rewrite IH; reflexivity.
Qed.

(** The loop of [cancel_all_orders] goes through all the orders. *)
Lemma cancel_loop_all (open_orders : list OpenOrder) :
  forall (cancelled_orders : list Order) (s : St Exchange X),
  exists cancelled added x',
    cancel_loop open_orders cancelled_orders s
    = (Ok (cancelled_orders ++ cancelled),
       mkSt (comp s) x' (trace s ++ added)) /\
    cancel_calls added = map open_id open_orders /\
    (List.length cancelled + error_logs added = List.length open_orders)%nat /\
    Forall (fun c => match c with
                     | CCancelOrder _ | CLogError _ => True
                     | _ => False
                     end) added.
Proof.
  induction open_orders as [| order rest IH]; intros cancelled_orders s.
  - exists [], [], (ext s). cbn [cancel_loop]. unfold ret.
    rewrite !app_nil_r. destruct s; cbn. repeat split. constructor.
  - cbn [cancel_loop]. unfold bind at 1. unfold cancel_one, try_except.
    unfold bind at 1. unfold call at 1.
    destruct (api_cancel_order (open_id order) (open_symbol order) (ext s))
      as [[cancelled |] x1].
    + unfold ret at 1.
      destruct (IH (cancelled_orders ++ [cancelled])
                   (mkSt (comp s) x1 (trace s ++ [CCancelOrder (open_id order)])))
        as [more [added [x' [Hrun [Hcalls [Hcount Hkind]]]]]].
      exists (cancelled :: more), (CCancelOrder (open_id order) :: added), x'.
      rewrite Hrun. cbn [comp trace].
      rewrite <- !app_assoc. cbn [app].
      split; [reflexivity |].
      split; [cbn [cancel_calls map]; rewrite Hcalls; reflexivity |].
      split; [cbn [List.length error_logs]; lia |].
      constructor; [exact I | exact Hkind].
    + unfold bind at 1. unfold log_error, record, ret. cbn [comp ext trace].
      destruct (IH cancelled_orders
                   (mkSt (comp s) x1
                      ((trace s ++ [CCancelOrder (open_id order)])
                       ++ [CLogError "Failed to cancel order"])))
        as [more [added [x' [Hrun [Hcalls [Hcount Hkind]]]]]].
      exists more,
        (CCancelOrder (open_id order)
         :: CLogError "Failed to cancel order" :: added), x'.
      rewrite Hrun. cbn [comp trace].
      rewrite <- !app_assoc. cbn [app].
      split; [reflexivity |].
      split; [cbn [cancel_calls map]; rewrite Hcalls; reflexivity |].
      split; [cbn [List.length error_logs]; lia |].
      constructor; [exact I |]. constructor; [exact I | exact Hkind].
Qed.

(** [cancel_all_orders] of the exchange base class has its [try]
    inside the loop: once the open orders are read, it never raises and
    asks to cancel every one of them, in their order, whatever happens
    to the ones before; each order is either among the returned ones or
    has left one logged error.  Only a failure to read the open orders
    makes it raise, and then nothing is cancelled. *)
Theorem cancel_all_orders_attempts_every_order
  (symbol : option string) (s : St Exchange X) :
  (forall x1, api_get_open_orders symbol (ext s) = (None, x1) ->
     cancel_all_orders symbol s = (Raised, mkSt (comp s) x1 (trace s))) /\
  (forall open_orders x1,
     api_get_open_orders symbol (ext s) = (Some open_orders, x1) ->
     exists cancelled added x',
       cancel_all_orders symbol s
       = (Ok cancelled, mkSt (comp s) x' (trace s ++ added)) /\
       cancel_calls added = map open_id open_orders /\
       (List.length cancelled + error_logs added
        = List.length open_orders)%nat /\
       (List.length cancelled <= List.length open_orders)%nat /\
       ((forall id sym x, fst (api_cancel_order id sym x) <> None) ->
        List.length cancelled = List.length open_orders /\
        error_logs added = 0%nat)).
Proof.
  split.
  - intros x1 E. unfold cancel_all_orders, bind, await. rewrite E. reflexivity.
  - intros open_orders x1 E.
    unfold cancel_all_orders. unfold bind at 1. unfold await. rewrite E.
    destruct (cancel_loop_all open_orders [] (mkSt (comp s) x1 (trace s)))
      as [cancelled [added [x' [Hrun [Hcalls [Hcount Hkind]]]]]].
    exists cancelled, added, x'. cbn [comp trace app] in Hrun.
    split; [exact Hrun |]. split; [exact Hcalls |].
    split; [exact Hcount |]. split; [lia |].
    intro Hok.
    assert (Hnone : forall orders acc (s0 : St Exchange X),
      error_logs (trace (snd (cancel_loop orders acc s0)))
      = error_logs (trace s0)).
    { induction orders as [| order rest IH]; intros acc s0; [reflexivity |].
      cbn [cancel_loop]. unfold bind at 1. unfold cancel_one, try_except.
      unfold bind at 1. unfold call at 1.
      pose proof (Hok (open_id order) (open_symbol order) (ext s0)) as Hone.
      destruct (api_cancel_order (open_id order) (open_symbol order) (ext s0))
        as [[cancelled0 |] x0]; [| contradiction Hone; reflexivity].
      unfold ret at 1. rewrite IH. cbn [trace].
      rewrite error_logs_app. simpl. lia. }
    pose proof (Hnone open_orders [] (mkSt (comp s) x1 (trace s))) as Hn.
    rewrite Hrun in Hn. cbn [snd trace] in Hn.
    rewrite error_logs_app in Hn. lia.
Qed.

(** The USDT held, as the loop of [get_account_value] adds it up. *)
Fixpoint usdt_total (assets : list (string * Q)) : Q :=
  match assets with
  | [] => 0
  | (asset, amounts) :: rest =>
      if String.eqb asset "USDT" then amounts + usdt_total rest
      else usdt_total rest
  end.

(** The assets other than USDT. *)
Definition other_assets (assets : list (string * Q)) : list (string * Q) :=
  filter (fun a => negb (String.eqb (fst a) "USDT")) assets.

(** A dict has every key once: the USDT added up is the USDT entry. *)
Lemma usdt_total_entry (assets : list (string * Q)) :
  NoDup (map fst assets) -> usdt_total assets == asset_get assets "USDT".
Proof.
  induction assets as [| [asset amounts] rest IH]; intro Hnd; [reflexivity |].
  cbn [usdt_total asset_get]. cbn [map fst] in Hnd.
  apply NoDup_cons_iff in Hnd. destruct Hnd as [Hnot Hnd].
  destruct (String.eqb asset "USDT") eqn:E.
  - apply String.eqb_eq in E. subst asset.
    assert (Hz : usdt_total rest == 0).
    { clear IH Hnd. induction rest as [| [a v] r IHr]; [reflexivity |].
      cbn [usdt_total]. destruct (String.eqb a "USDT") eqn:Ea.
      - apply String.eqb_eq in Ea. subst a. exfalso. apply Hnot. left. reflexivity.
      - apply IHr. intro Hin. apply Hnot. right. exact Hin. }
    rewrite Hz. lra.
  - apply IH. exact Hnd.
Qed.

Lemma value_loop_runs (assets : list (string * Q)) :
  forall (total_value : Q) (s : St Exchange X),
  exists value added x',
    value_loop assets total_value s
    = (Ok value, mkSt (comp s) x' (trace s ++ added)) /\
    ticker_calls added = List.length (other_assets assets) /\
    List.length added = List.length (other_assets assets) /\
    ((forall sym x, fst (api_get_ticker sym x) = None) ->
     value == total_value + usdt_total assets) /\
    ((forall asset amounts, In (asset, amounts) assets -> 0 <= amounts) ->
     (forall sym x ticker x1 price,
        api_get_ticker sym x = (Some ticker, x1) ->
        last ticker = Some price -> 0 <= price) ->
     total_value + usdt_total assets <= value).
Proof.
  induction assets as [| [asset amounts] rest IH]; intros total_value s.
  - exists total_value, [], (ext s). cbn [value_loop]. unfold ret.
    rewrite app_nil_r. destruct s; cbn.
    split; [reflexivity |]. split; [reflexivity |]. split; [reflexivity |].
    split; intros; lra.
  - cbn [value_loop usdt_total]. unfold other_assets. cbn [filter fst].
    destruct (String.eqb asset "USDT") eqn:E; cbn [negb].
    + destruct (IH (total_value + amounts) s)
        as [value [added [x' [Hrun [Hcalls [Hlen [Hfail Hlow]]]]]]].
      exists value, added, x'.
      split; [exact Hrun |]. split; [exact Hcalls |]. split; [exact Hlen |].
      split.
      * intro Hnone. rewrite (Hfail Hnone). lra.
      * intros Hamt Hprice.
        assert (H1 : total_value + amounts + usdt_total rest <= value).
        { apply Hlow; [| exact Hprice].
          intros a v Hin. apply (Hamt a v). right. exact Hin. }
        lra.
    + unfold bind at 1. unfold try_except. unfold get_current_price.
      unfold bind at 1. unfold bind at 1. unfold call at 1.
      destruct (api_get_ticker (asset ++ "/USDT") (ext s))
        as [[ticker |] x1] eqn:Eticker.
      * unfold ret at 1. unfold ret at 1.
        destruct (IH (total_value + amounts * get_or (last ticker) 0)
                     (mkSt (comp s) x1 (trace s ++ [CGetTicker])))
          as [value [added [x' [Hrun [Hcalls [Hlen [Hfail Hlow]]]]]]].
        exists value, (CGetTicker :: added), x'.
        rewrite Hrun. cbn [comp trace]. rewrite <- app_assoc. cbn [app].
        split; [reflexivity |].
        split; [cbn [ticker_calls List.length]; rewrite Hcalls; reflexivity |].
        split; [cbn [List.length]; rewrite Hlen; reflexivity |].
        split.
        -- intro Hnone. pose proof (Hnone (asset ++ "/USDT")%string (ext s)) as Hn.
           rewrite Eticker in Hn. discriminate.
        -- intros Hamt Hprice.
           assert (H1 : total_value + amounts * get_or (last ticker) 0
                        + usdt_total rest <= value).
           { apply Hlow; [| exact Hprice].
             intros a v Hin. apply (Hamt a v). right. exact Hin. }
           assert (H2 : 0 <= amounts * get_or (last ticker) 0).
           { apply Qmult_le_0_compat.
             - apply (Hamt asset amounts). left. reflexivity.
             - destruct (last ticker) as [price |] eqn:El; cbn [get_or];
                 [| lra].
               exact (Hprice _ _ _ _ _ Eticker El). }
           lra.
      * unfold ret at 1.
        destruct (IH total_value (mkSt (comp s) x1 (trace s ++ [CGetTicker])))
          as [value [added [x' [Hrun [Hcalls [Hlen [Hfail Hlow]]]]]]].
        exists value, (CGetTicker :: added), x'.
        rewrite Hrun. cbn [comp trace]. rewrite <- app_assoc. cbn [app].
        split; [reflexivity |].
        split; [cbn [ticker_calls List.length]; rewrite Hcalls; reflexivity |].
        split; [cbn [List.length]; rewrite Hlen; reflexivity |].
        split.
        -- intro Hnone. exact (Hfail Hnone).
        -- intros Hamt Hprice. apply Hlow; [| exact Hprice].
           intros a v Hin. apply (Hamt a v). right. exact Hin.
Qed.

(** [get_account_value] raises only when the balance cannot be read.
    Otherwise it always returns a value, after exactly one ticker read
    for each asset other than USDT, held or not: an asset whose price
    cannot be read is left out of the value without any log entry.
    When no price can be read the value is the USDT held; with amounts
    and prices that are not negative it is never less than that. *)
Theorem get_account_value_skips_unpriced (s : St Exchange X) :
  (forall x1, api_get_balance (ext s) = (None, x1) ->
     get_account_value s
     = (Raised, mkSt (comp s) x1 (trace s ++ [CGetBalance]))) /\
  (forall balance x1,
     api_get_balance (ext s) = (Some balance, x1) ->
     exists value added x',
       get_account_value s
       = (Ok value,
          mkSt (comp s) x' (trace s ++ CGetBalance :: added)) /\
       ticker_calls added = List.length (other_assets (bal_total balance)) /\
       error_logs added = 0%nat /\
       (NoDup (map fst (bal_total balance)) ->
        (forall sym x, fst (api_get_ticker sym x) = None) ->
        value == asset_get (bal_total balance) "USDT") /\
       (NoDup (map fst (bal_total balance)) ->
        (forall asset amounts,
           In (asset, amounts) (bal_total balance) -> 0 <= amounts) ->
        (forall sym x ticker x1 price,
           api_get_ticker sym x = (Some ticker, x1) ->
           last ticker = Some price -> 0 <= price) ->
        asset_get (bal_total balance) "USDT" <= value)).
Proof.
  split.
  - intros x1 E. unfold get_account_value, bind, call. rewrite E. reflexivity.
  - intros balance x1 E.
    unfold get_account_value. unfold bind at 1. unfold call at 1. rewrite E.
    destruct (value_loop_runs (bal_total balance) 0
                (mkSt (comp s) x1 (trace s ++ [CGetBalance])))
      as [value [added [x' [Hrun [Hcalls [Hlen [Hfail Hlow]]]]]]].
    exists value, added, x'. cbn [comp trace] in Hrun.
    rewrite <- app_assoc in Hrun. cbn [app] in Hrun.
    split; [exact Hrun |]. split; [exact Hcalls |].
    split.
    + assert (Hle : forall t, (ticker_calls t + error_logs t <= List.length t)%nat).
      { induction t as [| c r IHt]; [simpl; lia |].
        destruct c; simpl; lia. }
      pose proof (Hle added). lia.
    + split.
      * intros Hnd Hnone. rewrite (Hfail Hnone).
        rewrite (usdt_total_entry _ Hnd). lra.
      * intros Hnd Hamt Hprice.
        pose proof (Hlow Hamt Hprice) as H1.
        rewrite (usdt_total_entry _ Hnd) in H1. lra.
Qed.

End Calls.
End ExchangeFacts.

Module PositionFacts.
Import PositionManager.

Section Facts.
Context {X : Type} `{BaseNotifier X} `{Clock X}.

(** What one run of [_update_performance_metrics] leaves behind. *)
Lemma update_performance_effect (m : Manager) (x : X) (t : list Call) :
  exists m',
    _update_performance_metrics (mkSt m x t) = (Ok tt, mkSt m' x t) /\
    settings m' = settings m /\
    has_notifier m' = has_notifier m /\
    total_balance m' = total_balance m /\
    position_ratio m' = position_ratio m /\
    daily_start_value m' = daily_start_value m /\
    last_daily_reset m' = last_daily_reset m /\
    peak_portfolio_value m'
    = (if Qgtb (total_balance m) (peak_portfolio_value m)
       then total_balance m else peak_portfolio_value m) /\
    max_drawdown' m'
    = (if Qgtb (peak_portfolio_value m') 0
       then pymin (max_drawdown' m)
              ((total_balance m - peak_portfolio_value m')
               / peak_portfolio_value m')
       else max_drawdown' m).
Proof.
  unfold _update_performance_metrics, try_except.
  cbv [bind gets modify ret]. cbn [comp ext trace].
  destruct (Qgtb (total_balance m) (peak_portfolio_value m)) eqn:Epeak;
    cbn [peak_portfolio_value set_peak_portfolio_value].
  - destruct (Qgtb (total_balance m) 0) eqn:Epos;
      cbn [daily_start_value set_max_drawdown set_peak_portfolio_value];
      destruct (Qgtb (daily_start_value m) 0);
      eexists; (split; [reflexivity |]); cbn; rewrite ?Epos; repeat split.
  - destruct (Qgtb (peak_portfolio_value m) 0) eqn:Epos;
      cbn [daily_start_value set_max_drawdown];
      destruct (Qgtb (daily_start_value m) 0);
      eexists; (split; [reflexivity |]); cbn; rewrite ?Epos; repeat split.
Qed.

(** What [_check_daily_reset] leaves behind. *)
Lemma check_daily_reset_effect (m : Manager) (x : X) (t : list Call) :
  exists m',
    _check_daily_reset (mkSt m x t) = (Ok tt, mkSt m' x t) /\
    settings m' = settings m /\
    has_notifier m' = has_notifier m /\
    total_balance m' = total_balance m /\
    position_ratio m' = position_ratio m /\
    peak_portfolio_value m' = peak_portfolio_value m /\
    max_drawdown' m' = max_drawdown' m.
Proof.
  unfold _check_daily_reset.
  cbv [bind gets ask modify ret]. cbn [comp ext trace].
  destruct (Qgtb (time_time x - last_daily_reset m) 86400);
    eexists; (split; [reflexivity |]); cbn; repeat split.
Qed.

Lemma pymin_le_both (a b : Q) : pymin a b <= a /\ pymin a b <= b.
Proof.
  unfold pymin. destruct (Qltb b a) eqn:E.
  - apply NumFacts.Qltb_lt in E. split; lra.
  - apply NumFacts.Qltb_ge in E. split; lra.
Qed.

Lemma pymin_one_of (a b : Q) : pymin a b = a \/ pymin a b = b.
Proof. unfold pymin. destruct (Qltb b a); [right | left]; reflexivity. Qed.

(** The peak never falls and [max_drawdown] never rises. *)
Lemma update_performance_le (m : Manager) (x : X) (t : list Call) :
  let m' := comp (snd (_update_performance_metrics (mkSt m x t))) in
  settings m' = settings m /\
  peak_portfolio_value m <= peak_portfolio_value m' /\
  max_drawdown' m' <= max_drawdown' m.
Proof.
  destruct (update_performance_effect m x t)
    as [m' [Hrun [Hs [_ [_ [_ [_ [_ [Hpeak Hdd]]]]]]]]].
  rewrite Hrun. cbn [snd comp]. split; [exact Hs |].
  split.
  - rewrite Hpeak.
    destruct (Qgtb (total_balance m) (peak_portfolio_value m)) eqn:E.
    + apply NumFacts.Qgtb_gt in E. lra.
    + apply Qle_refl.
  - rewrite Hdd. destruct (Qgtb (peak_portfolio_value m') 0).
    + apply pymin_le_both.
    + apply Qle_refl.
Qed.

(** [_update_performance_metrics] never raises and touches the peak,
    the drawdown and the daily profit only.  The peak becomes the
    larger of the old peak and the balance.  [max_drawdown] is a running
    minimum: it never rises, and with a positive peak it is at most the
    drawdown of the balance from the peak, which is zero or less; with
    a balance that is not negative it stays above -1 once it was.
    With a peak of zero or less it is left as it was. *)
Theorem update_performance_metrics_running_minimum (s : St Manager X) :
  exists m',
    _update_performance_metrics s = (Ok tt, mkSt m' (ext s) (trace s)) /\
    settings m' = settings (comp s) /\
    total_balance m' = total_balance (comp s) /\
    position_ratio m' = position_ratio (comp s) /\
    peak_portfolio_value (comp s) <= peak_portfolio_value m' /\
    total_balance (comp s) <= peak_portfolio_value m' /\
    (peak_portfolio_value m' = peak_portfolio_value (comp s) \/
     peak_portfolio_value m' = total_balance (comp s)) /\
    max_drawdown' m' <= max_drawdown' (comp s) /\
    (0 < peak_portfolio_value m' ->
     max_drawdown' m'
     <= (total_balance (comp s) - peak_portfolio_value m')
        / peak_portfolio_value m' /\
     (total_balance (comp s) - peak_portfolio_value m')
     / peak_portfolio_value m' <= 0 /\
     (0 <= total_balance (comp s) -> -1 <= max_drawdown' (comp s) ->
      -1 <= max_drawdown' m')) /\
    (peak_portfolio_value m' <= 0 ->
     max_drawdown' m' = max_drawdown' (comp s)).
Proof.
  destruct s as [m x t]. cbn [comp ext trace].
  destruct (update_performance_effect m x t)
    as [m' [Hrun [Hs [_ [Hb [Hr [_ [_ [Hpeak Hdd]]]]]]]]].
  exists m'. split; [exact Hrun |].
  split; [exact Hs |]. split; [exact Hb |]. split; [exact Hr |].
  assert (Hp1 : peak_portfolio_value m <= peak_portfolio_value m' /\
                total_balance m <= peak_portfolio_value m').
  { rewrite Hpeak.
    destruct (Qgtb (total_balance m) (peak_portfolio_value m)) eqn:E.
    - apply NumFacts.Qgtb_gt in E. split; lra.
    - apply NumFacts.Qgtb_le in E. split; lra. }
  destruct Hp1 as [Hp1 Hp2].
  split; [exact Hp1 |]. split; [exact Hp2 |].
  split.
  { rewrite Hpeak.
    destruct (Qgtb (total_balance m) (peak_portfolio_value m));
      [right | left]; reflexivity. }
  set (peak := peak_portfolio_value m') in *.
  set (drawdown := (total_balance m - peak) / peak) in *.
  destruct (Qgtb peak 0) eqn:Epos.
  - apply NumFacts.Qgtb_gt in Epos.
    destruct (pymin_le_both (max_drawdown' m) drawdown) as [Hm1 Hm2].
    rewrite Hdd.
    assert (Hd0 : drawdown <= 0).
    { unfold drawdown. apply Qle_shift_div_r; [exact Epos | lra]. }
    split; [exact Hm1 |].
    split.
    + intros _. split; [exact Hm2 |]. split; [exact Hd0 |].
      intros Hbal Hold.
      assert (Hd1 : -1 <= drawdown).
      { unfold drawdown. apply Qle_shift_div_l; [exact Epos | lra]. }
      destruct (pymin_one_of (max_drawdown' m) drawdown) as [E | E];
        rewrite E; assumption.
    + intro Hle. lra.
  - apply NumFacts.Qgtb_le in Epos. rewrite Hdd.
    split; [apply Qle_refl |].
    split; [intro Hlt; lra | intros _; reflexivity].
Qed.

(** How the manager changes between two risk checks: new portfolio
    metrics are assigned, the performance metrics are updated, the
    daily reset is checked. *)
Inductive step : Manager -> Manager -> Prop :=
| step_metrics (m : Manager) (total ratio : Q) :
    step m (set_portfolio_metrics total ratio m)
| step_performance (m : Manager) (x : X) (t : list Call) :
    step m (comp (snd (_update_performance_metrics (mkSt m x t))))
| step_daily_reset (m : Manager) (x : X) (t : list Call) :
    step m (comp (snd (_check_daily_reset (mkSt m x t)))).

Inductive evolves : Manager -> Manager -> Prop :=
| evolves_refl (m : Manager) : evolves m m
| evolves_step (m m1 m2 : Manager) :
    step m m1 -> evolves m1 m2 -> evolves m m2.

Lemma step_facts (m m' : Manager) :
  step m m' ->
  settings m' = settings m /\
  peak_portfolio_value m <= peak_portfolio_value m' /\
  max_drawdown' m' <= max_drawdown' m.
Proof.
  intro Hstep. destruct Hstep as [m total ratio | m x t | m x t].
  - cbn. split; [reflexivity |]. split; apply Qle_refl.
  - destruct (update_performance_le m x t) as [Hs [Hp Hd]].
    split; [exact Hs |]. split; [exact Hp | exact Hd].
  - destruct (check_daily_reset_effect m x t)
      as [m' [Hrun [Hs [_ [_ [_ [Hp Hd]]]]]]].
    rewrite Hrun. cbn [snd comp]. rewrite Hs, Hp, Hd.
    split; [reflexivity |]. split; apply Qle_refl.
Qed.


Lemma evolves_facts (m m' : Manager) :
  evolves m m' ->
  settings m' = settings m /\
  peak_portfolio_value m <= peak_portfolio_value m' /\
  max_drawdown' m' <= max_drawdown' m.
Proof.
  intro Hev. induction Hev as [m | m m1 m2 Hstep Hev IH].
  - split; [reflexivity |]. split; apply Qle_refl.
  - destruct (step_facts m m1 Hstep) as [Hs [Hp Hd]].
    destruct IH as [Hs' [Hp' Hd']].
    split; [rewrite Hs', Hs; reflexivity |]. split; lra.
Qed.

(** The one alert that [check_risk_limits] sends, whatever the
    warning. *)
Definition position_risk (m : Manager) : Call :=
  CNotify (NRiskAlert "POSITION_RISK" (position_ratio m)
             (max_position_ratio (risk (settings m))) "MONITOR").

Definition send_position_risk (m : Manager) : Warning -> Py.M Manager X unit :=
  fun _ =>
    let n := NRiskAlert "POSITION_RISK" (position_ratio m)
               (max_position_ratio (risk (settings m))) "MONITOR" in
    call_unit (CNotify n) (notify n).

(** The notification loop: all sent, or cut at the first failure. *)
Lemma notify_loop (m : Manager) (warnings : list Warning) :
  forall s : St Manager X,
  exists x' k (ok : bool),
    for_each warnings (send_position_risk m) s
    = ((if ok then Ok tt else Raised),
       mkSt (comp s) x' (trace s ++ repeat (position_risk m) k)) /\
    (if ok then k = List.length warnings
     else (1 <= k <= List.length warnings)%nat).
Proof.
  induction warnings as [| w rest IH]; intro s.
  - exists (ext s), 0%nat, true. cbn [for_each repeat]. unfold ret.
    rewrite app_nil_r. destruct s; split; reflexivity.
  - cbn [for_each]. unfold bind at 1. unfold send_position_risk at 1.
    cbv zeta. unfold call_unit at 1, call at 1.
    match goal with |- context [notify ?n ?x] =>
      destruct (notify n x) as [[|] x1] end.
    + destruct (IH (mkSt (comp s) x1 (trace s ++ [position_risk m])))
        as [x' [k [ok [Hrun Hk]]]].
      exists x', (S k), ok. fold (position_risk m). rewrite Hrun.
      cbn [comp trace repeat]. rewrite <- app_assoc.
      split; [reflexivity |].
      destruct ok; cbn [List.length]; lia.
    + exists x1, 1%nat, false. split; [reflexivity |].
      cbn [List.length]. lia.
Qed.

(** The warnings do not depend on the notifier. *)
Lemma check_risk_limits_result (s : St Manager X) :
  exists x' k (failed : bool),
    check_risk_limits s
    = (Ok (risk_warnings (comp s)),
       mkSt (comp s) x'
         (trace s ++ repeat (position_risk (comp s)) k
          ++ (if failed then [CLogError "Failed to check risk limits"] else []))) /\
    (k <= List.length (risk_warnings (comp s)))%nat /\
    (has_notifier (comp s) = false -> k = 0%nat /\ failed = false) /\
    (has_notifier (comp s) = true -> failed = false ->
     k = List.length (risk_warnings (comp s))) /\
    (failed = true -> (1 <= k)%nat).
Proof.
  destruct s as [m x t]. unfold check_risk_limits.
  unfold bind at 1. unfold gets at 1. cbn [comp trace]. cbv zeta.
  unfold bind at 1. unfold try_except.
  destruct (risk_warnings m) as [| w rest] eqn:Ew.
  { cbn [andb]. unfold ret.
    exists x, 0%nat, false. cbn [repeat app List.length]. rewrite app_nil_r.
    split; [reflexivity |]. split; [lia |].
    split; [intros _; split; reflexivity |].
    split; [intros _ _; reflexivity | discriminate]. }
  destruct (has_notifier m) eqn:Ehas; cbn [andb].
  2:{ unfold ret.
      exists x, 0%nat, false. cbn [repeat app]. rewrite app_nil_r.
      split; [reflexivity |]. split; [lia |].
      split; [intros _; split; reflexivity |].
      split; [discriminate | discriminate]. }
  match goal with |- context [for_each ?l ?b ?s0] =>
    change (for_each l b s0) with (for_each l (send_position_risk m) s0) end.
  destruct (notify_loop m (w :: rest) (mkSt m x t))
    as [x' [k [[|] [Hrun Hk]]]]; rewrite Hrun; cbn [comp trace].
  - exists x', k, false. rewrite app_nil_r. unfold ret.
    split; [reflexivity |]. split; [lia |].
    split; [discriminate |].
    split; [intros _ _; exact Hk | discriminate].
  - exists x', k, true. unfold log_error, record, ret. cbn [comp ext trace].
    rewrite <- app_assoc.
    split; [reflexivity |]. split; [lia |].
    split; [discriminate |].
    split; [intros _ Hf; discriminate | intros _; lia].
Qed.

(** The warnings, one piece for each comparison. *)
Lemma risk_warnings_pieces (m : Manager) :
  risk_warnings m
  = (if Qgtb (position_ratio m) (max_position_ratio (risk (settings m)))
     then [PositionRatioExceeded (position_ratio m)] else [])
    ++ (if Qltb (position_ratio m) (min_position_ratio (risk (settings m)))
        then [PositionRatioBelowMinimum (position_ratio m)] else [])
    ++ (if Qltb (max_drawdown' m) (max_drawdown (risk (settings m)))
        then [MaxDrawdownExceeded (max_drawdown' m)] else [])
    ++ (if Qltb (daily_pnl m) (daily_loss_limit (risk (settings m)))
        then [DailyLossLimitExceeded (daily_pnl m)] else []).
Proof.
  unfold risk_warnings. cbv zeta.
  destruct (Qgtb (position_ratio m) (max_position_ratio (risk (settings m))));
  destruct (Qltb (position_ratio m) (min_position_ratio (risk (settings m))));
  destruct (Qltb (max_drawdown' m) (max_drawdown (risk (settings m))));
  destruct (Qltb (daily_pnl m) (daily_loss_limit (risk (settings m))));
  reflexivity.
Qed.

Lemma in_piece (b : bool) (w0 w : Warning) :
  In w (if b then [w0] else []) <-> w = w0 /\ b = true.
Proof.
  destruct b; simpl; split.
  - intros [E | []]. split; [symmetry; exact E | reflexivity].
  - intros [E _]. left. symmetry. exact E.
  - intros [].
  - intros [_ E]. discriminate.
Qed.

(** Which warnings the comparisons give. *)
Lemma risk_warnings_members (m : Manager) (w : Warning) :
  In w (risk_warnings m) <->
  (w = PositionRatioExceeded (position_ratio m) /\
   max_position_ratio (risk (settings m)) < position_ratio m) \/
  (w = PositionRatioBelowMinimum (position_ratio m) /\
   position_ratio m < min_position_ratio (risk (settings m))) \/
  (w = MaxDrawdownExceeded (max_drawdown' m) /\
   max_drawdown' m < max_drawdown (risk (settings m))) \/
  (w = DailyLossLimitExceeded (daily_pnl m) /\
   daily_pnl m < daily_loss_limit (risk (settings m))).
Proof.
  rewrite risk_warnings_pieces. rewrite !in_app_iff, !in_piece.
  rewrite NumFacts.Qgtb_gt, !NumFacts.Qltb_lt. reflexivity.
Qed.

Lemma risk_warnings_count (m : Manager) :
  min_position_ratio (risk (settings m))
  <= max_position_ratio (risk (settings m)) ->
  (List.length (risk_warnings m) <= 3)%nat.
Proof.
  intro Hcfg. rewrite risk_warnings_pieces.
  destruct (Qgtb (position_ratio m) (max_position_ratio (risk (settings m))))
    eqn:E1;
    [apply NumFacts.Qgtb_gt in E1 | apply NumFacts.Qgtb_le in E1];
  (destruct (Qltb (position_ratio m) (min_position_ratio (risk (settings m))))
     eqn:E2;
     [apply NumFacts.Qltb_lt in E2 | apply NumFacts.Qltb_ge in E2]);
  try lra;
  destruct (Qltb (max_drawdown' m) (max_drawdown (risk (settings m))));
  destruct (Qltb (daily_pnl m) (daily_loss_limit (risk (settings m))));
  cbn [app List.length]; lia.
Qed.

(** [check_risk_limits] never raises and leaves the manager as it is.
    It returns one warning for each limit that is passed, whether or
    not there is a notifier and whether or not a notification fails;
    with the ratio limits in order there are at most three.  Every
    notification it sends is the same POSITION_RISK alert with the
    position ratio, whatever the warning: one for each warning when
    none fails, none without a notifier, and after the first that fails
    one error is logged and the other warnings are not notified. *)
Theorem check_risk_limits_outcome (s : St Manager X) :
  exists warnings x' k (failed : bool),
    check_risk_limits s
    = (Ok warnings,
       mkSt (comp s) x'
         (trace s ++ repeat (position_risk (comp s)) k
          ++ (if failed then [CLogError "Failed to check risk limits"] else []))) /\
    (forall w, In w warnings <->
       (w = PositionRatioExceeded (position_ratio (comp s)) /\
        max_position_ratio (risk (settings (comp s))) < position_ratio (comp s)) \/
       (w = PositionRatioBelowMinimum (position_ratio (comp s)) /\
        position_ratio (comp s) < min_position_ratio (risk (settings (comp s)))) \/
       (w = MaxDrawdownExceeded (max_drawdown' (comp s)) /\
        max_drawdown' (comp s) < max_drawdown (risk (settings (comp s)))) \/
       (w = DailyLossLimitExceeded (daily_pnl (comp s)) /\
        daily_pnl (comp s) < daily_loss_limit (risk (settings (comp s))))) /\
    (min_position_ratio (risk (settings (comp s)))
     <= max_position_ratio (risk (settings (comp s))) ->
     (List.length warnings <= 3)%nat) /\
    (k <= List.length warnings)%nat /\
    (has_notifier (comp s) = false -> k = 0%nat /\ failed = false) /\
    (has_notifier (comp s) = true -> failed = false ->
     k = List.length warnings) /\
    (failed = true -> (1 <= k)%nat).
Proof.
  destruct (check_risk_limits_result s)
    as [x' [k [failed [Hrun [Hk [Hnone [Hall Hfail]]]]]]].
  exists (risk_warnings (comp s)), x', k, failed.
  split; [exact Hrun |].
  split; [intro w; apply risk_warnings_members |].
  split; [apply risk_warnings_count |].
  split; [exact Hk |]. split; [exact Hnone |].
  split; [exact Hall | exact Hfail].
Qed.

(** The drawdown of the position manager is a running minimum that
    nothing resets: however the manager goes on (new portfolio metrics,
    updates of the performance metrics, daily resets), the settings
    stay, the peak never falls and [max_drawdown] never rises, so once
    [check_risk_limits] has given the drawdown warning it gives it at
    every later check, also after the balance has recovered. *)
Theorem drawdown_warning_is_permanent (m m' : Manager) :
  evolves m m' ->
  settings m' = settings m /\
  peak_portfolio_value m <= peak_portfolio_value m' /\
  max_drawdown' m' <= max_drawdown' m /\
  forall (x x1 : X) (t t1 : list Call) (warnings : list Warning),
    fst (check_risk_limits (mkSt m x t)) = Ok warnings ->
    In (MaxDrawdownExceeded (max_drawdown' m)) warnings ->
    exists warnings',
      fst (check_risk_limits (mkSt m' x1 t1)) = Ok warnings' /\
      In (MaxDrawdownExceeded (max_drawdown' m')) warnings'.
Proof.
  intro Hev. destruct (evolves_facts m m' Hev) as [Hs [Hp Hd]].
  split; [exact Hs |]. split; [exact Hp |]. split; [exact Hd |].
  intros x x1 t t1 warnings Hrun Hin.
  destruct (check_risk_limits_result (mkSt m x t))
    as [x' [k [failed [Hrun0 _]]]].
  rewrite Hrun0 in Hrun. cbn [fst comp] in Hrun.
  inversion Hrun as [Hw]. subst warnings.
  apply risk_warnings_members in Hin.
  assert (Hlt : max_drawdown' m < max_drawdown (risk (settings m))).
  { destruct Hin as [[Hw _] | [[Hw _] | [[_ Hlt] | [Hw _]]]];
      try discriminate. exact Hlt. }
  destruct (check_risk_limits_result (mkSt m' x1 t1))
    as [x1' [k1 [failed1 [Hrun1 _]]]].
  exists (risk_warnings m'). rewrite Hrun1. cbn [fst comp].
  split; [reflexivity |].
  apply risk_warnings_members. right. right. left.
  split; [reflexivity |]. rewrite Hs. lra.
Qed.

End Facts.

(** A manager with a peak of 100 and a balance of 80, its metrics
    updated; then the balance at 120, and the metrics updated again. *)
Definition dipped : Manager :=
  Eval vm_compute in
  comp (snd (_update_performance_metrics
               (mkSt (set_portfolio_metrics 80 (1 # 2)
                        (set_peak_portfolio_value 100
                           (init Mock.default_settings true)))
                     Mock.calm []))).

Definition recovered : Manager :=
  Eval vm_compute in
  comp (snd (_update_performance_metrics
               (mkSt (set_portfolio_metrics 120 (1 # 2) dipped)
                     Mock.calm []))).

Lemma drawdown_warning_is_permanent_witness :
  evolves (X := Mock.World) dipped recovered /\
  peak_portfolio_value recovered == 120 /\
  max_drawdown' recovered == - (1 # 5) /\
  exists warnings,
    fst (check_risk_limits (mkSt recovered Mock.calm [])) = Ok warnings /\
    In (MaxDrawdownExceeded (max_drawdown' recovered)) warnings.
Proof.
  assert (Hev : evolves (X := Mock.World) dipped recovered).
  { apply (evolves_step _ (set_portfolio_metrics 120 (1 # 2) dipped));
      [apply step_metrics |].
    apply (evolves_step _ recovered); [| apply evolves_refl].
    exact (step_performance (set_portfolio_metrics 120 (1 # 2) dipped)
             Mock.calm []). }
  split; [exact Hev |].
  split; [reflexivity |]. split; [reflexivity |].
  destruct (drawdown_warning_is_permanent dipped recovered Hev)
    as [_ [_ [_ Hwarn]]].
  apply (Hwarn Mock.calm Mock.calm [] []
           [MaxDrawdownExceeded (max_drawdown' dipped)]).
  - vm_compute. reflexivity.
  - left. reflexivity.
Defined.

End PositionFacts.

Module RateLimitFacts.
Import Notifier.

Section Facts.
Context {X : Type} `{Clock X}.

(** Is [timestamp] within the window [w] that ends at [t]. *)
Definition within (w t : Q) (timestamp : Q) : bool := Qltb (t - timestamp) w.

(** One call of [_check_rate_limit]. *)
Lemma check_rate_limit_step (n : Notifier) (x : X) (t : list Call) :
  let kept := filter (within (rate_limit_window n) (time_time x))
                     (notification_history n) in
  let answer := negb (rate_limit n <=? Z.of_nat (List.length kept))%Z in
  _check_rate_limit (mkSt n x t)
  = (Ok answer,
     mkSt (set_notification_history
             (if answer then kept ++ [time_time x] else kept) n) x t).
Proof.
  cbv zeta. unfold _check_rate_limit.
  cbv [bind ask modify gets ret]. cbn [comp ext trace].
  cbn [notification_history rate_limit rate_limit_window set_notification_history].
  unfold within.
  destruct (rate_limit n <=? _)%Z; reflexivity.
Qed.

(** [_check_rate_limit] called once in each of the worlds [xs], one
    after the other: the answers, and the notifier afterwards. *)
Fixpoint calls (xs : list X) (n : Notifier) : list bool * Notifier :=
  match xs with
  | [] => ([], n)
  | x :: rest =>
      match _check_rate_limit (mkSt n x []) with
      | (Ok answer, s) =>
          let (answers, n') := calls rest (comp s) in (answer :: answers, n')
      | (Raised, s) => ([], comp s)
      end
  end.

(** The times of the calls that were let through. *)
Fixpoint allowed (xs : list X) (answers : list bool) : list Q :=
  match xs, answers with
  | x :: xs', true :: answers' => time_time x :: allowed xs' answers'
  | _ :: xs', false :: answers' => allowed xs' answers'
  | _, _ => []
  end.

Lemma filter_weaker {A} (f g : A -> bool) (l : list A) :
  (forall a, f a = true -> g a = true) ->
  filter f (filter g l) = filter f l.
Proof.
  intro Himp. induction l as [| a r IH]; [reflexivity |].
  cbn [filter]. destruct (g a) eqn:Eg; cbn [filter].
  - rewrite IH. reflexivity.
  - destruct (f a) eqn:Ef; [| exact IH].
    rewrite (Himp a Ef) in Eg. discriminate.
Qed.

Lemma within_earlier (w t t' timestamp : Q) :
  t <= t' -> within w t' timestamp = true -> within w t timestamp = true.
Proof.
  unfold within. intros Hle Hin.
  apply NumFacts.Qltb_lt. apply NumFacts.Qltb_lt in Hin. lra.
Qed.

Lemma within_now (w t : Q) : 0 < w -> within w t t = true.
Proof. intro Hw. unfold within. apply NumFacts.Qltb_lt. lra. Qed.

Lemma last_time_ge (t : Q) (xs : list X) (x : X) :
  StronglySorted Qle (t :: map time_time (xs ++ [x])) -> t <= time_time x.
Proof.
  intro Hs. apply StronglySorted_inv in Hs. destruct Hs as [_ Hall].
  rewrite Forall_forall in Hall. apply Hall.
  rewrite map_app. apply in_or_app. right. left. reflexivity.
Qed.

(** What a run of calls at times that do not go back leaves in the
    history. *)
Lemma calls_history (xs : list X) (x : X) :
  forall n : Notifier,
  0 < rate_limit_window n ->
  StronglySorted Qle (map time_time (xs ++ [x])) ->
  exists answers n',
    calls (xs ++ [x]) n = (answers, n') /\
    List.length answers = S (List.length xs) /\
    rate_limit n' = rate_limit n /\
    rate_limit_window n' = rate_limit_window n /\
    notification_history n'
    = filter (within (rate_limit_window n) (time_time x))
             (notification_history n ++ allowed (xs ++ [x]) answers) /\
    (Z.of_nat (List.length (notification_history n'))
     <= Z.max (Z.of_nat (List.length (notification_history n))) (rate_limit n))%Z /\
    (last answers true = false ->
     (rate_limit n <= Z.of_nat (List.length (notification_history n')))%Z).
Proof.
  induction xs as [| y rest IH]; intros n Hw Hsorted.
  - cbn [app calls]. rewrite check_rate_limit_step. cbn [comp].
    set (kept := filter (within (rate_limit_window n) (time_time x))
                        (notification_history n)).
    assert (Hkept : (List.length kept <= List.length (notification_history n))%nat)
      by apply filter_length_le.
    destruct (rate_limit n <=? Z.of_nat (List.length kept))%Z eqn:E; cbn [negb].
    + apply Z.leb_le in E.
      eexists; eexists. split; [reflexivity |].
      cbn [List.length allowed notification_history set_notification_history
           rate_limit rate_limit_window last].
      split; [reflexivity |]. split; [reflexivity |]. split; [reflexivity |].
      rewrite app_nil_r. fold kept.
      split; [reflexivity |]. split; [lia |]. intros _. exact E.
    + apply Z.leb_gt in E.
      eexists; eexists. split; [reflexivity |].
      cbn [List.length allowed notification_history set_notification_history
           rate_limit rate_limit_window last].
      split; [reflexivity |]. split; [reflexivity |]. split; [reflexivity |].
      rewrite filter_app. fold kept. cbn [filter].
      rewrite (within_now _ _ Hw).
      split; [reflexivity |].
      split; [rewrite length_app; cbn [List.length]; lia | discriminate].
  - cbn [app calls]. rewrite check_rate_limit_step. cbn [comp].
    set (kept := filter (within (rate_limit_window n) (time_time y))
                        (notification_history n)).
    assert (Hkept : (List.length kept <= List.length (notification_history n))%nat)
      by apply filter_length_le.
    cbn [map app] in Hsorted.
    pose proof (last_time_ge _ _ _ Hsorted) as Hle.
    apply StronglySorted_inv in Hsorted. destruct Hsorted as [Hsorted _].
    assert (Hskip : filter (within (rate_limit_window n) (time_time x)) kept
                    = filter (within (rate_limit_window n) (time_time x))
                             (notification_history n)).
    { unfold kept. apply filter_weaker.
      intros a Ha. exact (within_earlier _ _ _ _ Hle Ha). }
    destruct (rate_limit n <=? Z.of_nat (List.length kept))%Z eqn:E; cbn [negb].
    + apply Z.leb_le in E.
      destruct (IH (set_notification_history kept n) Hw Hsorted)
        as [answers [n' [Hrun [Hlen [Hlimit [Hwin [Hhist [Hbound Hfull]]]]]]]].
      rewrite Hrun. exists (false :: answers), n'.
      cbn [rate_limit rate_limit_window notification_history
           set_notification_history] in Hlimit, Hwin, Hhist, Hbound, Hfull.
      split; [reflexivity |].
      split; [cbn [List.length]; rewrite Hlen; reflexivity |].
      split; [exact Hlimit |]. split; [exact Hwin |].
      split; [| split].
      * rewrite Hhist. cbn [allowed]. rewrite !filter_app, Hskip. reflexivity.
      * lia.
      * intro Hlast. apply Hfull.
        destruct answers as [| a r]; [discriminate Hlen | exact Hlast].
    + apply Z.leb_gt in E.
      destruct (IH (set_notification_history (kept ++ [time_time y]) n) Hw Hsorted)
        as [answers [n' [Hrun [Hlen [Hlimit [Hwin [Hhist [Hbound Hfull]]]]]]]].
      rewrite Hrun. exists (true :: answers), n'.
      cbn [rate_limit rate_limit_window notification_history
           set_notification_history] in Hlimit, Hwin, Hhist, Hbound, Hfull.
      split; [reflexivity |].
      split; [cbn [List.length]; rewrite Hlen; reflexivity |].
      split; [exact Hlimit |]. split; [exact Hwin |].
      split; [| split].
      * rewrite Hhist. cbn [allowed].
        rewrite <- app_assoc. cbn [app].
        rewrite !filter_app, Hskip. reflexivity.
      * rewrite length_app in Hbound. cbn [List.length] in Hbound. lia.
      * intro Hlast. apply Hfull.
        destruct answers as [| a r]; [discriminate Hlen | exact Hlast].
Qed.

(** [_check_rate_limit] keeps the rate limit: after any run of calls
    at times that do not go back, started with an empty history, the
    history holds exactly the times of the calls let through that lie
    within the window ending at the last call, and there are never
    more than [rate_limit] of them.  A call is refused only when the
    window already holds [rate_limit] calls let through. *)
Theorem rate_limit_per_window (n : Notifier) (xs : list X) (x : X) :
  notification_history n = [] ->
  0 < rate_limit_window n ->
  StronglySorted Qle (map time_time (xs ++ [x])) ->
  exists answers n',
    calls (xs ++ [x]) n = (answers, n') /\
    List.length answers = S (List.length xs) /\
    let recent := filter (within (rate_limit_window n) (time_time x))
                         (allowed (xs ++ [x]) answers) in
    notification_history n' = recent /\
    (Z.of_nat (List.length recent) <= Z.max 0 (rate_limit n))%Z /\
    (last answers true = false ->
     (rate_limit n <= Z.of_nat (List.length recent))%Z).
Proof.
  intros Hempty Hw Hsorted.
  destruct (calls_history xs x n Hw Hsorted)
    as [answers [n' [Hrun [Hlen [_ [_ [Hhist [Hbound Hfull]]]]]]]].
  exists answers, n'. split; [exact Hrun |]. split; [exact Hlen |].
  cbv zeta. rewrite Hempty in Hhist, Hbound.
  cbn [app List.length] in Hhist, Hbound.
  split; [exact Hhist |].
  rewrite <- Hhist. split; [exact Hbound | exact Hfull].
Qed.

End Facts.

(** Calls at the times 0, 10 and 20, before one at 65, with a limit of
    two a minute. *)
Definition busy : list Mock.World :=
  [Mock.with_now 0 Mock.calm; Mock.with_now 10 Mock.calm;
   Mock.with_now 20 Mock.calm].

Lemma rate_limit_per_window_witness :
  exists n',
    calls (busy ++ [Mock.with_now 65 Mock.calm]) (init 2)
    = ([true; true; false; true], n') /\
    notification_history n' = [10; 65].
Proof.
  destruct (rate_limit_per_window (init 2) busy (Mock.with_now 65 Mock.calm))
    as [answers [n' [Hrun [_ [Hhist _]]]]].
  - reflexivity.
  - reflexivity.
  - repeat constructor; discriminate.
  - exists n'. vm_compute in Hrun. inversion Hrun; subst.
    split; [reflexivity |]. reflexivity.
Defined.

End RateLimitFacts.

Module StrategyFacts.
Import GridStrategy.

(** A case split on one comparison of the goal. *)
Ltac case_lt :=
  match goal with
  | |- context [Qltb ?a ?b] =>
      let E := fresh "E" in
      destruct (Qltb a b) eqn:E;
      [apply NumFacts.Qltb_lt in E | apply NumFacts.Qltb_ge in E]
  | H : context [if Qltb ?a ?b then _ else _] |- _ =>
      let E := fresh "E" in
      destruct (Qltb a b) eqn:E;
      [apply NumFacts.Qltb_lt in E | apply NumFacts.Qltb_ge in E]
  end.

(** [_get_optimal_grid_size] keeps the grid size within the bounds of
    the strategy: with the bounds in order the size lies between
    [min_grid_size] and [max_grid_size], and when [max_grid_size] is the
    configured maximum it is the size the engine's
    [_get_grid_size_for_volatility] takes for the same settings and
    volatility, clamped to the bounds; the engine itself does not clamp.
    With the bounds out of order the size is [max_grid_size]. *)
Theorem optimal_grid_size_clamped
  (s : Strategy) (e : GridEngine.Engine) (vol : Q) :
  let size := _get_optimal_grid_size s vol in
  (min_grid_size s <= max_grid_size s ->
   min_grid_size s <= size <= max_grid_size s) /\
  (max_grid_size s < min_grid_size s -> size == max_grid_size s) /\
  (min_grid_size s <= max_grid_size s ->
   GridEngine.settings e = settings s ->
   max_grid_size s = max_size (grid (settings s)) ->
   size == Helpers.clamp (GridEngine._get_grid_size_for_volatility e vol)
             (min_grid_size s) (max_grid_size s)).
Proof.
  cbv zeta. unfold _get_optimal_grid_size.
  split; [| split].
  - intro Hord.
    induction (volatility_thresholds (grid (settings s))) as [| t rest IH];
      cbn [optimal_grid_size_for].
    + split; [exact Hord | apply Qle_refl].
    + destruct (Qle_bool (range_lo t) vol && Qltb vol (range_hi t));
        [| exact IH].
      unfold pymin, pymax. repeat case_lt; split; lra.
  - intro Hord.
    induction (volatility_thresholds (grid (settings s))) as [| t rest IH];
      cbn [optimal_grid_size_for]; [reflexivity |].
    destruct (Qle_bool (range_lo t) vol && Qltb vol (range_hi t));
      [| exact IH].
    unfold pymin, pymax. repeat case_lt; lra.
  - intros Hord Hsame Hmax.
    unfold GridEngine._get_grid_size_for_volatility. rewrite Hsame, <- Hmax.
    induction (volatility_thresholds (grid (settings s))) as [| t rest IH];
      cbn [optimal_grid_size_for GridEngine.grid_size_for].
    + unfold Helpers.clamp, pymin, pymax. repeat case_lt; lra.
    + destruct (Qle_bool (range_lo t) vol && Qltb vol (range_hi t));
        [| exact IH].
      unfold Helpers.clamp, pymin, pymax. repeat case_lt; lra.
Qed.

Section Facts.
Context {X : Type}.

(** The loop over the levels, as a value: it raises at a level of zero. *)
Fixpoint scan (current_price : Q) (levels : list Q) (i : nat)
  : result (option (Q * nat)) :=
  match levels with
  | [] => Ok None
  | level :: rest =>
      if Qeq_bool level 0 then Raised
      else if Qltb (pyabs (current_price - level) / level) (1 # 1000)
           then Ok (Some (level, S i))
           else scan current_price rest (S i)
  end.

Lemma near_level_scan (current_price : Q) (levels : list Q) :
  forall (i : nat) (s : St Strategy X),
    near_level current_price levels i s = (scan current_price levels i, s).
Proof.
  induction levels as [| level rest IH]; intros i s; [reflexivity |].
  cbn [near_level scan]. unfold bind at 1. unfold pydiv.
  destruct (Qeq_bool level 0); [reflexivity |].
  unfold ret at 1.
  destruct (Qltb (pyabs (current_price - level) / level) (1 # 1000));
    [reflexivity | apply IH].
Qed.

(** Over positive levels the loop does not raise, and what it finds is
    a level within 0.1 % of the price. *)
Lemma scan_positive (current_price : Q) (levels : list Q) :
  Forall (fun level => 0 < level) levels ->
  forall i,
    scan current_price levels i <> Raised /\
    forall p k, scan current_price levels i = Ok (Some (p, k)) ->
      (i < k <= i + List.length levels)%nat /\
      nth (k - i - 1) levels 0 = p /\
      pyabs (current_price - p) < p * (1 # 1000).
Proof.
  induction 1 as [| level rest Hpos Hrest IH]; intro i.
  - cbn [scan]. split; [discriminate |]. intros p k E. discriminate.
  - cbn [scan].
    assert (E0 : Qeq_bool level 0 = false).
    { destruct (Qeq_bool level 0) eqn:E; [| reflexivity].
      apply Qeq_bool_iff in E. rewrite E in Hpos. discriminate. }
    rewrite E0.
    destruct (Qltb (pyabs (current_price - level) / level) (1 # 1000)) eqn:En.
    + split; [discriminate |]. intros p k E. inversion E; subst p k.
      cbn [List.length]. split; [lia |].
      replace (S i - i - 1)%nat with 0%nat by lia. split; [reflexivity |].
      apply NumFacts.Qltb_lt in En.
      assert (Hback : pyabs (current_price - level)
                      == pyabs (current_price - level) / level * level).
      { field. intro Hz. rewrite Hz in Hpos. discriminate. }
      pose proof (Qmult_lt_compat_r _ _ level Hpos En) as Hmul.
      lra.
    + destruct (IH (S i)) as [Hno Hfound]. split; [exact Hno |].
      intros p k E. destruct (Hfound p k E) as [Hk [Hnth Hnear]].
      cbn [List.length]. split; [lia |]. split; [| exact Hnear].
      replace (k - i - 1)%nat with (S (k - S i - 1)) by lia. exact Hnth.
Qed.

(** A level of zero or less stops the loop: at zero it raises, below
    zero the test holds whatever the price. *)
Lemma scan_nonpositive (current_price : Q) (levels : list Q) :
  Exists (fun level => level <= 0) levels ->
  forall i, scan current_price levels i <> Ok None.
Proof.
  induction 1 as [level rest Hle | level rest Hex IH]; intro i; cbn [scan].
  - destruct (Qeq_bool level 0) eqn:E0; [discriminate |].
    assert (Hneg : level < 0).
    { apply Qeq_bool_neq in E0. apply Qle_lt_or_eq in Hle.
      destruct Hle as [Hlt | Heq]; [exact Hlt | contradiction]. }
    assert (Hnear : Qltb (pyabs (current_price - level) / level) (1 # 1000) = true).
    { apply NumFacts.Qltb_lt.
      assert (Habs : 0 <= pyabs (current_price - level)).
      { unfold pyabs.
        destruct (Qltb (current_price - level) 0) eqn:E;
          [apply NumFacts.Qltb_lt in E | apply NumFacts.Qltb_ge in E]; lra. }
      assert (Hinv : / level < 0).
      { assert (Hp : 0 < / - level) by (apply Qinv_lt_0_compat; lra).
        assert (Hopp : / - level == - / level).
        { field. intro Hz. rewrite Hz in Hneg. discriminate. }
        rewrite Hopp in Hp. lra. }
      assert (Hprod : pyabs (current_price - level) / level <= 0).
      { unfold Qdiv.
        assert (H0 : 0 <= pyabs (current_price - level) * - / level)
          by (apply Qmult_le_0_compat; lra).
        lra. }
      lra. }
    rewrite Hnear. discriminate.
  - destruct (Qeq_bool level 0); [discriminate |].
    destruct (Qltb (pyabs (current_price - level) / level) (1 # 1000));
      [discriminate | apply IH].
Qed.

(** The ten level numbers of [_calculate_grid_levels]. *)
Lemma ten_levels : range 1 (10 + 1) = [1; 2; 3; 4; 5; 6; 7; 8; 9; 10]%Z.
Proof. reflexivity. Qed.

(** What [_calculate_grid_levels] leaves behind. *)
Lemma calculate_grid_levels_effect (base_price : Q) (s : St Strategy X) :
  exists c,
    _calculate_grid_levels base_price s = (Ok tt, mkSt c (ext s) (trace s)) /\
    grid_size c = grid_size (comp s) /\
    buy_levels c
    = map (LevelListFacts.buy_at base_price (grid_size (comp s)))
          [1; 2; 3; 4; 5; 6; 7; 8; 9; 10]%Z /\
    sell_levels c
    = map (LevelListFacts.sell_at base_price (grid_size (comp s)))
          [1; 2; 3; 4; 5; 6; 7; 8; 9; 10]%Z.
Proof.
  unfold _calculate_grid_levels, try_except.
  cbv [bind gets modify ret]. cbn [comp ext trace].
  rewrite LevelListFacts.levels_as_maps. rewrite ten_levels.
  eexists. split; [reflexivity |].
  cbn [grid_size buy_levels sell_levels set_buy_levels set_sell_levels
       Helpers.buy_levels Helpers.sell_levels].
  repeat split.
Qed.

Lemma level_number (k : nat) :
  (1 <= k <= 10)%nat ->
  forall f : Z -> Q,
    nth (k - 1) (map f [1; 2; 3; 4; 5; 6; 7; 8; 9; 10]%Z) 0 = f (Z.of_nat k).
Proof.
  intros Hk f.
  assert (Hcases : (k = 1 \/ k = 2 \/ k = 3 \/ k = 4 \/ k = 5 \/ k = 6
                    \/ k = 7 \/ k = 8 \/ k = 9 \/ k = 10)%nat) by lia.
  repeat (destruct Hcases as [Hcases | Hcases]; [subst k; reflexivity |]).
  subst k. reflexivity.
Qed.

Lemma level_step_small (grid_size : Q) (n : Z) :
  0 < grid_size -> grid_size < 10 -> (1 <= n <= 10)%Z ->
  0 < grid_size / 100 * inject_Z n /\ grid_size / 100 * inject_Z n < 1.
Proof.
  intros Hg Hlt Hn.
  assert (H1 : 1 <= inject_Z n)
    by (change 1 with (inject_Z 1); rewrite <- Zle_Qle; lia).
  assert (H10 : inject_Z n <= 10)
    by (change 10 with (inject_Z 10); rewrite <- Zle_Qle; lia).
  assert (Hstep : 0 < grid_size / 100)
    by (apply Qlt_shift_div_l; [reflexivity | lra]).
  assert (Hup : grid_size / 100 * inject_Z n <= grid_size / 100 * 10).
  { rewrite !(Qmult_comm (grid_size / 100)).
    apply Qmult_le_compat_r; lra. }
  assert (Hlo : grid_size / 100 * 1 <= grid_size / 100 * inject_Z n).
  { rewrite !(Qmult_comm (grid_size / 100)).
    apply Qmult_le_compat_r; lra. }
  assert (Hten : grid_size / 100 * 10 == grid_size / 10) by field.
  assert (Hsmall : grid_size / 10 < 1)
    by (apply Qlt_shift_div_r; [reflexivity | lra]).
  split; lra.
Qed.

Lemma buy_level_positive (base_price grid_size : Q) (n : Z) :
  0 < base_price -> 0 < grid_size -> grid_size < 10 -> (1 <= n <= 10)%Z ->
  0 < LevelListFacts.buy_at base_price grid_size n /\
  LevelListFacts.buy_at base_price grid_size n < base_price.
Proof.
  intros Hb Hg Hlt Hn. unfold LevelListFacts.buy_at.
  destruct (level_step_small grid_size n Hg Hlt Hn) as [H0 H1].
  set (step := grid_size / 100 * inject_Z n) in *.
  assert (Hp : 0 < base_price * (1 - step))
    by (apply Qmult_lt_0_compat; lra).
  assert (Hs : 0 < base_price * step) by (apply Qmult_lt_0_compat; lra).
  assert (E : base_price * (1 - step) == base_price - base_price * step)
    by ring.
  split; lra.
Qed.

Lemma sell_level_above (base_price grid_size : Q) (n : Z) :
  0 < base_price -> 0 < grid_size -> grid_size < 10 -> (1 <= n <= 10)%Z ->
  base_price < LevelListFacts.sell_at base_price grid_size n.
Proof.
  intros Hb Hg Hlt Hn. unfold LevelListFacts.sell_at.
  destruct (level_step_small grid_size n Hg Hlt Hn) as [H0 H1].
  set (step := grid_size / 100 * inject_Z n) in *.
  assert (Hs : 0 < base_price * step) by (apply Qmult_lt_0_compat; lra).
  assert (E : base_price * (1 + step) == base_price + base_price * step)
    by ring.
  lra.
Qed.

Lemma levels_positive (f : Z -> Q) :
  (forall n, (1 <= n <= 10)%Z -> 0 < f n) ->
  Forall (fun level => 0 < level) (map f [1; 2; 3; 4; 5; 6; 7; 8; 9; 10]%Z).
Proof.
  intro Hf. cbn [map]. repeat constructor; apply Hf; lia.
Qed.

(** The tenth buy level of a grid of 10 % or more is zero or less. *)
Lemma last_buy_level_nonpositive (base_price grid_size : Q) :
  0 < base_price -> 10 <= grid_size ->
  Exists (fun level => level <= 0)
    (map (LevelListFacts.buy_at base_price grid_size)
         [1; 2; 3; 4; 5; 6; 7; 8; 9; 10]%Z).
Proof.
  intros Hb Hg. apply Exists_exists.
  exists (LevelListFacts.buy_at base_price grid_size 10).
  split; [cbn [map]; do 9 right; left; reflexivity |].
  unfold LevelListFacts.buy_at.
  assert (Hten : grid_size / 100 * inject_Z 10 == grid_size / 10) by field.
  assert (Hone : 1 <= grid_size / 10)
    by (apply Qle_shift_div_l; [reflexivity | lra]).
  assert (Hp : 0 <= base_price * (grid_size / 100 * inject_Z 10 - 1))
    by (apply Qmult_le_0_compat; lra).
  assert (E : base_price * (1 - grid_size / 100 * inject_Z 10)
              == - (base_price * (grid_size / 100 * inject_Z 10 - 1)))
    by ring.
  lra.
Qed.

(** [_check_trading_signals] by the two loops. *)
Lemma check_trading_signals_run (current_price : Q) (s : St Strategy X) :
  _check_trading_signals current_price s
  = match scan current_price (buy_levels (comp s)) 0 with
    | Ok (Some (p, k)) => (Ok (SignalBuy p k), s)
    | Ok None =>
        match scan current_price (sell_levels (comp s)) 0 with
        | Ok (Some (p, k)) => (Ok (SignalSell p k), s)
        | Ok None => (Ok SignalNone, s)
        | Raised =>
            (Ok SignalError,
             mkSt (comp s) (ext s)
               (trace s ++ [CLogError "Failed to check trading signals"]))
        end
    | Raised =>
        (Ok SignalError,
         mkSt (comp s) (ext s)
           (trace s ++ [CLogError "Failed to check trading signals"]))
    end.
Proof.
  unfold _check_trading_signals, try_except.
  unfold bind at 1. unfold gets at 1.
  unfold bind at 1. rewrite near_level_scan.
  destruct (scan current_price (buy_levels (comp s)) 0) as [[[p k] |] |].
  - reflexivity.
  - unfold bind at 1. unfold gets at 1.
    unfold bind at 1. rewrite near_level_scan.
    destruct (scan current_price (sell_levels (comp s)) 0) as [[[p k] |] |];
      reflexivity.
  - reflexivity.
Qed.

(** The signal of one round of the strategy: the levels are calculated
    from the base price, then the price is looked up in them.  A signal
    is always returned.  With a positive base price and a grid size
    between 0 and 10 the signal is never an error, a buy is at one of
    the ten buy levels, below the base price and within 0.1 % of the
    price, and a sell at one of the ten sell levels, above the base
    price and within 0.1 % of the price.  With a grid size of 10 or
    more the tenth buy level is zero or less, where the test divides by
    zero or holds for every price: the signal is then a buy or an
    error, never a sell and never none. *)
Theorem check_trading_signals_after_levels
  (base_price current_price : Q) (s : St Strategy X) :
  exists signal c added,
    (_calculate_grid_levels base_price ;; _check_trading_signals current_price) s
    = (Ok signal, mkSt c (ext s) (trace s ++ added)) /\
    grid_size c = grid_size (comp s) /\
    (0 < base_price -> 0 < grid_size (comp s) -> grid_size (comp s) < 10 ->
     signal <> SignalError /\ added = [] /\
     (forall p k, signal = SignalBuy p k ->
        (1 <= k <= 10)%nat /\
        p = base_price
            * (1 - grid_size (comp s) / 100 * inject_Z (Z.of_nat k)) /\
        0 < p /\ p < base_price /\
        pyabs (current_price - p) < p * (1 # 1000)) /\
     (forall p k, signal = SignalSell p k ->
        (1 <= k <= 10)%nat /\
        p = base_price
            * (1 + grid_size (comp s) / 100 * inject_Z (Z.of_nat k)) /\
        base_price < p /\
        pyabs (current_price - p) < p * (1 # 1000))) /\
    (0 < base_price -> 10 <= grid_size (comp s) ->
     signal = SignalError \/ exists p k, signal = SignalBuy p k).
Proof.
  destruct (calculate_grid_levels_effect base_price s)
    as [c [Hrun [Hsize [Hbuy Hsell]]]].
  set (g := grid_size (comp s)) in *.
  assert (Hfound_buy : 0 < base_price -> 0 < g -> g < 10 ->
    forall p k, scan current_price (buy_levels c) 0 = Ok (Some (p, k)) ->
      (1 <= k <= 10)%nat /\
      p = base_price * (1 - g / 100 * inject_Z (Z.of_nat k)) /\
      0 < p /\ p < base_price /\
      pyabs (current_price - p) < p * (1 # 1000)).
  { intros Hb Hg Hlt p k E. rewrite Hbuy in E.
    assert (Hpos : Forall (fun level => 0 < level)
                     (map (LevelListFacts.buy_at base_price g)
                          [1; 2; 3; 4; 5; 6; 7; 8; 9; 10]%Z)).
    { apply levels_positive. intros n Hn.
      apply (buy_level_positive base_price g n Hb Hg Hlt Hn). }
    destruct (scan_positive current_price _ Hpos 0%nat) as [_ Hfound].
    destruct (Hfound p k E) as [Hk [Hnth Hnear]].
    cbn [List.length map] in Hk.
    assert (Hk' : (1 <= k <= 10)%nat) by lia.
    replace (k - 0 - 1)%nat with (k - 1)%nat in Hnth by lia.
    rewrite (level_number k Hk') in Hnth. subst p.
    split; [exact Hk' |]. split; [reflexivity |].
    destruct (buy_level_positive base_price g (Z.of_nat k) Hb Hg Hlt
                ltac:(lia)) as [H0 H1].
    unfold LevelListFacts.buy_at in *.
    split; [exact H0 |]. split; [exact H1 | exact Hnear]. }
  assert (Hfound_sell : 0 < base_price -> 0 < g -> g < 10 ->
    forall p k, scan current_price (sell_levels c) 0 = Ok (Some (p, k)) ->
      (1 <= k <= 10)%nat /\
      p = base_price * (1 + g / 100 * inject_Z (Z.of_nat k)) /\
      base_price < p /\
      pyabs (current_price - p) < p * (1 # 1000)).
  { intros Hb Hg Hlt p k E. rewrite Hsell in E.
    assert (Hpos : Forall (fun level => 0 < level)
                     (map (LevelListFacts.sell_at base_price g)
                          [1; 2; 3; 4; 5; 6; 7; 8; 9; 10]%Z)).
    { apply levels_positive. intros n Hn.
      pose proof (sell_level_above base_price g n Hb Hg Hlt Hn). lra. }
    destruct (scan_positive current_price _ Hpos 0%nat) as [_ Hfound].
    destruct (Hfound p k E) as [Hk [Hnth Hnear]].
    cbn [List.length map] in Hk.
    assert (Hk' : (1 <= k <= 10)%nat) by lia.
    replace (k - 0 - 1)%nat with (k - 1)%nat in Hnth by lia.
    rewrite (level_number k Hk') in Hnth. subst p.
    split; [exact Hk' |]. split; [reflexivity |].
    pose proof (sell_level_above base_price g (Z.of_nat k) Hb Hg Hlt
                  ltac:(lia)) as H1.
    unfold LevelListFacts.sell_at in *.
    split; [exact H1 | exact Hnear]. }
  assert (Hno_raise_buy : 0 < base_price -> 0 < g -> g < 10 ->
    scan current_price (buy_levels c) 0 <> Raised).
  { intros Hb Hg Hlt. rewrite Hbuy.
    apply scan_positive. apply levels_positive. intros n Hn.
    apply (buy_level_positive base_price g n Hb Hg Hlt Hn). }
  assert (Hno_raise_sell : 0 < base_price -> 0 < g -> g < 10 ->
    scan current_price (sell_levels c) 0 <> Raised).
  { intros Hb Hg Hlt. rewrite Hsell.
    apply scan_positive. apply levels_positive. intros n Hn.
    pose proof (sell_level_above base_price g n Hb Hg Hlt Hn). lra. }
  assert (Hstops : 0 < base_price -> 10 <= g ->
    scan current_price (buy_levels c) 0 <> Ok None).
  { intros Hb Hg. rewrite Hbuy. apply scan_nonpositive.
    apply last_buy_level_nonpositive; assumption. }
  unfold bind at 1. rewrite Hrun.
  rewrite check_trading_signals_run. cbn [comp ext trace].
  destruct (scan current_price (buy_levels c) 0) as [[[p k] |] |] eqn:Ebuy.
  - exists (SignalBuy p k), c, []. rewrite app_nil_r.
    split; [reflexivity |]. split; [exact Hsize |].
    split.
    + intros Hb Hg Hlt. split; [discriminate |]. split; [reflexivity |].
      split.
      * intros p' k' E. inversion E; subst p' k'.
        apply (Hfound_buy Hb Hg Hlt). reflexivity.
      * intros p' k' E. discriminate.
    + intros _ _. right. exists p, k. reflexivity.
  - destruct (scan current_price (sell_levels c) 0) as [[[p k] |] |] eqn:Esell.
    + exists (SignalSell p k), c, []. rewrite app_nil_r.
      split; [reflexivity |]. split; [exact Hsize |].
      split.
      * intros Hb Hg Hlt. split; [discriminate |]. split; [reflexivity |].
        split.
        -- intros p' k' E. discriminate.
        -- intros p' k' E. inversion E; subst p' k'.
           apply (Hfound_sell Hb Hg Hlt). reflexivity.
      * intros Hb Hg. contradiction (Hstops Hb Hg). reflexivity.
    + exists SignalNone, c, []. rewrite app_nil_r.
      split; [reflexivity |]. split; [exact Hsize |].
      split.
      * intros Hb Hg Hlt. split; [discriminate |]. split; [reflexivity |].
        split; intros p' k' E; discriminate.
      * intros Hb Hg. contradiction (Hstops Hb Hg). reflexivity.
    + exists SignalError, c, [CLogError "Failed to check trading signals"].
      split; [reflexivity |]. split; [exact Hsize |].
      split.
      * intros Hb Hg Hlt. contradiction (Hno_raise_sell Hb Hg Hlt). reflexivity.
      * intros _ _. left. reflexivity.
  - exists SignalError, c, [CLogError "Failed to check trading signals"].
    split; [reflexivity |]. split; [exact Hsize |].
    split.
    + intros Hb Hg Hlt. contradiction (Hno_raise_buy Hb Hg Hlt). reflexivity.
    + intros _ _. left. reflexivity.
Qed.

End Facts.
End StrategyFacts.
